(** * Earthquake feed fetcher: cache validity and retrieval

    A shallow embedding of [main.py] (the USGS earthquake feed viewer) and
    the properties of its cached fetcher.

    Conventions of the embedding.
    - A Python [str] is a Rocq [string]; each character stands for one
      code point in the range U+0000..U+00FF.  [str.encode()] is UTF-8.
    - File contents and HTTP bodies are byte strings, also [string].
    - [time.time()] and [os.path.getmtime] return doubles; a double is
      the rational it denotes, and the subtraction of [is_cache_valid]
      rounds as the hardware does ([float_sub]).
    - Effectful code runs in a monad [M]: it reads what the surroundings
      answer during the call ([env]), threads the filesystem ([world], a
      finite map from paths to nodes), may raise a Python exception, and
      records each filesystem or network action it performs ([event]).
    - The filesystem calls resolve a path through its directories
      ([stat]): a file below something that is not a directory is not
      there, and cannot be created.
    - [hashlib.md5] is implemented.  [json] and the text codec of [open]
      are parameters of the fetcher: what they return, the
      [JSONDecodeError] they report, and the faults they raise when a
      document is nested beyond the recursion limit or holds an integer
      beyond the digit limit.  One concrete codec ([PyJson]) serves the
      runs on concrete inputs.

    Assumptions on the surroundings: POSIX paths; one call at a time (no
    other process changes the disk during a call); a write fails at
    [open] or, when the serialiser gives up, leaves the text written so
    far; memory does not run out and no signal interrupts the call;
    [requests] 2.27 or later, where [Response.json()] reports a body that
    is not JSON with a [RequestException].

    Layout: the library calls, [main.py], the vocabulary of the statements
    and the concrete codec come first; the properties follow, the general
    ones before the runs on concrete inputs. *)

From Stdlib Require Import ZArith QArith Qround Qpower Lqa Ascii String List Lia.
From Stdlib Require Import DecimalPos DecimalN.
From stdpp Require Import base decidable option list strings pretty gmap.

Local Open Scope Z_scope.

(** ** hashlib.md5 (RFC 1321) over 32-bit words kept in [Z] *)

Module MD5.

Definition mask32 (x : Z) : Z := Z.land x 0xffffffff.
Definition add32 (x y : Z) : Z := mask32 (x + y).
Definition not32 (x : Z) : Z := Z.lxor (mask32 x) 0xffffffff.
Definition rotl32 (x c : Z) : Z :=
  mask32 (Z.lor (Z.shiftl x c) (Z.shiftr (mask32 x) (32 - c))).

(** Per-round shift amounts. *)
Definition S_table : list Z :=
  [7; 12; 17; 22; 7; 12; 17; 22; 7; 12; 17; 22; 7; 12; 17; 22;
   5;  9; 14; 20; 5;  9; 14; 20; 5;  9; 14; 20; 5;  9; 14; 20;
   4; 11; 16; 23; 4; 11; 16; 23; 4; 11; 16; 23; 4; 11; 16; 23;
   6; 10; 15; 21; 6; 10; 15; 21; 6; 10; 15; 21; 6; 10; 15; 21].

(** K[i] = floor(2^32 * |sin (i + 1)|). *)
Definition K_table : list Z :=
  [0xd76aa478; 0xe8c7b756; 0x242070db; 0xc1bdceee;
   0xf57c0faf; 0x4787c62a; 0xa8304613; 0xfd469501;
   0x698098d8; 0x8b44f7af; 0xffff5bb1; 0x895cd7be;
   0x6b901122; 0xfd987193; 0xa679438e; 0x49b40821;
   0xf61e2562; 0xc040b340; 0x265e5a51; 0xe9b6c7aa;
   0xd62f105d; 0x02441453; 0xd8a1e681; 0xe7d3fbc8;
   0x21e1cde6; 0xc33707d6; 0xf4d50d87; 0x455a14ed;
   0xa9e3e905; 0xfcefa3f8; 0x676f02d9; 0x8d2a4c8a;
   0xfffa3942; 0x8771f681; 0x6d9d6122; 0xfde5380c;
   0xa4beea44; 0x4bdecfa9; 0xf6bb4b60; 0xbebfbc70;
   0x289b7ec6; 0xeaa127fa; 0xd4ef3085; 0x04881d05;
   0xd9d4d039; 0xe6db99e5; 0x1fa27cf8; 0xc4ac5665;
   0xf4292244; 0x432aff97; 0xab9423a7; 0xfc93a039;
   0x655b59c3; 0x8f0ccc92; 0xffeff47d; 0x85845dd1;
   0x6fa87e4f; 0xfe2ce6e0; 0xa3014314; 0x4e0811a1;
   0xf7537e82; 0xbd3af235; 0x2ad7d2bb; 0xeb86d391].

Record regs := Regs { rA : Z; rB : Z; rC : Z; rD : Z }.

Definition init : regs :=
  Regs 0x67452301 0xefcdab89 0x98badcfe 0x10325476.

(** One of the 64 operations on a block [M] of sixteen words. *)
Definition step (M : list Z) (r : regs) (i : nat) : regs :=
  let '(Regs a b c d) := r in
  let '(f, g) :=
    if (i <? 16)%nat then
      (Z.lor (Z.land b c) (Z.land (not32 b) d), i)
    else if (i <? 32)%nat then
      (Z.lor (Z.land d b) (Z.land (not32 d) c), ((5 * i + 1) mod 16)%nat)
    else if (i <? 48)%nat then
      (Z.lxor (Z.lxor b c) d, ((3 * i + 5) mod 16)%nat)
    else
      (Z.lxor c (Z.lor b (not32 d)), ((7 * i) mod 16)%nat) in
  let f' := add32 (add32 (add32 f a) (nth i K_table 0)) (nth g M 0) in
  Regs d (add32 b (rotl32 f' (nth i S_table 0))) b c.

Definition compress (r : regs) (M : list Z) : regs :=
  let r' := fold_left (step M) (seq 0 64) r in
  Regs (add32 (rA r) (rA r')) (add32 (rB r) (rB r'))
       (add32 (rC r) (rC r')) (add32 (rD r) (rD r')).

(** Little-endian bytes of a value, [n] of them. *)
Fixpoint le_bytes (n : nat) (x : Z) : list Z :=
  match n with
  | O => []
  | S n' => Z.land x 0xff :: le_bytes n' (Z.shiftr x 8)
  end.

Definition le_word (b0 b1 b2 b3 : Z) : Z :=
  Z.lor (Z.lor b0 (Z.shiftl b1 8)) (Z.lor (Z.shiftl b2 16) (Z.shiftl b3 24)).

(** Message padding: 0x80, zeros up to 56 mod 64, bit length on 8 bytes. *)
Definition pad (msg : list Z) : list Z :=
  let len := Z.of_nat (length msg) in
  msg ++ [0x80] ++ repeat 0 (Z.to_nat ((55 - len) mod 64))
      ++ le_bytes 8 (8 * len).

Fixpoint words (fuel : nat) (bs : list Z) : list Z :=
  match fuel, bs with
  | S fuel', b0 :: b1 :: b2 :: b3 :: rest =>
      le_word b0 b1 b2 b3 :: words fuel' rest
  | _, _ => []
  end.

Fixpoint blocks (fuel : nat) (ws : list Z) : list (list Z) :=
  match fuel, ws with
  | S fuel', _ :: _ => firstn 16 ws :: blocks fuel' (skipn 16 ws)
  | _, _ => []
  end.

Definition md5 (msg : list Z) : regs :=
  let bs := pad msg in
  let ws := words (length bs) bs in
  fold_left compress (blocks (length ws) ws) init.

Definition digest (msg : list Z) : list Z :=
  let r := md5 msg in
  le_bytes 4 (rA r) ++ le_bytes 4 (rB r) ++ le_bytes 4 (rC r)
    ++ le_bytes 4 (rD r).

Definition hex_digit (n : Z) : ascii :=
  nth (Z.to_nat (Z.land n 0xf))
      (list_ascii_of_string "0123456789abcdef") "0"%char.

Definition hex_byte (b : Z) : list ascii :=
  [hex_digit (Z.shiftr b 4); hex_digit b].

Definition hexdigest (msg : list Z) : string :=
  string_of_list_ascii (concat (map hex_byte (digest msg))).

End MD5.

(** [str.encode()]: UTF-8 of code points below 256. *)
Definition utf8_encode_char (c : ascii) : list Z :=
  let n := Z.of_N (N_of_ascii c) in
  if n <? 0x80 then [n]
  else [Z.lor 0xc0 (Z.shiftr n 6); Z.lor 0x80 (Z.land n 0x3f)].

Definition str_encode (s : string) : list Z :=
  concat (map utf8_encode_char (list_ascii_of_string s)).

(** ** Double-precision subtraction

    [time.time()] and [os.path.getmtime] return doubles.  A finite double
    is modelled by the rational it denotes, and the difference of two
    doubles is their exact difference rounded to the nearest double, ties
    to the even significand (IEEE 754, the rounding Python uses).  What
    [round53] implements is rounding to 53 significant bits with an
    unbounded exponent: timestamps are far below the overflow threshold,
    and a difference of two doubles is a multiple of 2^-1074, so that on
    such differences this is the rounding of the hardware. *)

Definition pow2 (k : Z) : Q := (2 ^ k)%Q.

(** [floor (log2 x)], for [0 < x]. *)
Definition ilog2 (x : Q) : Z :=
  let k := Z.log2 (Qnum x) - Z.log2 (Zpos (Qden x)) in
  if Qle_bool (pow2 k) x then k else k - 1.

(** The nearest integer, ties to the even one. *)
Definition round_half_even (x : Q) : Z :=
  let f := Qfloor x in
  match (x - inject_Z f ?= 1 # 2)%Q with
  | Lt => f
  | Gt => f + 1
  | Eq => if Z.even f then f else f + 1
  end.

(** The nearest number with a significand of 53 bits, for [0 < x]. *)
Definition round53_pos (x : Q) : Q :=
  let e := ilog2 x - 52 in
  (inject_Z (round_half_even (x / pow2 e)) * pow2 e)%Q.

Definition round53 (x : Q) : Q :=
  match (x ?= 0)%Q with
  | Eq => 0%Q
  | Gt => round53_pos x
  | Lt => (- round53_pos (- x))%Q
  end.

(** [a - b] on doubles. *)
Definition float_sub (a b : Q) : Q := round53 (a - b).
(** ** Python values and exceptions *)

(** The values [json.load] and [Response.json()] produce: [None], [bool],
    [int], [float], [str], [list] and [dict] (insertion-ordered, string
    keys).  The type is parametric in the representation [F] of floats. *)
#[local] Unset Elimination Schemes.
Inductive json (F : Type) : Type :=
| JNull
| JBool (b : bool)
| JInt (z : Z)
| JFloat (f : F)
| JStr (s : string)
| JList (l : list (json F))
| JDict (kv : list (string * json F)).

#[local] Set Elimination Schemes.

Arguments JNull {F}.
Arguments JBool {F} b.
Arguments JInt {F} z.
Arguments JFloat {F} f.
Arguments JStr {F} s.
Arguments JList {F} l.
Arguments JDict {F} kv.

(** Exception classes that the calls of [main.py] can raise. *)
Inductive exn_class :=
| OSError                  (* [IOError] is an alias of it *)
| FileNotFoundError
| FileExistsError
| IsADirectoryError
| NotADirectoryError
| ValueError
| UnicodeDecodeError
| RuntimeError
| RecursionError
| JSONDecodeError          (* json.JSONDecodeError *)
| RequestException         (* requests.RequestException *)
| HTTPError
| ConnectionError
| Timeout
| RequestsJSONDecodeError. (* requests.exceptions.JSONDecodeError *)

#[global] Instance exn_class_eq_dec : EqDecision exn_class.
Proof. solve_decision. Defined.

(** Direct base classes, as declared by Python and by [requests]. *)
Definition bases (c : exn_class) : list exn_class :=
  match c with
  | OSError | ValueError | RuntimeError => []
  | FileNotFoundError | FileExistsError | IsADirectoryError | NotADirectoryError =>
      [OSError]
  | UnicodeDecodeError | JSONDecodeError => [ValueError]
  | RecursionError => [RuntimeError]
  | RequestException => [OSError]
  | HTTPError | ConnectionError | Timeout => [RequestException]
  | RequestsJSONDecodeError => [RequestException; JSONDecodeError]
  end.

Fixpoint issubclass_upto (depth : nat) (c d : exn_class) : bool :=
  bool_decide (c = d) ||
  match depth with
  | O => false
  | S depth' => existsb (fun b => issubclass_upto depth' b d) (bases c)
  end.

Definition issubclass : exn_class -> exn_class -> bool := issubclass_upto 3.

Record exn := Exn { exn_cls : exn_class; exn_msg : string }.

(** [isinstance(e, C)] and [str(e)]. *)
Definition isinstance (e : exn) (c : exn_class) : bool := issubclass (exn_cls e) c.
Definition str_exn (e : exn) : string := exn_msg e.

Inductive outcome (A : Type) : Type :=
| Ret (a : A)
| Raise (e : exn).

Arguments Ret {A} a.
Arguments Raise {A} e.

(** *** What the JSON codec can answer

    Besides a value or a [JSONDecodeError], [json.loads] gives up with a
    [RecursionError] on a document nested beyond the recursion limit of
    the interpreter, and with a [ValueError] on an integer literal of more
    digits than the conversion limit (4300 by default); [json.dump] does
    the same on such a value, after having written part of the text. *)
Inductive codec_fault := RecursionLimit | IntDigitsLimit.

Definition fault_class (f : codec_fault) : exn_class :=
  match f with
  | RecursionLimit => RecursionError
  | IntDigitsLimit => ValueError
  end.

(** Why [json.loads] returned no value. *)
Inductive parse_error :=
| NotJson (diagnostic : string)                 (* JSONDecodeError *)
| ParseFault (f : codec_fault) (msg : string).

(** [json.dump] giving up, and the text it had written by then. *)
Record dump_fault := DumpFault {
  dump_fault_kind : codec_fault;
  dump_fault_msg : string;
  dump_written : string
}.

(** ** The world: filesystem, clock, network *)

Inductive node_kind :=
| Dir
| Reg (content : string).

(** [mtime] is the [st_mtime] of the node, a double. *)
Record node := Node { mtime : Q; kind : node_kind }.

(** The filesystem maps a path to the node found there.  Paths are
    relative to the working directory and normalised (no empty, [.] or
    [..] component), as those of [main.py] are. *)
Abbreviation world := (gmap string node).

(** The directories a path goes through, outermost first:
    [cache] for [cache/data.json]. *)
Fixpoint ancestors_aux (seen rest : list ascii) : list string :=
  match rest with
  | [] => []
  | c :: rest' =>
      if Ascii.eqb c "/" then
        match seen with
        | [] => ancestors_aux (c :: seen) rest'
        | _ :: _ => string_of_list_ascii (rev seen) :: ancestors_aux (c :: seen) rest'
        end
      else ancestors_aux (c :: seen) rest'
  end.

Definition ancestors (p : string) : list string :=
  ancestors_aux [] (list_ascii_of_string p).

(** [str(e)] of an [OSError] raised for a path. *)
Definition errno_msg (errno : Z) (what p : string) : string :=
  "[Errno " +:+ pretty errno +:+ "] " +:+ what +:+ ": '" +:+ p +:+ "'".

Definition ENOENT (p : string) : exn :=
  Exn FileNotFoundError (errno_msg 2 "No such file or directory" p).
Definition EEXIST (p : string) : exn :=
  Exn FileExistsError (errno_msg 17 "File exists" p).
Definition ENOTDIR (p : string) : exn :=
  Exn NotADirectoryError (errno_msg 20 "Not a directory" p).
Definition EISDIR (p : string) : exn :=
  Exn IsADirectoryError (errno_msg 21 "Is a directory" p).

(** Walking to [p] through the directories [ds]: the error of the first
    of them that is missing or is not a directory. *)
Fixpoint walk_error (w : world) (p : string) (ds : list string) : option exn :=
  match ds with
  | [] => None
  | d :: ds' =>
      match w !! d with
      | Some (Node _ Dir) => walk_error w p ds'
      | Some (Node _ (Reg _)) => Some (ENOTDIR p)
      | None => Some (ENOENT p)
      end
  end.

Definition path_error (w : world) (p : string) : option exn :=
  walk_error w p (ancestors p).

(** What [os.stat] finds at [p]. *)
Definition stat (w : world) (p : string) : option node :=
  match path_error w p with
  | None => w !! p
  | Some _ => None
  end.

Inductive transport_error := ConnectFailed | TimedOut | OtherRequestError.

Definition transport_class (t : transport_error) : exn_class :=
  match t with
  | ConnectFailed => ConnectionError
  | TimedOut => Timeout
  | OtherRequestError => RequestException
  end.

Record response := Response {
  status_code : Z;
  reason : string;
  resp_url : string;
  text : string
}.

Inductive http_result :=
| HttpFails (t : transport_error) (msg : string)
| HttpResponds (r : response).

(** What the surroundings answer during one call of an exposed function:
    the clock, the response to the request, and whether a filesystem call
    fails for a reason of the operating system that the modelled
    filesystem does not show (permissions, a read-only or full disk).
    POSIX leaves open which error is reported when several apply; here
    such a reason, when there is one, is the error reported. *)
Record env := Env {
  clock : Q;                         (* time.time() *)
  makedirs_error : option string;    (* os.makedirs raising OSError *)
  open_read_error : option string;   (* open(.., 'r') raising OSError *)
  http : string -> http_result;      (* requests.get(url, timeout=30) *)
  open_write_error : option string;  (* open(.., 'w') raising OSError *)
  fs_clock : Q                       (* timestamp put on created or written nodes *)
}.

(** Observable actions, in the order performed. *)
Inductive event :=
| EvExists (p : string)
| EvMakedirs (p : string)
| EvGetmtime (p : string)
| EvRead (p : string)
| EvGet (url : string)
| EvWrite (p : string).

#[global] Instance event_eq_dec : EqDecision event.
Proof. solve_decision. Defined.

(** ** The monad of effectful Python code *)

Definition M (A : Type) : Type := env -> world -> outcome A * world * list event.

#[global] Instance M_ret : MRet M := fun A a _ w => (Ret a, w, []).

#[global] Instance M_bind : MBind M := fun A B f m e w =>
  match m e w with
  | (Ret a, w', t) => let '(r, w'', t') := f a e w' in (r, w'', t ++ t')
  | (Raise x, w', t) => (Raise x, w', t)
  end.

Definition raise_exn {A} (x : exn) : M A := fun _ w => (Raise x, w, []).

Definition raise {A} (c : exn_class) (msg : string) : M A := raise_exn (Exn c msg).

(** [try: body except C1, C2, .. as e: handler]. *)
Definition try_except {A} (body : M A) (catches : exn -> bool)
    (handler : exn -> M A) : M A :=
  fun e w =>
    match body e w with
    | (Raise x, w', t) =>
        if catches x then let '(r, w'', t') := handler x e w' in (r, w'', t ++ t')
        else (Raise x, w', t)
    | r => r
    end.

Definition emit (ev : event) : M unit := fun _ w => (Ret tt, w, [ev]).
Definition ask {A} (f : env -> A) : M A := fun e w => (Ret (f e), w, []).
Definition get_world : M world := fun _ w => (Ret w, w, []).
Definition put_world (w : world) : M unit := fun _ _ => (Ret tt, w, []).

(** *** Library calls *)

Definition os_path_exists (p : string) : M bool :=
  emit (EvExists p);;
  w ← get_world;
  mret (bool_decide (is_Some (stat w p))).

(** [os.mkdir] at time [t]. *)
Definition mkdir (t : Q) (p : string) (w : world) : world + exn :=
  match path_error w p with
  | Some x => inr x
  | None =>
      match w !! p with
      | Some _ => inr (EEXIST p)
      | None => inl (<[p := Node t Dir]> w)
      end
  end.

(** The directories on the way that [os.makedirs] creates before the
    last one: those that do not exist yet. *)
Fixpoint make_parents (t : Q) (ds : list string) (w : world) : world * option exn :=
  match ds with
  | [] => (w, None)
  | d :: ds' =>
      if bool_decide (is_Some (stat w d)) then make_parents t ds' w
      else
        match mkdir t d w with
        | inl w' => make_parents t ds' w'
        | inr x => (w, Some x)
        end
  end.

Definition os_makedirs (p : string) : M unit :=
  emit (EvMakedirs p);;
  err ← ask makedirs_error;
  match err with
  | Some msg => raise OSError msg
  | None =>
      t ← ask fs_clock;
      w ← get_world;
      let '(w1, failed) := make_parents t (ancestors p) w in
      put_world w1;;
      match failed with
      | Some x => raise_exn x
      | None =>
          match mkdir t p w1 with
          | inl w2 => put_world w2
          | inr x => raise_exn x
          end
      end
  end.

Definition time_time : M Q := ask clock.

Definition os_path_getmtime (p : string) : M Q :=
  emit (EvGetmtime p);;
  w ← get_world;
  match stat w p with
  | Some n => mret (mtime n)
  | None => raise_exn (default (ENOENT p) (path_error w p))
  end.

(** [open(p, 'r')] followed by reading the whole file as bytes. *)
Definition read_bytes (p : string) : M string :=
  emit (EvRead p);;
  err ← ask open_read_error;
  match err with
  | Some msg => raise OSError msg
  | None =>
      w ← get_world;
      match path_error w p with
      | Some x => raise_exn x
      | None =>
          match w !! p with
          | Some (Node _ (Reg c)) => mret c
          | Some (Node _ Dir) => raise_exn (EISDIR p)
          | None => raise_exn (ENOENT p)
          end
      end
  end.

(** [open(p, 'w')] followed by writing [c] and closing: the file is
    created or replaced.  A failure is one of opening the file. *)
Definition write_bytes (p : string) (c : string) : M unit :=
  emit (EvWrite p);;
  err ← ask open_write_error;
  match err with
  | Some msg => raise OSError msg
  | None =>
      w ← get_world;
      match path_error w p with
      | Some x => raise_exn x
      | None =>
          match w !! p with
          | Some (Node _ Dir) => raise_exn (EISDIR p)
          | _ => t ← ask fs_clock; put_world (<[p := Node t (Reg c)]> w)
          end
      end
  end.

Definition requests_get (url : string) : M response :=
  emit (EvGet url);;
  h ← ask http;
  match h url with
  | HttpFails t msg => raise (transport_class t) msg
  | HttpResponds r => mret r
  end.

(** [Response.raise_for_status()]. *)
Definition raise_for_status (r : response) : M unit :=
  let st := status_code r in
  if (400 <=? st) && (st <? 500) then
    raise HTTPError (pretty st +:+ " Client Error: " +:+ reason r
                       +:+ " for url: " +:+ resp_url r)
  else if (500 <=? st) && (st <? 600) then
    raise HTTPError (pretty st +:+ " Server Error: " +:+ reason r
                       +:+ " for url: " +:+ resp_url r)
  else mret tt.

(** ** main.py *)

Definition CACHE_DIR : string := "cache".
Definition CACHE_DURATION : Q := 3600.

Definition ensure_cache_dir : M unit :=
  ex ← os_path_exists CACHE_DIR;
  if negb ex then os_makedirs CACHE_DIR else mret tt.

(** [os.path.join] of two components (POSIX). *)
Definition os_path_join (a b : string) : string :=
  match b with
  | String "/" _ => b
  | _ =>
      if bool_decide (a = "") || String.eqb (substring (String.length a - 1) 1 a) "/"
      then a +:+ b
      else a +:+ "/" +:+ b
  end.

Definition get_cache_filename (feed_url : string) : string :=
  let url_hash := MD5.hexdigest (str_encode feed_url) in
  os_path_join CACHE_DIR ("earthquake_data_" +:+ url_hash +:+ ".json").

Definition Qltb (x y : Q) : bool := negb (Qle_bool y x).

Definition is_cache_valid (cache_file : string) : M bool :=
  ex ← os_path_exists cache_file;
  if negb ex then mret false
  else
    now ← time_time;
    m ← os_path_getmtime cache_file;
    let file_age := float_sub now m in
    mret (Qltb file_age CACHE_DURATION).

(** The feed catalog, in the order of the dictionary literal. *)
Definition feed_urls : list (string * string) :=
  [("significant_hour", "https://earthquake.usgs.gov/earthquakes/feed/v1.0/summary/significant_hour.geojson");
   ("significant_day", "https://earthquake.usgs.gov/earthquakes/feed/v1.0/summary/significant_day.geojson");
   ("significant_week", "https://earthquake.usgs.gov/earthquakes/feed/v1.0/summary/significant_week.geojson");
   ("significant_month", "https://earthquake.usgs.gov/earthquakes/feed/v1.0/summary/significant_month.geojson");
   ("4.5_hour", "https://earthquake.usgs.gov/earthquakes/feed/v1.0/summary/4.5_hour.geojson");
   ("4.5_day", "https://earthquake.usgs.gov/earthquakes/feed/v1.0/summary/4.5_day.geojson");
   ("4.5_week", "https://earthquake.usgs.gov/earthquakes/feed/v1.0/summary/4.5_week.geojson");
   ("4.5_month", "https://earthquake.usgs.gov/earthquakes/feed/v1.0/summary/4.5_month.geojson");
   ("2.5_hour", "https://earthquake.usgs.gov/earthquakes/feed/v1.0/summary/2.5_hour.geojson");
   ("2.5_day", "https://earthquake.usgs.gov/earthquakes/feed/v1.0/summary/2.5_day.geojson");
   ("2.5_week", "https://earthquake.usgs.gov/earthquakes/feed/v1.0/summary/2.5_week.geojson");
   ("2.5_month", "https://earthquake.usgs.gov/earthquakes/feed/v1.0/summary/2.5_month.geojson");
   ("1.0_hour", "https://earthquake.usgs.gov/earthquakes/feed/v1.0/summary/1.0_hour.geojson");
   ("1.0_day", "https://earthquake.usgs.gov/earthquakes/feed/v1.0/summary/1.0_day.geojson");
   ("1.0_week", "https://earthquake.usgs.gov/earthquakes/feed/v1.0/summary/1.0_week.geojson");
   ("1.0_month", "https://earthquake.usgs.gov/earthquakes/feed/v1.0/summary/1.0_month.geojson");
   ("all_hour", "https://earthquake.usgs.gov/earthquakes/feed/v1.0/summary/all_hour.geojson");
   ("all_day", "https://earthquake.usgs.gov/earthquakes/feed/v1.0/summary/all_day.geojson");
   ("all_week", "https://earthquake.usgs.gov/earthquakes/feed/v1.0/summary/all_week.geojson");
   ("all_month", "https://earthquake.usgs.gov/earthquakes/feed/v1.0/summary/all_month.geojson")].

(** [d[k]] on a dictionary literal; [None] when [k not in d]. *)
Fixpoint dict_get (k : string) (d : list (string * string)) : option string :=
  match d with
  | [] => None
  | (k', v) :: d' => if String.eqb k k' then Some v else dict_get k d'
  end.

Definition get_available_feeds : list string :=
  ["significant_hour"; "significant_day"; "significant_week"; "significant_month";
   "4.5_hour"; "4.5_day"; "4.5_week"; "4.5_month";
   "2.5_hour"; "2.5_day"; "2.5_week"; "2.5_month";
   "1.0_hour"; "1.0_day"; "1.0_week"; "1.0_month";
   "all_hour"; "all_day"; "all_week"; "all_month"].

Section Fetcher.

Context {F : Type}.

(** The text codec of [open(.., 'r')]: [None] is a [UnicodeDecodeError]. *)
Variable decode_text : string -> option string.
(** [json.loads]: the value, or [None] when it raises. *)
Variable loads : string -> option (json F).
(** What it raises then. *)
Variable loads_error : string -> parse_error.
(** [json.dumps] with its default options; the output is ASCII. *)
Variable dumps : json F -> string.
(** [json.dump] giving up on a value. *)
Variable dump_error : json F -> option dump_fault.

(** [json.loads(s)]. *)
Definition json_loads (s : string) (not_json : exn_class) : M (json F) :=
  match loads s with
  | Some v => mret v
  | None =>
      match loads_error s with
      | NotJson diagnostic => raise not_json diagnostic
      | ParseFault f msg => raise (fault_class f) msg
      end
  end.

(** [with open(p, 'r') as f: json.load(f)]. *)
Definition json_load (p : string) : M (json F) :=
  bytes ← read_bytes p;
  match decode_text bytes with
  | None => raise UnicodeDecodeError "codec can't decode byte"
  | Some s => json_loads s JSONDecodeError
  end.

(** [Response.json()]: requests 2.27 and later wrap the
    [JSONDecodeError] of the decoder, and nothing else. *)
Definition response_json (r : response) : M (json F) :=
  json_loads (text r) RequestsJSONDecodeError.

(** [with open(p, 'w') as f: json.dump(data, f)]: the file is opened,
    which empties it, and the text is written; when the serialiser gives
    up, the file is left with what was written until then. *)
Definition json_dump (data : json F) (p : string) : M unit :=
  match dump_error data with
  | None => write_bytes p (dumps data)
  | Some f =>
      write_bytes p (dump_written f);;
      raise (fault_class (dump_fault_kind f)) (dump_fault_msg f)
  end.

Definition error_result (msg : string) : json F :=
  JDict [("error", JStr msg)].

(** The exposed function; its parameter defaults to ["all_day"]. *)
Definition fetch_earthquake_data (feed_type : string) : M (json F) :=
  ensure_cache_dir;;
  match dict_get feed_type feed_urls with
  | None => mret (error_result ("Invalid feed type: " +:+ feed_type))
  | Some feed_url =>
      let cache_file := get_cache_filename feed_url in
      valid ← is_cache_valid cache_file;
      cached ←
        (if (valid : bool) then
           try_except
             (v ← json_load cache_file; mret (Some v))
             (fun e => isinstance e JSONDecodeError || isinstance e OSError)
             (fun _ => mret None)
         else mret None);
      match (cached : option (json F)) with
      | Some v => mret v
      | None =>
          try_except
            (response ← requests_get feed_url;
             raise_for_status response;;
             data ← response_json response;
             json_dump data cache_file;;
             mret data)
            (fun e => isinstance e RequestException)
            (fun e => mret (error_result
               ("Failed to fetch earthquake data: " +:+ str_exn e)))
      end
  end.

(** The two [try] statements of [fetch_earthquake_data] on their own, so
    that what each does can be stated separately; see
    [fetch_earthquake_data_blocks]. *)
Definition try_cached (cache_file : string) : M (option (json F)) :=
  try_except
    (v ← json_load cache_file; mret (Some v))
    (fun e => isinstance e JSONDecodeError || isinstance e OSError)
    (fun _ => mret None).

Definition try_fresh (feed_url cache_file : string) : M (json F) :=
  try_except
    (response ← requests_get feed_url;
     raise_for_status response;;
     data ← response_json response;
     json_dump data cache_file;;
     mret data)
    (fun e => isinstance e RequestException)
    (fun e => mret (error_result
       ("Failed to fetch earthquake data: " +:+ str_exn e))).

(** Successive calls of the exposed function, each in the filesystem the
    previous one left; with each outcome, what the call did. *)
Fixpoint calls (feed_type : string) (es : list env) (w : world)
    : list (outcome (json F) * list event) * world :=
  match es with
  | [] => ([], w)
  | e :: es' =>
      let '(r, w', t) := fetch_earthquake_data feed_type e w in
      let '(rs, w'') := calls feed_type es' w' in
      ((r, t) :: rs, w'')
  end.

(** *** What a statement may ask of the codec *)


End Fetcher.

Arguments get_cache_filename : simpl never.
Arguments dict_get : simpl never.

(** ** Vocabulary of the statements *)

Definition outcome_of {A} (r : outcome A * world * list event) : outcome A := r.1.1.
Definition world_of {A} (r : outcome A * world * list event) : world := r.1.2.
Definition trace_of {A} (r : outcome A * world * list event) : list event := r.2.

(** The largest exact age that the doubles still place below the cache
    duration: half a unit in the last place under 3600. *)
Definition TTL_EDGE : Q := (3600 - (1 # 2 ^ 42))%Q.

(** The node [n] is younger than the cache duration at the time of [e],
    by the subtraction that [is_cache_valid] performs. *)
Definition within_ttl (e : env) (n : node) : Prop :=
  (float_sub (clock e) (mtime n) < CACHE_DURATION)%Q.

(** The request for [url] times out, cannot connect, or is answered with a
    client or server error status. *)
Definition network_fails (e : env) (url : string) : Prop :=
  match http e url with
  | HttpFails _ _ => True
  | HttpResponds r => 400 <= status_code r < 600
  end.

(** [os.makedirs], if it is needed, does not fail. *)
Definition makedirs_ok (e : env) (w : world) : Prop :=
  is_Some (w !! CACHE_DIR) \/ makedirs_error e = None.

(** The name [cache] is free or is a directory: not a regular file. *)
Definition cache_dir_usable (w : world) : Prop :=
  forall t c, w !! CACHE_DIR <> Some (Node t (Reg c)).

(** Whether a path leads to a directory, to a regular file, or nowhere. *)
Definition is_dir (n : node) : bool :=
  match kind n with
  | Dir => true
  | Reg _ => false
  end.

Definition file_type (w : world) (p : string) : option bool := is_dir <$> (w !! p).

(** The error of [open(p, 'w')], when it fails. *)
Definition open_write_failure (e : env) (w : world) (p : string) : option exn :=
  match open_write_error e with
  | Some msg => Some (Exn OSError msg)
  | None =>
      match path_error w p with
      | Some x => Some x
      | None =>
          match w !! p with
          | Some (Node _ Dir) => Some (EISDIR p)
          | _ => None
          end
      end
  end.

(** [open(p, 'w')] does not fail. *)
Definition open_write_ok (e : env) (w : world) (p : string) : Prop :=
  open_write_failure e w p = None.

(** The filesystem after [ensure_cache_dir] went through. *)
Definition with_cache_dir (e : env) (w : world) : world :=
  if bool_decide (is_Some (w !! CACHE_DIR)) then w
  else <[CACHE_DIR := Node (fs_clock e) Dir]> w.

Definition ensure_cache_dir_trace (w : world) : list event :=
  if bool_decide (is_Some (w !! CACHE_DIR)) then [EvExists CACHE_DIR]
  else [EvExists CACHE_DIR; EvMakedirs CACHE_DIR].

(** What a call finds at [p] when it looks: [os.stat] in the filesystem
    as [ensure_cache_dir] leaves it.  Where the cache directory is there
    beforehand, this is [stat w p]. *)
Definition cache_stat (e : env) (w : world) (p : string) : option node :=
  stat (with_cache_dir e w) p.


(** What [is_cache_valid] does on the way to its answer. *)
Definition validity_trace (e : env) (w : world) (cache_file : string) : list event :=
  match cache_stat e w cache_file with
  | None => [EvExists cache_file]
  | Some _ => [EvExists cache_file; EvGetmtime cache_file]
  end.

(** No usable copy: no file at [p], or one that is not within its time to
    live at the time of [e]. *)
Definition cache_miss (e : env) (w : world) (p : string) : Prop :=
  forall n, cache_stat e w p = Some n -> ~ within_ttl e n.

(** The exceptions that pass the handlers of [fetch_earthquake_data]:
    those of the filesystem, of the text codec and of the JSON codec. *)
Definition escapes (x : exn) : Prop :=
  In (exn_cls x)
     [OSError; FileNotFoundError; NotADirectoryError; IsADirectoryError;
      UnicodeDecodeError; RecursionError; ValueError].

Definition is_request (ev : event) : bool :=
  match ev with
  | EvGet _ => true
  | _ => false
  end.

Definition is_write (ev : event) : bool :=
  match ev with
  | EvWrite _ => true
  | _ => false
  end.

(** How many requests, and how many file writes, a run performed. *)
Definition count_requests (t : list event) : nat := length (List.filter is_request t).
Definition count_writes (t : list event) : nat := length (List.filter is_write t).

(** The address every catalogued feed is served from. *)
Definition FEED_BASE : string :=
  "https://earthquake.usgs.gov/earthquakes/feed/v1.0/summary/".

(** Characters of the POSIX portable filename character set. *)
Definition portable_char (c : ascii) : bool :=
  let n := Z.of_N (N_of_ascii c) in
  ((48 <=? n) && (n <=? 57)) || ((97 <=? n) && (n <=? 122))
  || ((65 <=? n) && (n <=? 90)) || (n =? 46) || (n =? 95) || (n =? 45).

Definition is_lower_hex (c : ascii) : bool :=
  let n := Z.of_N (N_of_ascii c) in
  ((48 <=? n) && (n <=? 57)) || ((97 <=? n) && (n <=? 102)).

(** A relative path of one directory and one file name, both made of
    portable characters, the name at most 255 characters long. *)
Definition filesystem_safe (p : string) : Prop :=
  exists name : string,
    p = CACHE_DIR +:+ "/" +:+ name
    /\ forallb portable_char (list_ascii_of_string name) = true
    /\ (0 < String.length name <= 255)%nat.

(** ** A concrete codec: [json] in the float-free fragment

    [dumps] follows [json.dumps] with its defaults (separators [", "] and
    [": "], [ensure_ascii]) and [write_value] the chunks in which
    [json.dump] writes; [scan] follows the scanner of CPython 3.11, with
    the [JSONDecodeError] it reports and the position it reports it at;
    [decode_text] reads a file as [open(.., 'r')] does in a UTF-8 locale.
    The fragment is that of the values without floats whose strings hold
    code points below 256.  A document with a fraction or an exponent, with
    [NaN] or [Infinity], or with an escape for a code point from U+0100 on,
    and a file with the UTF-8 of such a code point, are outside of it:
    [loads] and [decode_text] answer [None] on them, which is not what
    Python answers.  The general statements below are about any codec;
    this one serves the runs on concrete inputs, all inside the
    fragment. *)

Module PyJson.

Definition value : Type := json Empty_set.

Definition dquote : ascii := "034"%char.
Definition backslash : ascii := "\"%char.
Definition code (c : ascii) : Z := Z.of_N (N_of_ascii c).
Definition chr (n : Z) : ascii := ascii_of_N (Z.to_N n).

(** *** Encoder *)

Definition escape_char (c : ascii) : list ascii :=
  if Ascii.eqb c dquote then [backslash; dquote]
  else if Ascii.eqb c backslash then [backslash; backslash]
  else if Ascii.eqb c "010" then [backslash; "n"%char]
  else if Ascii.eqb c "013" then [backslash; "r"%char]
  else if Ascii.eqb c "009" then [backslash; "t"%char]
  else if Ascii.eqb c "008" then [backslash; "b"%char]
  else if Ascii.eqb c "012" then [backslash; "f"%char]
  else if (code c <? 32) || (126 <? code c) then
    [backslash; "u"%char; "0"%char; "0"%char;
     MD5.hex_digit (Z.shiftr (code c) 4); MD5.hex_digit (code c)]
  else [c].

Definition encode_str (s : string) : list ascii :=
  dquote :: concat (map escape_char (list_ascii_of_string s)) ++ [dquote].

Fixpoint uint_chars (u : Decimal.uint) : list ascii :=
  match u with
  | Decimal.Nil => []
  | Decimal.D0 u' => "0"%char :: uint_chars u'
  | Decimal.D1 u' => "1"%char :: uint_chars u'
  | Decimal.D2 u' => "2"%char :: uint_chars u'
  | Decimal.D3 u' => "3"%char :: uint_chars u'
  | Decimal.D4 u' => "4"%char :: uint_chars u'
  | Decimal.D5 u' => "5"%char :: uint_chars u'
  | Decimal.D6 u' => "6"%char :: uint_chars u'
  | Decimal.D7 u' => "7"%char :: uint_chars u'
  | Decimal.D8 u' => "8"%char :: uint_chars u'
  | Decimal.D9 u' => "9"%char :: uint_chars u'
  end.

Definition encode_int (z : Z) : list ascii :=
  if z <? 0 then "-"%char :: uint_chars (N.to_uint (Z.to_N (- z)))
  else uint_chars (N.to_uint (Z.to_N z)).

(** [", ".join]. *)
Fixpoint join_items (items : list (list ascii)) : list ascii :=
  match items with
  | [] => []
  | [x] => x
  | x :: rest => x ++ [","%char; " "%char] ++ join_items rest
  end.

Fixpoint encode_value (v : value) : list ascii :=
  match v with
  | JNull => list_ascii_of_string "null"
  | JBool true => list_ascii_of_string "true"
  | JBool false => list_ascii_of_string "false"
  | JInt z => encode_int z
  | JFloat f => match f with end
  | JStr s => encode_str s
  | JList l => "["%char :: join_items (map encode_value l) ++ ["]"%char]
  | JDict kv =>
      "{"%char ::
        join_items (map (fun '(k, x) => encode_str k ++ [":"%char; " "%char] ++ encode_value x) kv)
        ++ ["}"%char]
  end.

Definition dumps (v : value) : string := string_of_list_ascii (encode_value v).

(** *** The limits of the interpreter

    The digit limit is the default of [sys.set_int_max_str_digits].  The
    two depths are what the default recursion limit of 1000 leaves to a
    caller at the top level of a script; a caller deeper in the stack
    has that much less. *)

Definition int_max_str_digits : nat := 4300.
Definition loads_depth : nat := 995.
Definition dump_depth : nat := 996.

Definition int_fault_msg_dump : string :=
  "Exceeds the limit (4300 digits) for integer string conversion; use sys.set_int_max_str_digits() to increase the limit".

Definition int_fault_msg_loads (digits : nat) : string :=
  "Exceeds the limit (4300 digits) for integer string conversion: value has "
    +:+ pretty (Z.of_nat digits)
    +:+ " digits; use sys.set_int_max_str_digits() to increase the limit".

Definition depth_fault_msg_dump : string :=
  "maximum recursion depth exceeded while calling a Python object".

Definition depth_fault_msg_loads (what : string) : string :=
  "maximum recursion depth exceeded while decoding a JSON " +:+ what
    +:+ " from a unicode string".

(** *** [json.dump], chunk by chunk

    The text written before the serialiser gives up.  A chunk is written
    whole or not at all: in a list, the bracket or the separator goes in
    one chunk with a scalar that follows it. *)

Inductive wresult :=
| Written (s : list ascii)
| GaveUp (s : list ascii) (f : codec_fault).

Definition wseq (r : wresult) (k : wresult) : wresult :=
  match r with
  | Written s =>
      match k with
      | Written s' => Written (s ++ s')
      | GaveUp s' f => GaveUp (s ++ s') f
      end
  | GaveUp s f => GaveUp s f
  end.

Definition is_container (v : value) : bool :=
  match v with
  | JList _ | JDict _ => true
  | _ => false
  end.

(** The chunk of a scalar after [buf]. *)
Definition write_scalar (buf : list ascii) (v : value) : wresult :=
  match v with
  | JInt z =>
      if (int_max_str_digits <? length (encode_int (Z.abs z)))%nat
      then GaveUp [] IntDigitsLimit
      else Written (buf ++ encode_int z)
  | _ => Written (buf ++ encode_value v)
  end.

Definition separator : list ascii := [","%char; " "%char].

Fixpoint write_value (budget : nat) (v : value) {struct v} : wresult :=
  match v with
  | JList [] => Written ["["%char; "]"%char]
  | JList l =>
      match budget with
      | O => GaveUp [] RecursionLimit
      | S budget' =>
          (fix items (buf : list ascii) (l : list value) {struct l} : wresult :=
             match l with
             | [] => Written ["]"%char]
             | x :: rest =>
                 wseq (if is_container x
                       then wseq (Written buf) (write_value budget' x)
                       else write_scalar buf x)
                      (items separator rest)
             end) ["["%char] l
      end
  | JDict [] => Written ["{"%char; "}"%char]
  | JDict kv =>
      match budget with
      | O => GaveUp [] RecursionLimit
      | S budget' =>
          wseq (Written ["{"%char])
            ((fix members (first : bool) (kv : list (string * value)) {struct kv}
                : wresult :=
                match kv with
                | [] => Written ["}"%char]
                | (k, x) :: rest =>
                    wseq (Written ((if first then [] else separator)
                                     ++ encode_str k ++ [":"%char; " "%char]))
                      (wseq (if is_container x then write_value budget' x
                             else write_scalar [] x)
                            (members false rest))
                end) true kv)
      end
  | _ => write_scalar [] v
  end.

(** The two loops of [write_value], by name. *)
Definition write_items (budget : nat) : list ascii -> list value -> wresult :=
  fix items (buf : list ascii) (l : list value) {struct l} : wresult :=
    match l with
    | [] => Written ["]"%char]
    | x :: rest =>
        wseq (if is_container x
              then wseq (Written buf) (write_value budget x)
              else write_scalar buf x)
             (items separator rest)
    end.

Definition write_members (budget : nat) : bool -> list (string * value) -> wresult :=
  fix members (first : bool) (kv : list (string * value)) {struct kv} : wresult :=
    match kv with
    | [] => Written ["}"%char]
    | (k, x) :: rest =>
        wseq (Written ((if first then [] else separator)
                         ++ encode_str k ++ [":"%char; " "%char]))
          (wseq (if is_container x then write_value budget x
                 else write_scalar [] x)
                (members false rest))
    end.

Definition dump_error (v : value) : option dump_fault :=
  match write_value dump_depth v with
  | Written _ => None
  | GaveUp s f =>
      Some (DumpFault f
              (match f with
               | RecursionLimit => depth_fault_msg_dump
               | IntDigitsLimit => int_fault_msg_dump
               end)
              (string_of_list_ascii s))
  end.

(** *** Decoder: the scanner of CPython *)

(** A value and the text after it; a [JSONDecodeError] with the text from
    the reported position on; a fault; or a document that leaves the
    fragment. *)
Inductive presult (A : Type) : Type :=
| POk (a : A) (rest : list ascii)
| PErr (msg : string) (rest : list ascii)
| PFault (f : codec_fault) (msg : string)
| POutside.

Arguments POk {A} a rest.
Arguments PErr {A} msg rest.
Arguments PFault {A} f msg.
Arguments POutside {A}.

Definition pmap {A B} (f : A -> B) (r : presult A) : presult B :=
  match r with
  | POk a rest => POk (f a) rest
  | PErr msg rest => PErr msg rest
  | PFault f' msg => PFault f' msg
  | POutside => POutside
  end.

Definition is_ws (c : ascii) : bool :=
  Ascii.eqb c " " || Ascii.eqb c "009" || Ascii.eqb c "010" || Ascii.eqb c "013".

Fixpoint skip_ws (s : list ascii) : list ascii :=
  match s with
  | c :: r => if is_ws c then skip_ws r else s
  | [] => []
  end.

Definition hex_val (c : ascii) : option Z :=
  let n := code c in
  if (48 <=? n) && (n <=? 57) then Some (n - 48)
  else if (97 <=? n) && (n <=? 102) then Some (n - 87)
  else if (65 <=? n) && (n <=? 70) then Some (n - 55)
  else None.

Definition unescape (c : ascii) : option ascii :=
  if Ascii.eqb c dquote then Some dquote
  else if Ascii.eqb c backslash then Some backslash
  else if Ascii.eqb c "/" then Some "/"%char
  else if Ascii.eqb c "n" then Some "010"%char
  else if Ascii.eqb c "r" then Some "013"%char
  else if Ascii.eqb c "t" then Some "009"%char
  else if Ascii.eqb c "b" then Some "008"%char
  else if Ascii.eqb c "f" then Some "012"%char
  else None.

Definition hex4 (h1 h2 h3 h4 : ascii) : option Z :=
  a ← hex_val h1; b ← hex_val h2; c ← hex_val h3; d ← hex_val h4;
  Some (((a * 16 + b) * 16 + c) * 16 + d).

(** The characters of a string literal, after its opening quote;
    [opening] is the text from that quote on. *)
Fixpoint parse_chars (opening s : list ascii) : presult (list ascii) :=
  match s with
  | [] => PErr "Unterminated string starting at" opening
  | c :: r =>
      if Ascii.eqb c dquote then POk [] r
      else if Ascii.eqb c backslash then
        match r with
        | [] => PErr "Unterminated string starting at" opening
        | e :: r' =>
            if Ascii.eqb e "u" then
              match r' with
              | h1 :: h2 :: h3 :: h4 :: ((_ :: _) as r'') =>
                  match hex4 h1 h2 h3 h4 with
                  | Some n =>
                      if n <? 256 then pmap (cons (chr n)) (parse_chars opening r'')
                      else POutside
                  | None => PErr "Invalid \uXXXX escape" r
                  end
              | _ => PErr "Invalid \uXXXX escape" r
              end
            else
              match unescape e with
              | Some c' => pmap (cons c') (parse_chars opening r')
              | None => PErr "Invalid \escape" s
              end
        end
      else if code c <? 32 then PErr "Invalid control character at" s
      else pmap (cons c) (parse_chars opening r)
  end.

Definition digit_of (c : ascii) : option (Decimal.uint -> Decimal.uint) :=
  if Ascii.eqb c "0" then Some Decimal.D0
  else if Ascii.eqb c "1" then Some Decimal.D1
  else if Ascii.eqb c "2" then Some Decimal.D2
  else if Ascii.eqb c "3" then Some Decimal.D3
  else if Ascii.eqb c "4" then Some Decimal.D4
  else if Ascii.eqb c "5" then Some Decimal.D5
  else if Ascii.eqb c "6" then Some Decimal.D6
  else if Ascii.eqb c "7" then Some Decimal.D7
  else if Ascii.eqb c "8" then Some Decimal.D8
  else if Ascii.eqb c "9" then Some Decimal.D9
  else None.

(** The longest run of digits at the head of [s]. *)
Fixpoint scan_digits (s : list ascii) : Decimal.uint * list ascii :=
  match s with
  | [] => (Decimal.Nil, [])
  | c :: r =>
      match digit_of c with
      | Some d => let '(u, rest) := scan_digits r in (d u, rest)
      | None => (Decimal.Nil, s)
      end
  end.

Definition is_digit (c : ascii) : bool := (48 <=? code c) && (code c <=? 57).

(** A fraction or an exponent follows the integer part. *)
Definition starts_float_part (s : list ascii) : bool :=
  match s with
  | c :: d :: r =>
      (Ascii.eqb c "." && is_digit d)
      || ((Ascii.eqb c "e" || Ascii.eqb c "E")
          && (is_digit d
              || ((Ascii.eqb d "+" || Ascii.eqb d "-")
                  && match r with
                     | d' :: _ => is_digit d'
                     | [] => false
                     end)))
  | _ => false
  end.

(** The integer part of a number, [start] being the text from its sign
    on: [0], or a run of digits without leading zero. *)
Definition parse_nat (start s : list ascii) : presult N :=
  let '(u, rest) := scan_digits s in
  match u with
  | Decimal.Nil => PErr "Expecting value" start
  | _ =>
      if Decimal.uint_beq (Decimal.unorm u) u then
        if starts_float_part rest then POutside
        else if (int_max_str_digits <? Decimal.nb_digits u)%nat
        then PFault IntDigitsLimit (int_fault_msg_loads (Decimal.nb_digits u))
        else POk (N.of_uint u) rest
      else if starts_float_part (tl s) then POutside
      else POk 0%N (tl s)
  end.

Definition parse_int (s : list ascii) : presult value :=
  match s with
  | c :: r =>
      if Ascii.eqb c "-" then pmap (fun n => JInt (- Z.of_N n)) (parse_nat s r)
      else pmap (fun n => JInt (Z.of_N n)) (parse_nat s s)
  | [] => PErr "Expecting value" []
  end.

Fixpoint strip_prefix (p s : list ascii) : option (list ascii) :=
  match p, s with
  | [], _ => Some s
  | a :: p', b :: s' => if Ascii.eqb a b then strip_prefix p' s' else None
  | _ :: _, [] => None
  end.

(** [d[k] = v] on an insertion-ordered dictionary. *)
Fixpoint dict_set (k : string) (v : value) (d : list (string * value))
    : list (string * value) :=
  match d with
  | [] => [(k, v)]
  | (k', v') :: d' =>
      if String.eqb k k' then (k', v) :: d' else (k', v') :: dict_set k v d'
  end.

Definition dict_of_pairs (pairs : list (string * value)) : list (string * value) :=
  fold_left (fun d '(k, v) => dict_set k v d) pairs [].

Definition is_prefix (p : string) (s : list ascii) : bool :=
  match strip_prefix (list_ascii_of_string p) s with
  | Some _ => true
  | None => false
  end.

Fixpoint parse_value (fuel depth : nat) (s : list ascii) {struct fuel}
    : presult value :=
  match fuel with
  | O => POutside
  | S fuel' =>
      match skip_ws s with
      | [] => PErr "Expecting value" []
      | c :: r =>
          if Ascii.eqb c dquote then
            pmap (fun cs => JStr (string_of_list_ascii cs)) (parse_chars (c :: r) r)
          else if Ascii.eqb c "[" then
            match depth with
            | O => PFault RecursionLimit (depth_fault_msg_loads "array")
            | S depth' =>
                match skip_ws r with
                | c' :: r' =>
                    if Ascii.eqb c' "]" then POk (JList []) r'
                    else pmap JList (parse_elements fuel' depth' (c' :: r'))
                | [] => PErr "Expecting value" []
                end
            end
          else if Ascii.eqb c "{" then
            match depth with
            | O => PFault RecursionLimit (depth_fault_msg_loads "object")
            | S depth' =>
                match skip_ws r with
                | c' :: r' =>
                    if Ascii.eqb c' "}" then POk (JDict []) r'
                    else pmap (fun kvs => JDict (dict_of_pairs kvs))
                           (parse_members fuel' depth' (c' :: r'))
                | [] => PErr "Expecting property name enclosed in double quotes" []
                end
            end
          else if Ascii.eqb c "n" then
            match strip_prefix (list_ascii_of_string "ull") r with
            | Some rest => POk JNull rest
            | None => PErr "Expecting value" (c :: r)
            end
          else if Ascii.eqb c "t" then
            match strip_prefix (list_ascii_of_string "rue") r with
            | Some rest => POk (JBool true) rest
            | None => PErr "Expecting value" (c :: r)
            end
          else if Ascii.eqb c "f" then
            match strip_prefix (list_ascii_of_string "alse") r with
            | Some rest => POk (JBool false) rest
            | None => PErr "Expecting value" (c :: r)
            end
          else if Ascii.eqb c "N" then
            if is_prefix "aN" r then POutside else PErr "Expecting value" (c :: r)
          else if Ascii.eqb c "I" then
            if is_prefix "nfinity" r then POutside else PErr "Expecting value" (c :: r)
          else if Ascii.eqb c "-" && is_prefix "Infinity" r then POutside
          else parse_int (c :: r)
      end
  end
with parse_elements (fuel depth : nat) (s : list ascii) {struct fuel}
    : presult (list value) :=
  match fuel with
  | O => POutside
  | S fuel' =>
      match parse_value fuel' depth s with
      | POk v r =>
          match skip_ws r with
          | c :: r' =>
              if Ascii.eqb c "," then pmap (cons v) (parse_elements fuel' depth r')
              else if Ascii.eqb c "]" then POk [v] r'
              else PErr "Expecting ',' delimiter" (c :: r')
          | [] => PErr "Expecting ',' delimiter" []
          end
      | PErr msg rest => PErr msg rest
      | PFault f msg => PFault f msg
      | POutside => POutside
      end
  end
with parse_members (fuel depth : nat) (s : list ascii) {struct fuel}
    : presult (list (string * value)) :=
  match fuel with
  | O => POutside
  | S fuel' =>
      match skip_ws s with
      | q :: r0 =>
          if Ascii.eqb q dquote then
            match parse_chars (q :: r0) r0 with
            | POk k r1 =>
                match skip_ws r1 with
                | colon :: r2 =>
                    if Ascii.eqb colon ":" then
                      match parse_value fuel' depth r2 with
                      | POk v r3 =>
                          match skip_ws r3 with
                          | c :: r4 =>
                              if Ascii.eqb c "," then
                                pmap (cons (string_of_list_ascii k, v))
                                  (parse_members fuel' depth r4)
                              else if Ascii.eqb c "}" then
                                POk [(string_of_list_ascii k, v)] r4
                              else PErr "Expecting ',' delimiter" (c :: r4)
                          | [] => PErr "Expecting ',' delimiter" []
                          end
                      | PErr msg rest => PErr msg rest
                      | PFault f msg => PFault f msg
                      | POutside => POutside
                      end
                    else PErr "Expecting ':' delimiter" (colon :: r2)
                | [] => PErr "Expecting ':' delimiter" []
                end
            | PErr msg rest => PErr msg rest
            | PFault f msg => PFault f msg
            | POutside => POutside
            end
          else PErr "Expecting property name enclosed in double quotes" (q :: r0)
      | [] => PErr "Expecting property name enclosed in double quotes" []
      end
  end.

(** [JSONDecoder.decode]: one value, then nothing but whitespace. *)
Definition scan (s : string) : presult value :=
  let cs := list_ascii_of_string s in
  match parse_value (S (S (2 * length cs))) loads_depth cs with
  | POk v rest =>
      match skip_ws rest with
      | [] => POk v []
      | c :: r => PErr "Extra data" (c :: r)
      end
  | other => other
  end.

Definition loads (s : string) : option value :=
  match scan s with
  | POk v _ => Some v
  | _ => None
  end.

(** [str(e)] of a [JSONDecodeError] at the position where [rest]
    starts: the message, the line, the column and the index. *)
Definition json_error_text (msg : string) (doc rest : list ascii) : string :=
  let pos := (length doc - length rest)%nat in
  let before := firstn pos doc in
  let lineno := S (length (List.filter (Ascii.eqb "010") before)) in
  let colno :=
    S (fold_left (fun col c => if Ascii.eqb c "010" then O else S col) before O) in
  msg +:+ ": line " +:+ pretty (Z.of_nat lineno)
      +:+ " column " +:+ pretty (Z.of_nat colno)
      +:+ " (char " +:+ pretty (Z.of_nat pos) +:+ ")".

Definition loads_error (s : string) : parse_error :=
  match scan s with
  | PErr msg rest => NotJson (json_error_text msg (list_ascii_of_string s) rest)
  | PFault f msg => ParseFault f msg
  | _ => NotJson "document outside the fragment"
  end.

(** *** The text codec of [open(.., 'r')]: UTF-8, universal newlines *)

Fixpoint utf8_decode (bytes : list ascii) : option (list ascii) :=
  match bytes with
  | [] => Some []
  | b :: r =>
      if code b <? 128 then cons b <$> utf8_decode r
      else if (code b =? 194) || (code b =? 195) then
        match r with
        | b' :: r' =>
            if (128 <=? code b') && (code b' <? 192)
            then cons (chr ((code b - 192) * 64 + (code b' - 128))) <$> utf8_decode r'
            else None
        | [] => None
        end
      else None
  end.

Fixpoint universal_newlines (cs : list ascii) : list ascii :=
  match cs with
  | [] => []
  | c :: r =>
      if Ascii.eqb c "013" then
        "010"%char ::
          match r with
          | c' :: r' => if Ascii.eqb c' "010" then universal_newlines r'
                        else universal_newlines r
          | [] => []
          end
      else c :: universal_newlines r
  end.

Definition decode_text (bytes : string) : option string :=
  cs ← utf8_decode (list_ascii_of_string bytes);
  Some (string_of_list_ascii (universal_newlines cs)).

(** *** Values that the decoder returns *)

(** Characters that [decode_text] leaves as they are. *)
Definition is_plain (c : ascii) : bool :=
  (code c <? 128) && negb (Ascii.eqb c "013").

(** How deep the lists and dictionaries of a value are nested. *)
Fixpoint nesting (v : value) : nat :=
  match v with
  | JList l => S (list_max (map nesting l))
  | JDict kv => S (list_max (map (fun p => nesting (snd p)) kv))
  | _ => O
  end.

(** A value as the decoder builds it: every dictionary has distinct
    keys and every integer is within the digit limit. *)
Fixpoint well_formed (v : value) : bool :=
  match v with
  | JInt z => (Decimal.nb_digits (N.to_uint (Z.to_N (Z.abs z))) <=? int_max_str_digits)%nat
  | JList l => forallb well_formed l
  | JDict kv =>
      bool_decide (NoDup (map fst kv))
      && forallb (fun p => well_formed (snd p)) kv
  | _ => true
  end.

(** A value that the decoder may hand on from depth [depth]. *)
Definition sound (depth : nat) (v : value) : Prop :=
  well_formed v = true /\ (nesting v <= depth)%nat.

(** What may follow a value inside a document: nothing, or one of the
    characters that close or separate. *)
Definition delimited (rest : list ascii) : Prop :=
  match rest with
  | [] => True
  | c :: _ => c = ","%char \/ c = "]"%char \/ c = "}"%char
  end.

(** A value is read back from its place in a document: [parse_value],
    with fuel above the length of the encoding and depth for its
    nesting, returns the value and the text that follows it. *)
Definition reads_back (v : value) : Prop :=
  well_formed v = true ->
  forall fuel depth rest,
    delimited rest ->
    (length (encode_value v) < fuel)%nat ->
    (nesting v <= depth)%nat ->
    parse_value fuel depth (encode_value v ++ rest) = POk v rest.

End PyJson.

(** ** Sample surroundings, for the concrete runs *)

Module Sample.

Definition q : string := String PyJson.dquote "".

(** A compact document, as the provider sends it:
    an object with the members type and features. *)
Definition body : string :=
  "{" +:+ q +:+ "type" +:+ q +:+ ":" +:+ q +:+ "FeatureCollection" +:+ q +:+ ","
      +:+ q +:+ "features" +:+ q +:+ ":[]}".

Definition feature_collection : PyJson.value :=
  JDict [("type", JStr "FeatureCollection"); ("features", JList [])].

(** The same document as [json.dump] writes it. *)
Definition dumped : string :=
  "{" +:+ q +:+ "type" +:+ q +:+ ": " +:+ q +:+ "FeatureCollection" +:+ q +:+ ", "
      +:+ q +:+ "features" +:+ q +:+ ": []}".

Definition usgs_up (url : string) : http_result :=
  HttpResponds (Response 200 "OK" url body).

Definition usgs_times_out (url : string) : http_result :=
  HttpFails TimedOut "Read timed out.".

(** A provider that answers with a page that is not JSON. *)
Definition usgs_sends_html (url : string) : http_result :=
  HttpResponds (Response 200 "OK" url "<html>").

(** A provider that answers with a document of a thousand nested
    arrays, beyond the recursion limit of the decoder. *)
Definition deep_body : string :=
  string_of_list_ascii (repeat "["%char 1000 ++ repeat "]"%char 1000).

Definition usgs_sends_deep (url : string) : http_result :=
  HttpResponds (Response 200 "OK" url deep_body).

(** Surroundings in which no filesystem call fails. *)
Definition at_time (now : Q) (h : string -> http_result) : env :=
  Env now None None h None now.

Definition read_only_disk (now : Q) (h : string -> http_result) : env :=
  Env now (Some "Read-only file system") None h (Some "Read-only file system") now.


Definition py_fetch : string -> M PyJson.value :=
  fetch_earthquake_data PyJson.decode_text PyJson.loads PyJson.loads_error
    PyJson.dumps PyJson.dump_error.

Definition all_day_url : string :=
  "https://earthquake.usgs.gov/earthquakes/feed/v1.0/summary/all_day.geojson".

Definition all_day_cache : string :=
  "cache/earthquake_data_9e9def737e1c7807fa8f69ca791b153e.json".

(** A cache directory holding one file for the all_day feed. *)
Definition disk_with (t : Q) (content : string) : world :=
  <[all_day_cache := Node t (Reg content)]> {[CACHE_DIR := Node 0 Dir]}.

(** The sample disk with a file of somebody else beside the cache. *)
Definition disk_with_notes : world :=
  <["notes.txt" := Node 7 (Reg "remember")]> (disk_with 0 dumped).

(** A disk on which the name of the cache directory is taken by a
    regular file. *)
Definition cache_is_a_file : world := {[CACHE_DIR := Node 0 (Reg "")]}.

(** A file that is not text: the single byte 0xFF. *)
Definition garbage : string := String "255" "".

(** Two doubles, 5629.817077201 and 2029.817077201 as [float] reads
    them: their exact difference is half a unit in the last place below
    3600, and the subtraction of doubles rounds it to 3600. *)
Definition late : Q := 3095024669317197 # 549755813888.
Definition early : Q := 8927229914563177 # 4398046511104.

End Sample.
(** * Properties *)

(** ** The digest and the cache path *)

Example md5_empty : MD5.hexdigest (str_encode "") = "d41d8cd98f00b204e9800998ecf8427e"%string.
Proof. vm_compute. reflexivity. Qed.
Example md5_abc : MD5.hexdigest (str_encode "abc") = "900150983cd24fb0d6963f7d28e17f72"%string.
Proof. vm_compute. reflexivity. Qed.
Example md5_two_blocks :
  MD5.hexdigest (str_encode "12345678901234567890123456789012345678901234567890123456789012345678901234567890")
  = "57edf4a22be3c955ac49da2e2107b67a"%string.
Proof. vm_compute. reflexivity. Qed.
Example md5_all_day :
  MD5.hexdigest (str_encode "https://earthquake.usgs.gov/earthquakes/feed/v1.0/summary/all_day.geojson")
  = "9e9def737e1c7807fa8f69ca791b153e"%string.
Proof. vm_compute. reflexivity. Qed.

Lemma hex_digit_lower (n : Z) : is_lower_hex (MD5.hex_digit n) = true.
Proof.
  unfold MD5.hex_digit.
  assert (H : (Z.to_nat (Z.land n 0xf) < 16)%nat).
  { change 0xf with (Z.ones 4). rewrite Z.land_ones by lia.
    pose proof (Z.mod_pos_bound n (2 ^ 4) ltac:(lia)). lia. }
  revert H. generalize (Z.to_nat (Z.land n 0xf)). intros k Hk.
  do 16 (destruct k as [|k]; [reflexivity|]). lia.
Qed.

Lemma hexdigest_lower_hex (msg : list Z) :
  forallb is_lower_hex (list_ascii_of_string (MD5.hexdigest msg)) = true
  /\ String.length (MD5.hexdigest msg) = 32%nat.
Proof.
  unfold MD5.hexdigest, MD5.digest.
  destruct (MD5.md5 msg) as [a b c d]. cbn [MD5.rA MD5.rB MD5.rC MD5.rD].
  rewrite list_ascii_of_string_of_list_ascii.
  cbn [MD5.le_bytes app map concat MD5.hex_byte forallb].
  rewrite !hex_digit_lower. split; [reflexivity|].
  cbn. reflexivity.
Qed.

Lemma lower_hex_portable (c : ascii) : is_lower_hex c = true -> portable_char c = true.
Proof.
  unfold is_lower_hex, portable_char. generalize (Z.of_N (N_of_ascii c)). intros n H.
  repeat match goal with
         | |- context [(?a <=? ?b)] => destruct (Z.leb_spec a b)
         | |- context [(?a =? ?b)] => destruct (Z.eqb_spec a b)
         | H : context [(?a <=? ?b)] |- _ => destruct (Z.leb_spec a b)
         end; cbn in *; try reflexivity; try discriminate; lia.
Qed.

Lemma get_cache_filename_eq (feed_url : string) :
  get_cache_filename feed_url
  = "cache/earthquake_data_" +:+ MD5.hexdigest (str_encode feed_url) +:+ ".json".
Proof. reflexivity. Qed.

Lemma cache_file_not_cache_dir (feed_url : string) :
  get_cache_filename feed_url <> CACHE_DIR.
Proof. rewrite get_cache_filename_eq. discriminate. Qed.

Lemma list_ascii_of_string_app (s1 s2 : string) :
  list_ascii_of_string (s1 +:+ s2) = list_ascii_of_string s1 ++ list_ascii_of_string s2.
Proof.
  induction s1 as [|c s1 IH]; [reflexivity|].
  change (String c s1 +:+ s2) with (String c (s1 +:+ s2)).
  cbn [list_ascii_of_string]. rewrite IH. reflexivity.
Qed.

Lemma string_length_app (s1 s2 : string) :
  String.length (s1 +:+ s2) = (String.length s1 + String.length s2)%nat.
Proof.
  induction s1 as [|c s1 IH]; [reflexivity|].
  change (String c s1 +:+ s2) with (String c (s1 +:+ s2)).
  cbn [String.length]. rewrite IH. reflexivity.
Qed.

Lemma forallb_impl {A} (f g : A -> bool) (l : list A) :
  (forall x, f x = true -> g x = true) -> forallb f l = true -> forallb g l = true.
Proof.
  intros Himp. induction l as [|x l IH]; cbn; [reflexivity|].
  intros H. apply andb_true_iff in H as [Hx Hl]. rewrite (Himp _ Hx), (IH Hl). reflexivity.
Qed.

(** ** The catalog *)

Lemma dict_get_In (k v : string) (d : list (string * string)) :
  dict_get k d = Some v -> In (k, v) d.
Proof.
  induction d as [|[k' v'] d IH]; unfold dict_get; fold dict_get; [discriminate|].
  destruct (String.eqb_spec k k') as [->|Hne].
  - intros [= ->]. left. reflexivity.
  - intros H. right. exact (IH H).
Qed.

Lemma NoDup_map_injective_on {A B} (f : A -> B) (l : list A) :
  NoDup (map f l) -> forall x y, In x l -> In y l -> f x = f y -> x = y.
Proof.
  induction l as [|a l IH]; cbn; [intros _ x y []|].
  intros Hnd x y Hx Hy Heq. apply NoDup_cons in Hnd as [Hnot Hnd].
  destruct Hx as [<- | Hx], Hy as [<- | Hy]; [reflexivity | | | eauto].
  - exfalso. apply Hnot. rewrite Heq. apply list_elem_of_In, in_map, Hy.
  - exfalso. apply Hnot. rewrite <- Heq. apply list_elem_of_In, in_map, Hx.
Qed.

Lemma catalog_urls_distinct : NoDup (map snd feed_urls).
Proof. apply (bool_decide_unpack _). vm_compute. reflexivity. Qed.

Lemma catalog_cache_paths_distinct :
  NoDup (map (fun kv => get_cache_filename (snd kv)) feed_urls).
Proof. apply (bool_decide_unpack _). vm_compute. reflexivity. Qed.

(** ** Doubles *)

Lemma pow2_pos (k : Z) : (0 < pow2 k)%Q.
Proof. apply Qpower_0_lt. reflexivity. Qed.

Lemma pow2_add (a b : Z) : (pow2 (a + b) == pow2 a * pow2 b)%Q.
Proof. apply Qpower_plus. discriminate. Qed.

Lemma pow2_le (a b : Z) : a <= b -> (pow2 a <= pow2 b)%Q.
Proof. intros H. apply Qpower_le_compat_l; [exact H | discriminate]. Qed.

Lemma pow2_lt (a b : Z) : a < b -> (pow2 a < pow2 b)%Q.
Proof. intros H. apply Qpower_lt_compat_l; [exact H | reflexivity]. Qed.

Lemma pow2_Z (k : Z) : 0 <= k -> (pow2 k == inject_Z (2 ^ k))%Q.
Proof. intros H. unfold pow2. rewrite Zpower_Qpower by exact H. reflexivity. Qed.

Lemma inject_Z_minus (a b : Z) : inject_Z (a - b) = (inject_Z a - inject_Z b)%Q.
Proof. unfold Z.sub, Qminus. rewrite inject_Z_plus, inject_Z_opp. reflexivity. Qed.

Lemma Q_as_quotient (x : Q) : (x * inject_Z (Zpos (Qden x)) == inject_Z (Qnum x))%Q.
Proof.
  destruct x as [n d]. unfold Qeq, Qmult, inject_Z. cbn. lia.
Qed.

Lemma ilog2_spec (x : Q) :
  (0 < x)%Q -> (pow2 (ilog2 x) <= x /\ x < pow2 (ilog2 x + 1))%Q.
Proof.
  intros Hx. unfold ilog2.
  set (n := Qnum x). set (d := Zpos (Qden x)).
  assert (Hn : 0 < n). { destruct x as [n' d']. unfold Qlt in Hx. cbn in *. lia. }
  assert (Hd : 0 < d) by (unfold d; lia).
  pose proof (Z.log2_spec n Hn) as [Hn1 Hn2].
  pose proof (Z.log2_spec d Hd) as [Hd1 Hd2].
  pose proof (Z.log2_nonneg n) as Ha. pose proof (Z.log2_nonneg d) as Hb.
  set (a := Z.log2 n) in *. set (b := Z.log2 d) in *.
  pose proof (Q_as_quotient x) as Hq. fold n d in Hq.
  assert (Hdq : (0 < inject_Z d)%Q) by (change 0%Q with (inject_Z 0); rewrite <- Zlt_Qlt; exact Hd).
  assert (Hup : (x < pow2 (a - b + 1))%Q).
  { apply (Qmult_lt_r _ _ (inject_Z d) Hdq). rewrite Hq.
    apply Qlt_le_trans with (pow2 (a + 1)).
    - rewrite pow2_Z by lia. rewrite <- Zlt_Qlt. rewrite <- Z.add_1_r in Hn2. exact Hn2.
    - replace (a + 1) with ((a - b + 1) + b) by lia. rewrite pow2_add.
      apply Qmult_le_l; [apply pow2_pos|].
      rewrite pow2_Z by lia. rewrite <- Zle_Qle. exact Hd1. }
  assert (Hlo : (pow2 (a - b - 1) <= x)%Q).
  { apply (Qmult_le_r _ _ (inject_Z d) Hdq). rewrite Hq.
    apply Qle_trans with (pow2 a).
    - replace a with ((a - b - 1) + (b + 1)) at 2 by lia. rewrite pow2_add.
      apply Qmult_le_l; [apply pow2_pos|].
      rewrite pow2_Z by lia. rewrite <- Zle_Qle. rewrite <- Z.add_1_r in Hd2. lia.
    - rewrite pow2_Z by lia. rewrite <- Zle_Qle. exact Hn1. }
  destruct (Qle_bool (pow2 (a - b)) x) eqn:Hb'.
  - apply Qle_bool_iff in Hb'. split; assumption.
  - assert (Hlt : (x < pow2 (a - b))%Q).
    { apply Qnot_le_lt. intros H. apply Qle_bool_iff in H. congruence. }
    replace (a - b - 1 + 1) with (a - b) by lia. split; assumption.
Qed.

Lemma round_half_even_le (x : Q) (N : Z) : (x <= inject_Z N)%Q -> round_half_even x <= N.
Proof.
  intros H. unfold round_half_even.
  pose proof (Qfloor_le x) as Hf. pose proof (Qlt_floor x) as Hc.
  remember (Qfloor x) as f eqn:Ef; clear Ef.
  assert (Hfn : f <= N). { rewrite Zle_Qle. lra. }
  destruct (Z.eq_dec f N) as [->|Hne].
  - assert (Heq : (x - inject_Z N == 0)%Q) by lra.
    assert (Hcmp : (x - inject_Z N ?= 1 # 2)%Q = Lt).
    { apply (proj1 (Qlt_alt _ _)). lra. }
    rewrite Hcmp. lia.
  - destruct (x - inject_Z f ?= 1 # 2)%Q; [destruct (Z.even f)| |]; lia.
Qed.

Lemma round_half_even_ge (x : Q) (N : Z) : (inject_Z N <= x)%Q -> N <= round_half_even x.
Proof.
  intros H. unfold round_half_even.
  pose proof (Qfloor_le x) as Hf. pose proof (Qlt_floor x) as Hc.
  remember (Qfloor x) as f eqn:Ef; clear Ef.
  assert (Hfn : N <= f).
  { assert (Hlt : (inject_Z N < inject_Z (f + 1))%Q) by lra.
    rewrite <- Zlt_Qlt in Hlt. lia. }
  destruct (x - inject_Z f ?= 1 # 2)%Q; [destruct (Z.even f)| |]; lia.
Qed.

(** Below an even integer [N], rounding stays below [N] exactly up to the
    midpoint [N - 1/2], which itself goes up to [N]. *)
Lemma round_half_even_lt_even (x : Q) (N : Z) :
  Z.even N = true ->
  round_half_even x < N <-> (x < inject_Z N - (1 # 2))%Q.
Proof.
  intros Hev. unfold round_half_even.
  pose proof (Qfloor_le x) as Hf. pose proof (Qlt_floor x) as Hc.
  remember (Qfloor x) as f eqn:Ef; clear Ef.
  rewrite inject_Z_plus in Hc. change (inject_Z 1) with 1%Q in Hc.
  destruct (Z.lt_trichotomy f (N - 1)) as [Hlt | [Heq | Hgt]].
  - (* f <= N - 2 *)
    assert (Hq : (inject_Z f <= inject_Z N - 2)%Q).
    { change 2%Q with (inject_Z 2). rewrite <- inject_Z_minus, <- Zle_Qle. lia. }
    split; [intros _; lra|]. intros _.
    destruct (x - inject_Z f ?= 1 # 2)%Q; [destruct (Z.even f)| |]; lia.
  - (* f = N - 1, odd *)
    assert (Hq : (inject_Z f == inject_Z N - 1)%Q).
    { change 1%Q with (inject_Z 1). rewrite <- inject_Z_minus, Heq. reflexivity. }
    assert (Hodd : Z.even f = false).
    { rewrite Heq. rewrite Z.even_sub, Hev. reflexivity. }
    destruct (x - inject_Z f ?= 1 # 2)%Q eqn:Hcmp.
    + apply Qeq_alt in Hcmp. rewrite Hodd. split; [lia | lra].
    + apply Qlt_alt in Hcmp. split; [intros _; lra | lia].
    + apply Qgt_alt in Hcmp. split; [lia | lra].
  - (* N <= f *)
    assert (Hq : (inject_Z N <= inject_Z f)%Q) by (rewrite <- Zle_Qle; lia).
    split; [|intros; lra]. intros H. exfalso.
    destruct (x - inject_Z f ?= 1 # 2)%Q; [destruct (Z.even f)| |]; lia.
Qed.

Lemma round53_pos_scaled (x : Q) :
  (0 < x)%Q ->
  (pow2 52 <= x / pow2 (ilog2 x - 52) /\ x / pow2 (ilog2 x - 52) < pow2 53)%Q.
Proof.
  intros Hx. destruct (ilog2_spec x Hx) as [H1 H2].
  set (k := ilog2 x) in *.
  pose proof (pow2_pos (k - 52)) as Hp.
  assert (Hk : (pow2 k == pow2 52 * pow2 (k - 52))%Q).
  { rewrite <- pow2_add. replace (52 + (k - 52)) with k by lia. reflexivity. }
  assert (Hk1 : (pow2 (k + 1) == pow2 53 * pow2 (k - 52))%Q).
  { rewrite <- pow2_add. replace (53 + (k - 52)) with (k + 1) by lia. reflexivity. }
  split.
  - apply Qle_shift_div_l; [exact Hp|]. rewrite <- Hk. exact H1.
  - apply Qlt_shift_div_r; [exact Hp|]. rewrite <- Hk1. exact H2.
Qed.

Lemma round53_pos_bounds (x : Q) :
  (0 < x)%Q ->
  (pow2 (ilog2 x) <= round53_pos x /\ round53_pos x <= pow2 (ilog2 x + 1))%Q.
Proof.
  intros Hx. destruct (round53_pos_scaled x Hx) as [H1 H2].
  unfold round53_pos. set (k := ilog2 x) in *.
  set (y := (x / pow2 (k - 52))%Q) in *.
  pose proof (pow2_pos (k - 52)) as Hp.
  assert (Hlo : 2 ^ 52 <= round_half_even y).
  { apply round_half_even_ge. rewrite <- pow2_Z by lia. exact H1. }
  assert (Hhi : round_half_even y <= 2 ^ 53).
  { apply round_half_even_le. rewrite <- pow2_Z by lia. apply Qlt_le_weak, H2. }
  split.
  - replace k with (52 + (k - 52)) at 1 by lia. rewrite pow2_add.
    apply Qmult_le_compat_r; [|apply Qlt_le_weak, Hp].
    rewrite pow2_Z by lia. rewrite <- Zle_Qle. exact Hlo.
  - replace (k + 1) with (53 + (k - 52)) by lia. rewrite pow2_add.
    apply Qmult_le_compat_r; [|apply Qlt_le_weak, Hp].
    rewrite pow2_Z by lia. rewrite <- Zle_Qle. exact Hhi.
Qed.

(** Rounded to a double, a number is below 3600 exactly when it is below
    the midpoint between 3600 and the double before it. *)
Lemma round53_lt_3600 (x : Q) : (round53 x < 3600 <-> x < TTL_EDGE)%Q.
Proof.
  unfold round53, TTL_EDGE.
  destruct (x ?= 0)%Q eqn:Hc.
  - apply Qeq_alt in Hc. split; intros _; [rewrite Hc|]; reflexivity.
  - apply Qlt_alt in Hc.
    assert (Hx : (0 < - x)%Q) by lra.
    destruct (round53_pos_bounds (- x) Hx) as [H1 _].
    pose proof (pow2_pos (ilog2 (- x))) as Hp.
    split; intros _; [|lra].
    apply Qlt_trans with 0%Q; [exact Hc | reflexivity].
  - apply Qgt_alt in Hc.
    destruct (ilog2_spec x Hc) as [Hk1 Hk2].
    destruct (round53_pos_bounds x Hc) as [Hr1 Hr2].
    set (k := ilog2 x) in *.
    destruct (Z.lt_trichotomy k 11) as [Hlt | [Heq | Hgt]].
    + (* below 2048 *)
      assert (Hb : (pow2 (k + 1) <= pow2 11)%Q) by (apply pow2_le; lia).
      assert (H11 : (pow2 11 == 2048)%Q) by reflexivity.
      split; intros _.
      * apply Qlt_trans with (pow2 (k + 1)); [exact Hk2|].
        apply Qle_lt_trans with (pow2 11); [exact Hb|]. rewrite H11. reflexivity.
      * apply Qle_lt_trans with (pow2 (k + 1)); [exact Hr2|].
        apply Qle_lt_trans with (pow2 11); [exact Hb|]. rewrite H11. reflexivity.
    + (* the binade of 3600 *)
      unfold round53_pos. fold k. rewrite Heq.
      change (11 - 52) with (-41).
      set (y := (x / pow2 (-41))%Q).
      assert (Hinv : (pow2 (-41) == 1 # 2 ^ 41)%Q) by reflexivity.
      assert (Hy : (y == x * inject_Z (2 ^ 41))%Q).
      { unfold y. rewrite Hinv. unfold Qdiv. apply Qmult_comp; reflexivity. }
      pose proof (round_half_even_lt_even y (3600 * 2 ^ 41) eq_refl) as Ht.
      split; intros H.
      * assert (Hz : round_half_even y < 3600 * 2 ^ 41).
        { rewrite Zlt_Qlt.
          apply (Qmult_lt_r _ _ (pow2 (-41)) (pow2_pos _)).
          eapply Qlt_le_trans; [exact H|]. rewrite Hinv.
          unfold Qle, Qmult, inject_Z. cbn. lia. }
        apply Ht in Hz. rewrite Hy in Hz.
        assert (Hc1 : (inject_Z (3600 * 2 ^ 41) == 3600 * inject_Z (2 ^ 41))%Q) by reflexivity.
        assert (Hc2 : (1 # 2 ^ 42 == (1 # 2) / inject_Z (2 ^ 41))%Q) by reflexivity.
        assert (Hpos : (0 < inject_Z (2 ^ 41))%Q) by reflexivity.
        rewrite Hc2.
        apply (Qmult_lt_r _ _ (inject_Z (2 ^ 41)) Hpos).
        eapply Qlt_le_trans; [exact Hz|]. rewrite Hc1.
        apply Qle_lteq. right. field. discriminate.
      * assert (Hz : (y < inject_Z (3600 * 2 ^ 41) - (1 # 2))%Q).
        { rewrite Hy.
          assert (Hpos : (0 < inject_Z (2 ^ 41))%Q) by reflexivity.
          apply Qlt_le_trans with ((3600 - (1 # 2 ^ 42)) * inject_Z (2 ^ 41))%Q.
          - apply Qmult_lt_r; assumption.
          - apply Qle_lteq. right. reflexivity. }
        apply Ht in Hz. rewrite Zlt_Qlt in Hz.
        apply Qlt_le_trans with (inject_Z (3600 * 2 ^ 41) * pow2 (-41))%Q.
        -- apply Qmult_lt_r; [apply pow2_pos | exact Hz].
        -- apply Qle_lteq. right. reflexivity.
    + (* 4096 and above *)
      assert (Hb : (pow2 12 <= pow2 k)%Q) by (apply pow2_le; lia).
      assert (H12 : (pow2 12 == 4096)%Q) by reflexivity.
      split; intros H; exfalso.
      * assert (H' : (4096 < 3600)%Q).
        { rewrite <- H12. eapply Qle_lt_trans; [exact Hb|].
          eapply Qle_lt_trans; [exact Hr1 | exact H]. }
        discriminate H'.
      * assert (H' : (4096 < 3600)%Q).
        { rewrite <- H12. eapply Qle_lt_trans; [exact Hb|].
          eapply Qle_lt_trans; [exact Hk1|].
          eapply Qlt_trans; [exact H|]. reflexivity. }
        discriminate H'.
Qed.

Lemma round_half_even_Z (y : Q) (z : Z) : (y == inject_Z z)%Q -> round_half_even y = z.
Proof.
  intros Hy. apply Z.le_antisymm.
  - apply round_half_even_le. rewrite Hy. apply Qle_refl.
  - apply round_half_even_ge. rewrite Hy. apply Qle_refl.
Qed.

(** A number with a significand of at most 53 bits is a double. *)
Lemma round53_pos_exact (x : Q) (z j : Z) :
  (x == inject_Z z * pow2 j)%Q ->
  0 < z < 2 ^ 53 ->
  (round53_pos x == x)%Q.
Proof.
  intros Hxz [Hz1 Hz2].
  assert (Hzq : (0 < inject_Z z)%Q).
  { change 0%Q with (inject_Z 0). rewrite <- Zlt_Qlt. exact Hz1. }
  assert (Hx : (0 < x)%Q).
  { rewrite Hxz. apply Qmult_lt_0_compat; [exact Hzq | apply pow2_pos]. }
  destruct (ilog2_spec x Hx) as [Hk1 Hk2].
  unfold round53_pos. set (k := ilog2 x) in *.
  assert (Hkj : k < 53 + j).
  { apply (Qpower_lt_compat_l_inv 2); [|reflexivity].
    eapply Qle_lt_trans; [exact Hk1|]. rewrite Hxz.
    change (2 ^ (53 + j))%Q with (pow2 (53 + j)). rewrite pow2_add.
    apply Qmult_lt_r; [apply pow2_pos|].
    rewrite pow2_Z by lia. rewrite <- Zlt_Qlt. exact Hz2. }
  set (m := j - k + 52).
  assert (Hj : (pow2 j == pow2 m * pow2 (k - 52))%Q).
  { rewrite <- pow2_add. replace (m + (k - 52)) with j by lia. reflexivity. }
  assert (Hy : (x / pow2 (k - 52) == inject_Z (z * 2 ^ m))%Q).
  { rewrite inject_Z_mult, <- pow2_Z by lia. rewrite Hxz, Hj.
    field. apply Qnot_eq_sym, Qlt_not_eq, pow2_pos. }
  rewrite (round_half_even_Z _ _ Hy).
  rewrite inject_Z_mult, <- pow2_Z by lia. rewrite Hxz, Hj. ring.
Qed.

Lemma round53_exact (x : Q) (z j : Z) :
  (x == inject_Z z * pow2 j)%Q ->
  Z.abs z < 2 ^ 53 ->
  (round53 x == x)%Q.
Proof.
  intros Hxz Hz. unfold round53.
  pose proof (pow2_pos j) as Hp.
  destruct (x ?= 0)%Q eqn:Hc.
  - apply Qeq_alt in Hc. rewrite Hc. reflexivity.
  - apply Qlt_alt in Hc.
    assert (Hneg : z < 0).
    { destruct (Z.lt_ge_cases z 0) as [H|H]; [exact H|]. exfalso.
      rewrite Zle_Qle in H. change (inject_Z 0) with 0%Q in H.
      pose proof (Qmult_le_0_compat _ _ H (Qlt_le_weak _ _ Hp)) as H'.
      rewrite <- Hxz in H'. exact (Qlt_not_le _ _ Hc H'). }
    assert (Heq : (- x == inject_Z (- z) * pow2 j)%Q).
    { rewrite Hxz, inject_Z_opp. ring. }
    rewrite (round53_pos_exact _ _ _ Heq) by lia. ring.
  - apply Qgt_alt in Hc.
    assert (Hpos : 0 < z).
    { destruct (Z.lt_ge_cases 0 z) as [H|H]; [exact H|]. exfalso.
      rewrite Zle_Qle in H. change (inject_Z 0) with 0%Q in H.
      assert (H' : (x <= 0)%Q).
      { rewrite Hxz. apply Qle_trans with (0 * pow2 j)%Q.
        - apply Qmult_le_compat_r; [exact H | apply Qlt_le_weak, Hp].
        - rewrite Qmult_0_l. apply Qle_refl. }
      exact (Qlt_not_le _ _ Hc H'). }
    apply (round53_pos_exact _ _ _ Hxz). lia.
Qed.

Lemma Qltb_lt (x y : Q) : Qltb x y = true <-> (x < y)%Q.
Proof.
  unfold Qltb. rewrite negb_true_iff. split.
  - intros H. apply Qnot_le_lt. intros Hle. apply Qle_bool_iff in Hle. congruence.
  - intros H. destruct (Qle_bool y x) eqn:E; [|reflexivity].
    apply Qle_bool_iff in E. exfalso. eapply Qlt_not_le; eassumption.
Qed.

Lemma Qltb_within_ttl (e : env) (n : node) :
  Qltb (float_sub (clock e) (mtime n)) CACHE_DURATION = true <-> within_ttl e n.
Proof. apply Qltb_lt. Qed.

(** The age that [is_cache_valid] computes is below the duration exactly
    when the exact age is below [TTL_EDGE]. *)
Lemma within_ttl_exact (e : env) (n : node) :
  within_ttl e n <-> (clock e - mtime n < TTL_EDGE)%Q.
Proof. apply round53_lt_3600. Qed.

Lemma within_ttl_earlier (e e' : env) (n : node) :
  (clock e <= clock e')%Q -> within_ttl e' n -> within_ttl e n.
Proof.
  rewrite !within_ttl_exact. intros Hle H.
  eapply Qle_lt_trans; [|exact H]. apply Qplus_le_l. exact Hle.
Qed.

(** ** Paths *)

Lemma ancestors_aux_no_slash (seen rest : list ascii) :
  forallb (fun c => negb (Ascii.eqb c "/")) rest = true ->
  ancestors_aux seen rest = [].
Proof.
  revert seen. induction rest as [|c rest IH]; intros seen H; [reflexivity|].
  cbn [forallb] in H. apply andb_true_iff in H as [Hc Hrest].
  cbn [ancestors_aux]. apply negb_true_iff in Hc. rewrite Hc. apply IH, Hrest.
Qed.

Lemma lower_hex_no_slash (c : ascii) :
  is_lower_hex c = true -> negb (Ascii.eqb c "/") = true.
Proof.
  intros H. destruct (Ascii.eqb_spec c "/") as [->|]; [discriminate H | reflexivity].
Qed.

Lemma ancestors_cache_file (feed_url : string) :
  ancestors (get_cache_filename feed_url) = [CACHE_DIR].
Proof.
  rewrite get_cache_filename_eq. unfold ancestors.
  rewrite !list_ascii_of_string_app.
  destruct (hexdigest_lower_hex (str_encode feed_url)) as [Hhex _].
  set (h := list_ascii_of_string (MD5.hexdigest (str_encode feed_url))) in *.
  cbn -[h]. f_equal. apply ancestors_aux_no_slash.
  rewrite forallb_app, (forallb_impl _ _ _ lower_hex_no_slash Hhex). reflexivity.
Qed.

Lemma path_error_cache_dir (w : world) : path_error w CACHE_DIR = None.
Proof. reflexivity. Qed.

Lemma stat_cache_dir (w : world) : stat w CACHE_DIR = w !! CACHE_DIR.
Proof. reflexivity. Qed.

Lemma path_error_cache_file (w : world) (feed_url : string) :
  path_error w (get_cache_filename feed_url) =
    match w !! CACHE_DIR with
    | Some (Node _ Dir) => None
    | Some (Node _ (Reg _)) => Some (ENOTDIR (get_cache_filename feed_url))
    | None => Some (ENOENT (get_cache_filename feed_url))
    end.
Proof.
  unfold path_error. rewrite ancestors_cache_file. cbn [walk_error].
  destruct (w !! CACHE_DIR) as [[t [|c]]|]; reflexivity.
Qed.

(** [os.stat] on the cache file of a feed: the node at the path, when
    the cache directory is a directory. *)
Lemma stat_cache_file (w : world) (feed_url : string) :
  stat w (get_cache_filename feed_url) =
    match w !! CACHE_DIR with
    | Some (Node _ Dir) => w !! get_cache_filename feed_url
    | _ => None
    end.
Proof.
  unfold stat. rewrite path_error_cache_file.
  destruct (w !! CACHE_DIR) as [[t [|c]]|]; reflexivity.
Qed.

(** An error of the walk is not one that a handler for
    [RequestException] catches. *)
Lemma path_error_class (w : world) (p : string) (x : exn) :
  path_error w p = Some x -> x = ENOTDIR p \/ x = ENOENT p.
Proof.
  unfold path_error. induction (ancestors p) as [|d ds IH]; cbn [walk_error];
    [discriminate|].
  destruct (w !! d) as [[t [|c]]|]; [exact IH | |]; intros [= <-]; auto.
Qed.

Lemma open_write_failure_class (e : env) (w : world) (p : string) (x : exn) :
  open_write_failure e w p = Some x ->
  isinstance x OSError = true /\ isinstance x RequestException = false
  /\ isinstance x JSONDecodeError = false.
Proof.
  unfold open_write_failure.
  destruct (open_write_error e) as [msg|]; [intros [= <-]; repeat split|].
  destruct (path_error w p) as [y|] eqn:Hp.
  - intros [= <-]. destruct (path_error_class _ _ _ Hp) as [-> | ->]; repeat split.
  - destruct (w !! p) as [[t [|c]]|]; [|discriminate..].
    intros [= <-]. repeat split.
Qed.

(** ** What each library call and each block does *)

(** Closes a goal from a membership [H : In ev l] in an explicit list none
    of whose events is [ev]. *)
Ltac no_such_event H :=
  repeat (destruct H as [H | H]; [discriminate H|]); contradiction H.

Ltac run_monad :=
  unfold mbind, M_bind, mret, M_ret, emit, ask, get_world, put_world, raise, raise_exn;
  cbn [fst snd app].

Lemma ensure_cache_dir_run (e : env) (w : world) :
  ensure_cache_dir e w =
    if bool_decide (is_Some (w !! CACHE_DIR)) then (Ret tt, w, [EvExists CACHE_DIR])
    else match makedirs_error e with
         | Some msg => (Raise (Exn OSError msg), w, [EvExists CACHE_DIR; EvMakedirs CACHE_DIR])
         | None => (Ret tt, <[CACHE_DIR := Node (fs_clock e) Dir]> w,
                    [EvExists CACHE_DIR; EvMakedirs CACHE_DIR])
         end.
Proof.
  unfold ensure_cache_dir, os_path_exists, os_makedirs. run_monad.
  rewrite stat_cache_dir.
  destruct (bool_decide (is_Some (w !! CACHE_DIR))) eqn:Hd; cbn; [reflexivity|].
  destruct (makedirs_error e); [reflexivity|].
  apply bool_decide_eq_false in Hd.
  destruct (w !! CACHE_DIR) as [n|]; [exfalso; apply Hd; eauto|]. reflexivity.
Qed.

Lemma ensure_cache_dir_ok (e : env) (w : world) :
  makedirs_ok e w ->
  ensure_cache_dir e w = (Ret tt, with_cache_dir e w, ensure_cache_dir_trace w).
Proof.
  intros Hok. rewrite ensure_cache_dir_run.
  unfold with_cache_dir, ensure_cache_dir_trace.
  destruct (bool_decide (is_Some (w !! CACHE_DIR))) eqn:Hd; [reflexivity|].
  destruct Hok as [Hex | ->]; [|reflexivity].
  apply bool_decide_eq_false in Hd. contradiction.
Qed.

Lemma with_cache_dir_lookup (e : env) (w : world) (p : string) :
  p <> CACHE_DIR -> with_cache_dir e w !! p = w !! p.
Proof.
  intros Hp. unfold with_cache_dir. case_bool_decide; [reflexivity|].
  apply lookup_insert_ne. congruence.
Qed.

Lemma with_cache_dir_has_dir (e : env) (w : world) :
  is_Some (with_cache_dir e w !! CACHE_DIR).
Proof.
  unfold with_cache_dir. case_bool_decide; [assumption|].
  rewrite lookup_insert_eq. eauto.
Qed.

Lemma with_cache_dir_id (e : env) (w : world) :
  is_Some (w !! CACHE_DIR) -> with_cache_dir e w = w.
Proof. intros H. unfold with_cache_dir. rewrite bool_decide_eq_true_2; done. Qed.

(** The node at the cache directory once [ensure_cache_dir] went through:
    the one that was there, or the new directory. *)
Lemma with_cache_dir_at_dir (e : env) (w : world) :
  with_cache_dir e w !! CACHE_DIR
  = Some (default (Node (fs_clock e) Dir) (w !! CACHE_DIR)).
Proof.
  unfold with_cache_dir. case_bool_decide as Hd.
  - destruct Hd as [n Hn]. rewrite Hn. reflexivity.
  - rewrite lookup_insert_eq.
    destruct (w !! CACHE_DIR) as [n|]; [exfalso; apply Hd; eauto | reflexivity].
Qed.

(** [cache_stat] and [validity_trace], written out. *)
Lemma cache_stat_eq (e : env) (w : world) (p : string) :
  cache_stat e w p = stat (with_cache_dir e w) p.
Proof. reflexivity. Qed.

Lemma validity_trace_eq (e : env) (w : world) (p : string) :
  validity_trace e w p =
    match stat (with_cache_dir e w) p with
    | None => [EvExists p]
    | Some _ => [EvExists p; EvGetmtime p]
    end.
Proof. reflexivity. Qed.

(** What a call finds at the cache file of a feed: nothing when the name
    of the cache directory is taken by a regular file, and else the node
    at the path. *)
Lemma cache_stat_file (e : env) (w : world) (feed_url : string) :
  cache_stat e w (get_cache_filename feed_url) =
    match w !! CACHE_DIR with
    | Some (Node _ (Reg _)) => None
    | _ => w !! get_cache_filename feed_url
    end.
Proof.
  unfold cache_stat, stat.
  rewrite path_error_cache_file, with_cache_dir_at_dir,
    with_cache_dir_lookup by apply cache_file_not_cache_dir.
  destruct (w !! CACHE_DIR) as [[t [|c]]|]; reflexivity.
Qed.

Lemma cache_stat_lookup (e : env) (w : world) (feed_url : string) (n : node) :
  cache_stat e w (get_cache_filename feed_url) = Some n ->
  w !! get_cache_filename feed_url = Some n.
Proof.
  rewrite cache_stat_file. destruct (w !! CACHE_DIR) as [[t [|c]]|]; [auto | discriminate | auto].
Qed.

Lemma cache_stat_stat (e : env) (w : world) (p : string) :
  is_Some (w !! CACHE_DIR) -> cache_stat e w p = stat w p.
Proof. intros H. unfold cache_stat. rewrite with_cache_dir_id by exact H. reflexivity. Qed.

Lemma is_cache_valid_run (cache_file : string) (e : env) (w : world) :
  is_cache_valid cache_file e w =
    match stat w cache_file with
    | None => (Ret false, w, [EvExists cache_file])
    | Some n => (Ret (Qltb (float_sub (clock e) (mtime n)) CACHE_DURATION), w,
                 [EvExists cache_file; EvGetmtime cache_file])
    end.
Proof.
  unfold is_cache_valid, os_path_exists, time_time, os_path_getmtime. run_monad.
  destruct (stat w cache_file) as [n|] eqn:Hn; cbn; rewrite ?Hn; reflexivity.
Qed.

Lemma write_bytes_run (p c : string) (e : env) (w : world) :
  write_bytes p c e w =
    match open_write_failure e w p with
    | Some x => (Raise x, w, [EvWrite p])
    | None => (Ret tt, <[p := Node (fs_clock e) (Reg c)]> w, [EvWrite p])
    end.
Proof.
  unfold write_bytes, open_write_failure. run_monad.
  destruct (open_write_error e) as [msg|]; cbn; [reflexivity|].
  destruct (path_error w p) as [x|]; cbn; [reflexivity|].
  destruct (w !! p) as [[t [|c']]|]; reflexivity.
Qed.

(** C1 (as amended): [is_cache_valid] always answers, changing nothing.
    It answers [True] exactly when a file is found at the path and its
    age, computed as the difference of the two doubles that [time.time()]
    and [os.path.getmtime] return, is strictly below the 3600 seconds of
    [CACHE_DURATION].  For the exact age this means: below 3600 less
    2^-42, half a unit in the last place of the doubles under 3600.  A file
    whose modification time is 3600 seconds before now, exactly, is
    expired.  Where the two timestamps are multiples of one power of two
    whose difference has at most 53 bits, as the doubles of the years 2004
    to 2038 are, the computed age is the exact one, and the answer is
    [True] exactly when the exact age is below 3600. *)
Theorem is_cache_valid_iff (cache_file : string) (e : env) (w : world) :
  exists (b : bool) (t : list event),
    is_cache_valid cache_file e w = (Ret b, w, t)
    /\ (b = true <->
        exists n, stat w cache_file = Some n
                  /\ (float_sub (clock e) (mtime n) < 3600)%Q)
    /\ (b = true <->
        exists n, stat w cache_file = Some n
                  /\ (clock e - mtime n < 3600 - (1 # 2 ^ 42))%Q)
    /\ (forall n, stat w cache_file = Some n ->
                  (mtime n == clock e - 3600)%Q -> b = false)
    /\ (forall n (j a m : Z),
          stat w cache_file = Some n ->
          (clock e == inject_Z a * pow2 j)%Q ->
          (mtime n == inject_Z m * pow2 j)%Q ->
          Z.abs (a - m) < 2 ^ 53 ->
          (b = true <-> (clock e - mtime n < 3600)%Q)).
Proof.
  rewrite is_cache_valid_run.
  destruct (stat w cache_file) as [n|] eqn:Hn.
  - eexists _, _. split; [reflexivity|].
    assert (Hcomp : Qltb (float_sub (clock e) (mtime n)) CACHE_DURATION = true
                    <-> (float_sub (clock e) (mtime n) < 3600)%Q) by apply Qltb_lt.
    assert (Hexact : (float_sub (clock e) (mtime n) < 3600)%Q
                     <-> (clock e - mtime n < 3600 - (1 # 2 ^ 42))%Q)
      by apply round53_lt_3600.
    split; [|split; [|split]].
    + rewrite Hcomp. split.
      * intros H. exists n. split; [reflexivity | exact H].
      * intros (n' & Heq & H). injection Heq as <-. exact H.
    + rewrite Hcomp, Hexact. split.
      * intros H. exists n. split; [reflexivity | exact H].
      * intros (n' & Heq & H). injection Heq as <-. exact H.
    + intros n' Heq Hm. injection Heq as <-.
      destruct (Qltb (float_sub (clock e) (mtime n)) CACHE_DURATION) eqn:Hb;
        [|reflexivity].
      apply Qltb_lt in Hb. apply Hexact in Hb. exfalso. rewrite Hm in Hb.
      assert (Heq : (clock e - (clock e - 3600) == 3600)%Q) by ring.
      rewrite Heq in Hb. discriminate Hb.
    + intros n' j a m Heq Ha Hm Hbits. injection Heq as <-.
      assert (Hdiff : (clock e - mtime n == inject_Z (a - m) * pow2 j)%Q).
      { rewrite Ha, Hm, inject_Z_minus. ring. }
      rewrite Hcomp. unfold float_sub.
      rewrite (round53_exact _ _ _ Hdiff Hbits). reflexivity.
  - eexists _, _. split; [reflexivity|].
    repeat split; try discriminate; try (intros (n & Heq & _); discriminate);
      intros; discriminate.
Qed.

Section FetcherFacts.

Context {F : Type}.
Variable decode_text : string -> option string.
Variable loads : string -> option (json F).
Variable loads_error : string -> parse_error.
Variable dumps : json F -> string.
Variable dump_error : json F -> option dump_fault.

Local Abbreviation fetch :=
  (fetch_earthquake_data decode_text loads loads_error dumps dump_error).
Local Abbreviation cached := (try_cached decode_text loads loads_error).
Local Abbreviation fresh_fetch := (try_fresh loads loads_error dumps dump_error).

(** *** The cached read *)

(** What the first [try] yields, as a function of the file and the
    codec: a fault of the decoder and the [UnicodeDecodeError] of the
    text codec pass the handler, everything else ends in [None]. *)
Lemma try_cached_run (cache_file : string) (e : env) (w : world) :
  cached cache_file e w =
    (match open_read_error e with
     | Some _ => Ret None
     | None =>
         match stat w cache_file with
         | Some (Node _ (Reg c)) =>
             match decode_text c with
             | None => Raise (Exn UnicodeDecodeError "codec can't decode byte")
             | Some s =>
                 match loads s with
                 | Some v => Ret (Some v)
                 | None =>
                     match loads_error s with
                     | NotJson _ => Ret None
                     | ParseFault f msg => Raise (Exn (fault_class f) msg)
                     end
                 end
             end
         | _ => Ret None
         end
     end, w, [EvRead cache_file]).
Proof.
  unfold try_cached, try_except, json_load, json_loads, read_bytes, stat. run_monad.
  destruct (open_read_error e) as [msg|]; cbn; [reflexivity|].
  destruct (path_error w cache_file) as [x|] eqn:Hp; cbn.
  { destruct (path_error_class _ _ _ Hp) as [-> | ->]; reflexivity. }
  destruct (w !! cache_file) as [[t [|c]]|]; cbn; try reflexivity.
  destruct (decode_text c) as [s|]; cbn; [|reflexivity].
  destruct (loads s); cbn; [reflexivity|].
  destruct (loads_error s) as [d | [] msg]; reflexivity.
Qed.

(** *** The fresh fetch *)

Lemma bind_run {A B} (m : M A) (f : A -> M B) (e : env) (w : world) :
  (m ≫= f) e w =
    let '(r, w', t) := m e w in
    match r with
    | Ret a => let '(r', w'', t') := f a e w' in (r', w'', t ++ t')
    | Raise x => (Raise x, w', t)
    end.
Proof. unfold mbind, M_bind. destruct (m e w) as [[[a|x] w'] t]; reflexivity. Qed.

Lemma requests_get_run (url : string) (e : env) (w : world) :
  requests_get url e w =
    match http e url with
    | HttpFails t msg => (Raise (Exn (transport_class t) msg), w, [EvGet url])
    | HttpResponds r => (Ret r, w, [EvGet url])
    end.
Proof. unfold requests_get. run_monad. destruct (http e url); reflexivity. Qed.

Lemma raise_for_status_run (r : response) (e : env) (w : world) :
  raise_for_status r e w =
    (if (400 <=? status_code r) && (status_code r <? 600)
     then Raise (Exn HTTPError
            (pretty (status_code r)
               +:+ (if status_code r <? 500 then " Client Error: " else " Server Error: ")
               +:+ reason r +:+ " for url: " +:+ resp_url r))
     else Ret tt, w, []).
Proof.
  unfold raise_for_status.
  destruct (Z.leb_spec 400 (status_code r)), (Z.ltb_spec (status_code r) 500),
    (Z.leb_spec 500 (status_code r)), (Z.ltb_spec (status_code r) 600);
    cbn; try reflexivity; lia.
Qed.

Lemma status_ok (r : response) :
  ~ (400 <= status_code r < 600) ->
  (400 <=? status_code r) && (status_code r <? 600) = false.
Proof.
  intros H. apply andb_false_iff.
  destruct (Z.leb_spec 400 (status_code r)); [|left; reflexivity].
  destruct (Z.ltb_spec (status_code r) 600); [lia | right; reflexivity].
Qed.

Lemma try_fresh_run (feed_url cache_file : string) (e : env) (w : world) :
  fresh_fetch feed_url cache_file e w =
    match http e feed_url with
    | HttpFails t msg =>
        (Ret (error_result ("Failed to fetch earthquake data: " +:+ msg)), w,
         [EvGet feed_url])
    | HttpResponds r =>
        if (400 <=? status_code r) && (status_code r <? 600) then
          (Ret (error_result ("Failed to fetch earthquake data: "
                  +:+ (pretty (status_code r)
                  +:+ (if status_code r <? 500 then " Client Error: " else " Server Error: ")
                  +:+ reason r +:+ " for url: " +:+ resp_url r))), w, [EvGet feed_url])
        else
          match loads (text r) with
          | None =>
              match loads_error (text r) with
              | NotJson diagnostic =>
                  (Ret (error_result ("Failed to fetch earthquake data: "
                          +:+ diagnostic)), w, [EvGet feed_url])
              | ParseFault f msg =>
                  (Raise (Exn (fault_class f) msg), w, [EvGet feed_url])
              end
          | Some data =>
              match open_write_failure e w cache_file with
              | Some x => (Raise x, w, [EvGet feed_url; EvWrite cache_file])
              | None =>
                  match dump_error data with
                  | None =>
                      (Ret data,
                       <[cache_file := Node (fs_clock e) (Reg (dumps data))]> w,
                       [EvGet feed_url; EvWrite cache_file])
                  | Some gave_up =>
                      (Raise (Exn (fault_class (dump_fault_kind gave_up))
                                (dump_fault_msg gave_up)),
                       <[cache_file := Node (fs_clock e) (Reg (dump_written gave_up))]> w,
                       [EvGet feed_url; EvWrite cache_file])
                  end
              end
          end
    end.
Proof.
  unfold try_fresh, try_except.
  rewrite bind_run, requests_get_run.
  destruct (http e feed_url) as [t msg|r].
  - destruct t; reflexivity.
  - rewrite bind_run, raise_for_status_run.
    destruct ((400 <=? status_code r) && (status_code r <? 600)); [reflexivity|].
    rewrite bind_run. unfold response_json, json_loads.
    destruct (loads (text r)) as [data|].
    + unfold mret at 1. unfold M_ret at 1. rewrite bind_run.
      unfold json_dump.
      destruct (dump_error data) as [gave_up|].
      * rewrite bind_run, write_bytes_run.
        destruct (open_write_failure e w cache_file) as [x|] eqn:Hx.
        -- destruct (open_write_failure_class _ _ _ _ Hx) as (_ & -> & _). reflexivity.
        -- destruct gave_up as [[] msg written]; reflexivity.
      * rewrite write_bytes_run.
        destruct (open_write_failure e w cache_file) as [x|] eqn:Hx.
        -- destruct (open_write_failure_class _ _ _ _ Hx) as (_ & -> & _). reflexivity.
        -- reflexivity.
    + destruct (loads_error (text r)) as [d | [] msg]; reflexivity.
Qed.

(** *** The whole call *)

Lemma fetch_earthquake_data_blocks (feed_type : string) :
  fetch feed_type =
    (ensure_cache_dir;;
     match dict_get feed_type feed_urls with
     | None => mret (error_result ("Invalid feed type: " +:+ feed_type))
     | Some feed_url =>
         let cache_file := get_cache_filename feed_url in
         valid ← is_cache_valid cache_file;
         hit ← (if (valid : bool) then cached cache_file else mret None);
         match (hit : option (json F)) with
         | Some v => mret v
         | None => fresh_fetch feed_url cache_file
         end
     end).
Proof. reflexivity. Qed.

Lemma fetch_makedirs_fails (feed_type msg : string) (e : env) (w : world) :
  w !! CACHE_DIR = None ->
  makedirs_error e = Some msg ->
  fetch feed_type e w =
    (Raise (Exn OSError msg), w, [EvExists CACHE_DIR; EvMakedirs CACHE_DIR]).
Proof.
  intros Hd He. rewrite fetch_earthquake_data_blocks.
  unfold mbind at 1. unfold M_bind at 1.
  rewrite ensure_cache_dir_run, He, bool_decide_eq_false_2; [reflexivity|].
  rewrite Hd. intros [? ?]. discriminate.
Qed.

Lemma fetch_unknown_run (feed_type : string) (e : env) (w : world) :
  dict_get feed_type feed_urls = None ->
  makedirs_ok e w ->
  fetch feed_type e w =
    (Ret (error_result ("Invalid feed type: " +:+ feed_type)),
     with_cache_dir e w, ensure_cache_dir_trace w).
Proof.
  intros Hf Hok. rewrite fetch_earthquake_data_blocks, Hf.
  unfold mbind at 1. unfold M_bind at 1.
  rewrite ensure_cache_dir_ok by assumption. cbn.
  rewrite app_nil_r. reflexivity.
Qed.

Lemma fetch_known_run (feed_type feed_url : string) (e : env) (w : world) :
  dict_get feed_type feed_urls = Some feed_url ->
  makedirs_ok e w ->
  let cache_file := get_cache_filename feed_url in
  let w1 := with_cache_dir e w in
  let pre := ensure_cache_dir_trace w ++ validity_trace e w cache_file in
  let go_fresh (t : list event) :=
    let '(r, w2, t') := fresh_fetch feed_url cache_file e w1 in
    (r, w2, pre ++ t ++ t') in
  fetch feed_type e w =
    match cache_stat e w cache_file with
    | Some n =>
        if Qltb (float_sub (clock e) (mtime n)) CACHE_DURATION then
          match outcome_of (cached cache_file e w1) with
          | Ret (Some v) => (Ret v, w1, pre ++ [EvRead cache_file])
          | Ret None => go_fresh [EvRead cache_file]
          | Raise x => (Raise x, w1, pre ++ [EvRead cache_file])
          end
        else go_fresh []
    | None => go_fresh []
    end.
Proof.
  intros Hf Hok cache_file w1 pre go_fresh.
  rewrite fetch_earthquake_data_blocks, Hf.
  unfold mbind at 1. unfold M_bind at 1.
  rewrite ensure_cache_dir_ok by assumption.
  cbv zeta.
  unfold mbind at 1. unfold M_bind at 1.
  rewrite is_cache_valid_run.
  subst go_fresh pre cache_file w1. rewrite validity_trace_eq, cache_stat_eq.
  destruct (stat (with_cache_dir e w) (get_cache_filename feed_url)) as [n|] eqn:Hn.
  - destruct (Qltb (float_sub (clock e) (mtime n)) CACHE_DURATION).
    + unfold mbind, M_bind. rewrite try_cached_run. unfold outcome_of. cbn [fst snd].
      rewrite Hn.
      set (res := match open_read_error e with
                  | Some _ => _
                  | None => _
                  end).
      destruct res as [[v|]|x].
      * unfold mret, M_ret. cbn. rewrite <- !app_assoc. reflexivity.
      * unfold mret, M_ret.
        destruct (fresh_fetch _ _ e _) as [[r w2] t'].
        rewrite <- !app_assoc. reflexivity.
      * rewrite <- !app_assoc. reflexivity.
    + unfold mbind, M_bind, mret, M_ret.
      destruct (fresh_fetch _ _ e _) as [[r w2] t'].
      rewrite <- !app_assoc. reflexivity.
  - unfold mbind, M_bind, mret, M_ret.
    destruct (fresh_fetch _ _ e _) as [[r w2] t'].
    rewrite <- !app_assoc. reflexivity.
Qed.

(** A failing request ends the second [try] with the error value, the
    filesystem as it was. *)
Lemma try_fresh_network_fails (feed_url cache_file : string) (e : env) (w : world) :
  network_fails e feed_url ->
  exists details,
    fresh_fetch feed_url cache_file e w =
      (Ret (error_result ("Failed to fetch earthquake data: " +:+ details)), w,
       [EvGet feed_url]).
Proof.
  unfold network_fails. intros Hn. rewrite try_fresh_run.
  destruct (http e feed_url) as [t msg|r].
  - eexists. reflexivity.
  - replace ((400 <=? status_code r) && (status_code r <? 600)) with true.
    + eexists. reflexivity.
    + symmetry. apply andb_true_iff. split; [apply Z.leb_le | apply Z.ltb_lt]; lia.
Qed.

(** The second [try] always ends in one of five ways: the error value;
    a fault of the decoder on the body; the error of opening the cache
    file; a fault of the serialiser, which leaves the file with the part
    written; the data, cached. *)
Lemma try_fresh_cases (feed_url cache_file : string) (e : env) (w : world) :
  (exists details,
      fresh_fetch feed_url cache_file e w =
        (Ret (error_result ("Failed to fetch earthquake data: " +:+ details)), w,
         [EvGet feed_url]))
  \/ (exists r f msg,
      http e feed_url = HttpResponds r
      /\ ~ (400 <= status_code r < 600)
      /\ loads (text r) = None
      /\ loads_error (text r) = ParseFault f msg
      /\ fresh_fetch feed_url cache_file e w =
        (Raise (Exn (fault_class f) msg), w, [EvGet feed_url]))
  \/ (exists r data x,
      http e feed_url = HttpResponds r
      /\ ~ (400 <= status_code r < 600)
      /\ loads (text r) = Some data
      /\ open_write_failure e w cache_file = Some x
      /\ fresh_fetch feed_url cache_file e w =
        (Raise x, w, [EvGet feed_url; EvWrite cache_file]))
  \/ (exists r data gave_up,
      http e feed_url = HttpResponds r
      /\ ~ (400 <= status_code r < 600)
      /\ loads (text r) = Some data
      /\ open_write_ok e w cache_file
      /\ dump_error data = Some gave_up
      /\ fresh_fetch feed_url cache_file e w =
        (Raise (Exn (fault_class (dump_fault_kind gave_up)) (dump_fault_msg gave_up)),
         <[cache_file := Node (fs_clock e) (Reg (dump_written gave_up))]> w,
         [EvGet feed_url; EvWrite cache_file]))
  \/ (exists r data,
      http e feed_url = HttpResponds r
      /\ ~ (400 <= status_code r < 600)
      /\ loads (text r) = Some data
      /\ open_write_ok e w cache_file
      /\ dump_error data = None
      /\ fresh_fetch feed_url cache_file e w =
        (Ret data, <[cache_file := Node (fs_clock e) (Reg (dumps data))]> w,
         [EvGet feed_url; EvWrite cache_file])).
Proof.
  rewrite try_fresh_run. unfold open_write_ok.
  destruct (http e feed_url) as [t msg|r]; [left; eexists; reflexivity|].
  destruct ((400 <=? status_code r) && (status_code r <? 600)) eqn:Hst;
    [left; eexists; reflexivity|].
  assert (Hst' : ~ (400 <= status_code r < 600)).
  { intros [H1 H2]. apply Z.leb_le in H1. apply Z.ltb_lt in H2.
    rewrite H1, H2 in Hst. discriminate. }
  destruct (loads (text r)) as [data|] eqn:Hl.
  - destruct (open_write_failure e w cache_file) as [x|] eqn:Hw.
    + right; right; left. exists r, data, x. repeat split; try assumption; tauto.
    + destruct (dump_error data) as [gave_up|] eqn:Hd.
      * right; right; right; left. exists r, data, gave_up.
        repeat split; try assumption; tauto.
      * right; right; right; right. exists r, data.
        repeat split; try assumption; tauto.
  - destruct (loads_error (text r)) as [d | f msg] eqn:He.
    + left; eexists; reflexivity.
    + right; left. exists r, f, msg. repeat split; try assumption; tauto.
Qed.

(** The first [try] never touches the filesystem and yields a value, no
    value, the decoding error of the text codec, or a fault of the
    decoder. *)
Lemma try_cached_cases (cache_file : string) (e : env) (w : world) :
  (exists t c s v,
      stat w cache_file = Some (Node t (Reg c)) /\ open_read_error e = None
      /\ decode_text c = Some s /\ loads s = Some v
      /\ cached cache_file e w = (Ret (Some v), w, [EvRead cache_file]))
  \/ cached cache_file e w = (Ret None, w, [EvRead cache_file])
  \/ (exists t c,
      stat w cache_file = Some (Node t (Reg c)) /\ open_read_error e = None
      /\ decode_text c = None
      /\ cached cache_file e w =
           (Raise (Exn UnicodeDecodeError "codec can't decode byte"), w,
            [EvRead cache_file]))
  \/ (exists t c s f msg,
      stat w cache_file = Some (Node t (Reg c)) /\ open_read_error e = None
      /\ decode_text c = Some s /\ loads s = None
      /\ loads_error s = ParseFault f msg
      /\ cached cache_file e w =
           (Raise (Exn (fault_class f) msg), w, [EvRead cache_file])).
Proof.
  rewrite try_cached_run.
  destruct (open_read_error e) as [msg|]; [right; left; reflexivity|].
  destruct (stat w cache_file) as [[t [|c]]|]; try (right; left; reflexivity).
  destruct (decode_text c) as [s|] eqn:Hd.
  - destruct (loads s) as [v|] eqn:Hl.
    + left. exists t, c, s, v. repeat split; try assumption; reflexivity.
    + destruct (loads_error s) as [d | f msg] eqn:He; [right; left; reflexivity|].
      right; right; right. exists t, c, s, f, msg.
      repeat split; try assumption; reflexivity.
  - right; right; left. exists t, c. repeat split; try assumption; reflexivity.
Qed.

(** ** The claims about [fetch_earthquake_data] *)

(** C2 (as amended): for a feed identifier that is not in the catalog, and
    when creating the cache directory does not fail, the call returns
    exactly the error value naming the identifier.  It sends no request
    and looks at no cache file; its only filesystem activity is that of
    [ensure_cache_dir]: the existence check of the cache directory and,
    when it is absent, its creation. *)
Theorem unknown_feed_result (feed_type : string) (e : env) (w : world) :
  dict_get feed_type feed_urls = None ->
  makedirs_ok e w ->
  fetch feed_type e w =
    (Ret (JDict [("error", JStr ("Invalid feed type: " +:+ feed_type))]),
     (if bool_decide (is_Some (w !! CACHE_DIR)) then w
      else <[CACHE_DIR := Node (fs_clock e) Dir]> w),
     (if bool_decide (is_Some (w !! CACHE_DIR)) then [EvExists CACHE_DIR]
      else [EvExists CACHE_DIR; EvMakedirs CACHE_DIR])).
Proof. intros Hf Hok. rewrite fetch_unknown_run by assumption. reflexivity. Qed.

(** A call for a catalogued feed ends as a cache hit, with an exception
    of the cached read (the decoding error of the text codec or a fault
    of the decoder), or with the outcome of the fresh fetch. *)
Lemma fetch_known_cases (feed_type feed_url : string) (e : env) (w : world) :
  dict_get feed_type feed_urls = Some feed_url ->
  makedirs_ok e w ->
  let cache_file := get_cache_filename feed_url in
  let w1 := with_cache_dir e w in
  let pre := ensure_cache_dir_trace w ++ validity_trace e w cache_file in
  (exists t c s v,
      cache_stat e w cache_file = Some (Node t (Reg c))
      /\ within_ttl e (Node t (Reg c))
      /\ open_read_error e = None /\ decode_text c = Some s /\ loads s = Some v
      /\ fetch feed_type e w = (Ret v, w1, pre ++ [EvRead cache_file]))
  \/ (exists t c x,
      cache_stat e w cache_file = Some (Node t (Reg c))
      /\ within_ttl e (Node t (Reg c))
      /\ open_read_error e = None
      /\ ((decode_text c = None
           /\ x = Exn UnicodeDecodeError "codec can't decode byte")
          \/ (exists s f msg,
                decode_text c = Some s /\ loads s = None
                /\ loads_error s = ParseFault f msg
                /\ x = Exn (fault_class f) msg))
      /\ fetch feed_type e w = (Raise x, w1, pre ++ [EvRead cache_file]))
  \/ (exists tr,
      (tr = [] \/ tr = [EvRead cache_file])
      /\ fetch feed_type e w =
           let '(r, w2, t') := fresh_fetch feed_url cache_file e w1 in
           (r, w2, pre ++ tr ++ t')).
Proof.
  intros Hf Hok. cbv zeta.
  rewrite (fetch_known_run _ _ _ _ Hf Hok). cbv zeta.
  rewrite !cache_stat_eq.
  destruct (stat (with_cache_dir e w) (get_cache_filename feed_url)) as [n|] eqn:Hn;
    [|right; right; exists []; split; [left|]; reflexivity].
  destruct (Qltb (float_sub (clock e) (mtime n)) CACHE_DURATION) eqn:Hq;
    [|right; right; exists []; split; [left|]; reflexivity].
  apply Qltb_within_ttl in Hq.
  destruct (try_cached_cases (get_cache_filename feed_url) e (with_cache_dir e w))
    as [(t & c & s & v & Hc & Hr & Hd & Hl & Heq)
       | [Heq | [(t & c & Hc & Hr & Hd & Heq)
                | (t & c & s & f & msg & Hc & Hr & Hd & Hl & He & Heq)]]];
    rewrite Heq; unfold outcome_of; cbn [fst snd].
  - left. rewrite Hn in Hc. injection Hc as ->.
    exists t, c, s, v. repeat split; assumption.
  - right; right. exists [EvRead (get_cache_filename feed_url)].
    split; [right|]; reflexivity.
  - right; left. rewrite Hn in Hc. injection Hc as ->.
    exists t, c, (Exn UnicodeDecodeError "codec can't decode byte").
    repeat split; try assumption. left. split; [assumption | reflexivity].
  - right; left. rewrite Hn in Hc. injection Hc as ->.
    exists t, c, (Exn (fault_class f) msg).
    repeat split; try assumption. right. exists s, f, msg.
    repeat split; assumption.
Qed.


(** C4 (the failing input, in general): when the cache file of a
    catalogued feed is within its time to live and opens, but its bytes are
    not text for the codec, the [UnicodeDecodeError] of the read is not
    among the caught classes: the call raises it, and sends no request. *)
Theorem undecodable_cache_raises (feed_type feed_url : string) (e : env)
    (w : world) (t : Q) (c : string) :
  dict_get feed_type feed_urls = Some feed_url ->
  makedirs_ok e w ->
  cache_stat e w (get_cache_filename feed_url) = Some (Node t (Reg c)) ->
  (float_sub (clock e) t < CACHE_DURATION)%Q ->
  open_read_error e = None ->
  decode_text c = None ->
  outcome_of (fetch feed_type e w)
    = Raise (Exn UnicodeDecodeError "codec can't decode byte")
  /\ ~ In (EvGet feed_url) (trace_of (fetch feed_type e w)).
Proof.
  intros Hf Hok Hc Ht Hr Hd.
  rewrite (fetch_known_run _ _ _ _ Hf Hok). cbv zeta. rewrite Hc.
  cbn [mtime]. apply Qltb_lt in Ht. rewrite Ht.
  rewrite try_cached_run, Hr. rewrite validity_trace_eq. rewrite cache_stat_eq in Hc.
  rewrite Hc, Hd. unfold outcome_of, trace_of. cbn [fst snd].
  split; [reflexivity|].
  unfold ensure_cache_dir_trace.
  intros Hin. case_bool_decide; cbn in Hin; no_such_event Hin.
Qed.

(** The handled part of C4: a cache file within its time to live that
    cannot be opened, or whose text is rejected as not JSON, makes the
    call go on with the fresh fetch, whose outcome it returns. *)
Lemma unusable_cache_falls_through (feed_type feed_url : string) (e : env)
    (w : world) (n : node) :
  dict_get feed_type feed_urls = Some feed_url ->
  makedirs_ok e w ->
  cache_stat e w (get_cache_filename feed_url) = Some n ->
  within_ttl e n ->
  (is_Some (open_read_error e)
   \/ kind n = Dir
   \/ exists c s diagnostic,
        kind n = Reg c /\ decode_text c = Some s /\ loads s = None
        /\ loads_error s = NotJson diagnostic) ->
  fetch feed_type e w =
    let '(r, w2, t') :=
      fresh_fetch feed_url (get_cache_filename feed_url) e (with_cache_dir e w) in
    (r, w2,
     ensure_cache_dir_trace w
       ++ [EvExists (get_cache_filename feed_url);
           EvGetmtime (get_cache_filename feed_url);
           EvRead (get_cache_filename feed_url)] ++ t').
Proof.
  intros Hf Hok Hc Ht Hbad.
  rewrite (fetch_known_run _ _ _ _ Hf Hok). cbv zeta. rewrite Hc.
  apply Qltb_within_ttl in Ht. rewrite Ht.
  rewrite try_cached_run, validity_trace_eq. rewrite cache_stat_eq in Hc. rewrite Hc.
  unfold outcome_of. cbn [fst snd].
  assert (Hnone :
    match open_read_error e with
    | Some _ => Ret None
    | None =>
        match n with
        | {| kind := Dir |} => Ret None
        | {| kind := Reg c |} =>
            match decode_text c with
            | Some s => match loads s with
                        | Some v => Ret (Some v)
                        | None =>
                            match loads_error s with
                            | NotJson _ => Ret None
                            | ParseFault f msg => Raise (Exn (fault_class f) msg)
                            end
                        end
            | None => Raise (Exn UnicodeDecodeError "codec can't decode byte")
            end
        end
    end = Ret (None : option (json F))).
  { destruct Hbad as [[msg ->] | [Hk | (c & s & d & Hk & Hd & Hl & He)]]; [reflexivity| |].
    - destruct (open_read_error e); [reflexivity|]. destruct n as [? k]. cbn in Hk.
      subst k. reflexivity.
    - destruct (open_read_error e); [reflexivity|]. destruct n as [? k]. cbn in Hk.
      subst k. rewrite Hd, Hl, He. reflexivity. }
  rewrite Hnone.
  destruct (fresh_fetch feed_url (get_cache_filename feed_url) e (with_cache_dir e w))
    as [[r w2] t'].
  rewrite <- !app_assoc. reflexivity.
Qed.

Lemma makedirs_ok_or_not (e : env) (w : world) :
  makedirs_ok e w
  \/ (w !! CACHE_DIR = None /\ exists msg, makedirs_error e = Some msg).
Proof.
  unfold makedirs_ok.
  destruct (w !! CACHE_DIR) as [n|]; [left; left; eauto|].
  destruct (makedirs_error e) as [msg|]; [right; eauto | left; right; reflexivity].
Qed.

(** What the fresh fetch leaves: the filesystem as it was, or with the
    cache file rewritten. *)
Lemma try_fresh_world (feed_url cache_file : string) (e : env) (w : world) :
  world_of (fresh_fetch feed_url cache_file e w) = w
  \/ exists c, world_of (fresh_fetch feed_url cache_file e w)
               = <[cache_file := Node (fs_clock e) (Reg c)]> w.
Proof.
  destruct (try_fresh_cases feed_url cache_file e w)
    as [(details & Hfr)
       | [(r & f & msg & _ & _ & _ & _ & Hfr)
         | [(r & data & x & _ & _ & _ & _ & Hfr)
           | [(r & data & gave_up & _ & _ & _ & _ & _ & Hfr)
             | (r & data & _ & _ & _ & _ & _ & Hfr)]]]];
    rewrite Hfr; unfold world_of; cbn [fst snd]; eauto.
Qed.

(** A call writes at most the cache directory and the cache file of its
    own feed. *)
Lemma fetch_frame (feed_type feed_url : string) (e : env) (w : world) (p : string) :
  dict_get feed_type feed_urls = Some feed_url ->
  p <> CACHE_DIR ->
  p <> get_cache_filename feed_url ->
  world_of (fetch feed_type e w) !! p = w !! p.
Proof.
  intros Hf Hp1 Hp2.
  destruct (makedirs_ok_or_not e w) as [Hok | (Hd & msg & Hm)].
  - pose proof (fetch_known_cases _ _ e w Hf Hok) as Hcases. cbv zeta in Hcases.
    destruct Hcases
      as [(t & c & s & v & _ & _ & _ & _ & _ & Heq)
         | [(t & c & x & _ & _ & _ & _ & Heq) | (tr & _ & Heq)]];
      rewrite Heq; unfold world_of; cbn [fst snd].
    + apply with_cache_dir_lookup, Hp1.
    + apply with_cache_dir_lookup, Hp1.
    + pose proof (try_fresh_world feed_url (get_cache_filename feed_url) e
                    (with_cache_dir e w)) as Hw. unfold world_of in Hw.
      destruct (fresh_fetch feed_url (get_cache_filename feed_url) e
                  (with_cache_dir e w)) as [[r w2] t']. cbn [fst snd] in *.
      destruct Hw as [-> | [c ->]].
      * apply with_cache_dir_lookup, Hp1.
      * rewrite lookup_insert_ne by congruence. apply with_cache_dir_lookup, Hp1.
  - rewrite (fetch_makedirs_fails _ _ _ _ Hd Hm). reflexivity.
Qed.

(** The events before the fresh fetch hold no request and no write. *)
Lemma prefix_events (e : env) (w : world) (cache_file : string)
    (tr rest : list event) (ev : event) :
  tr = [] \/ tr = [EvRead cache_file] ->
  is_request ev || is_write ev = true ->
  In ev (ensure_cache_dir_trace w ++ validity_trace e w cache_file ++ tr ++ rest) ->
  In ev rest.
Proof.
  intros Htr Hev Hin.
  apply in_app_or in Hin. destruct Hin as [Hin | Hin].
  { exfalso. unfold ensure_cache_dir_trace in Hin.
    case_bool_decide; cbn in Hin; destruct ev; try discriminate Hev;
      no_such_event Hin. }
  apply in_app_or in Hin. destruct Hin as [Hin | Hin].
  { exfalso. rewrite validity_trace_eq in Hin.
    destruct (stat _ _); cbn in Hin; destruct ev; try discriminate Hev;
      no_such_event Hin. }
  apply in_app_or in Hin. destruct Hin as [Hin | Hin]; [|exact Hin].
  exfalso. destruct Htr as [-> | ->]; cbn in Hin; destruct ev;
    try discriminate Hev; no_such_event Hin.
Qed.

Lemma prefix_quiet (e : env) (w : world) (cache_file : string)
    (tr : list event) (ev : event) :
  tr = [] \/ tr = [EvRead cache_file] ->
  is_request ev || is_write ev = true ->
  ~ In ev (ensure_cache_dir_trace w ++ validity_trace e w cache_file ++ tr).
Proof.
  intros Htr Hev Hin.
  rewrite <- (app_nil_r tr) in Hin.
  apply (prefix_events _ _ _ _ _ _ Htr Hev) in Hin. destruct Hin.
Qed.

(** C10 (as amended): when the request for a catalogued feed fails
    (time-out, refused connection, error status), the call writes no cache
    file: nothing is opened for writing, and every path other than the
    cache directory holds what it held before.  The one change there can
    be is the cache directory itself, created when it was absent; with the
    directory already there the filesystem is exactly as before.  If the
    request was sent, the call returns the error value. *)
Theorem network_failure_keeps_cache (feed_type feed_url : string) (e : env)
    (w : world) :
  dict_get feed_type feed_urls = Some feed_url ->
  network_fails e feed_url ->
  (forall p, p <> CACHE_DIR -> world_of (fetch feed_type e w) !! p = w !! p)
  /\ (is_Some (w !! CACHE_DIR) -> world_of (fetch feed_type e w) = w)
  /\ (forall p, ~ In (EvWrite p) (trace_of (fetch feed_type e w)))
  /\ (In (EvGet feed_url) (trace_of (fetch feed_type e w)) ->
      exists details,
        outcome_of (fetch feed_type e w)
        = Ret (JDict [("error",
                 JStr ("Failed to fetch earthquake data: " +:+ details))])).
Proof.
  intros Hf Hn.
  destruct (makedirs_ok_or_not e w) as [Hok | (Hd & msg & Hm)].
  - assert (Hshape : exists r t,
               fetch feed_type e w = (r, with_cache_dir e w, t)
               /\ (forall p, ~ In (EvWrite p) t)
               /\ (In (EvGet feed_url) t -> exists details,
                     r = Ret (error_result
                            ("Failed to fetch earthquake data: " +:+ details)))).
    { pose proof (fetch_known_cases _ _ e w Hf Hok) as Hcases. cbv zeta in Hcases.
      destruct Hcases
        as [(t & c & s & v & Hc & _ & _ & _ & _ & Heq)
           | [(t & c & x & Hc & _ & _ & _ & Heq) | (tr & Htr & Heq)]]; rewrite Heq.
      - eexists _, _. split; [reflexivity|].
        split; [intros p Hin | intros Hin]; exfalso; rewrite <- app_assoc in Hin;
          revert Hin; apply prefix_quiet; auto.
      - eexists _, _. split; [reflexivity|].
        split; [intros p Hin | intros Hin]; exfalso; rewrite <- app_assoc in Hin;
          revert Hin; apply prefix_quiet; auto.
      - destruct (try_fresh_network_fails feed_url (get_cache_filename feed_url)
                    e (with_cache_dir e w) Hn) as [details Hfr].
        rewrite Hfr. eexists _, _. split; [reflexivity|].
        split; [|intros _; exists details; reflexivity].
        intros p Hin. rewrite <- app_assoc in Hin.
        apply prefix_events in Hin; auto. no_such_event Hin. }
    destruct Hshape as (r & t & Heq & Hnw & Hget). rewrite Heq.
    unfold world_of, trace_of, outcome_of. cbn [fst snd].
    split; [intros p Hp; apply with_cache_dir_lookup, Hp|].
    split; [apply with_cache_dir_id|]. split; assumption.
  - rewrite (fetch_makedirs_fails _ _ _ _ Hd Hm).
    unfold world_of, trace_of, outcome_of. cbn [fst snd].
    split; [reflexivity|]. split; [reflexivity|].
    split; [intros p Hin | intros Hin]; no_such_event Hin.
Qed.

(** A call that sent its request goes through the fresh fetch. *)
Lemma request_sent_inv (feed_type feed_url : string) (e : env) (w : world) :
  dict_get feed_type feed_urls = Some feed_url ->
  In (EvGet feed_url) (trace_of (fetch feed_type e w)) ->
  makedirs_ok e w
  /\ exists tr,
      (tr = [] \/ tr = [EvRead (get_cache_filename feed_url)])
      /\ fetch feed_type e w =
           let '(r, w2, t') :=
             fresh_fetch feed_url (get_cache_filename feed_url) e (with_cache_dir e w) in
           (r, w2, (ensure_cache_dir_trace w
                      ++ validity_trace e w (get_cache_filename feed_url))
                     ++ tr ++ t').
Proof.
  intros Hf Hin.
  destruct (makedirs_ok_or_not e w) as [Hok | (Hd & msg & Hm)].
  - split; [exact Hok|].
    pose proof (fetch_known_cases _ _ e w Hf Hok) as Hcases. cbv zeta in Hcases.
    destruct Hcases
      as [(t & c & s & v & Hc & _ & _ & _ & _ & Heq)
         | [(t & c & x & Hc & _ & _ & _ & Heq) | (tr & Htr & Heq)]].
    + exfalso. rewrite Heq in Hin. cbn [trace_of snd] in Hin.
      rewrite <- app_assoc in Hin. revert Hin. apply prefix_quiet; auto.
    + exfalso. rewrite Heq in Hin. cbn [trace_of snd] in Hin.
      rewrite <- app_assoc in Hin. revert Hin. apply prefix_quiet; auto.
    + exists tr. split; assumption.
  - exfalso. rewrite (fetch_makedirs_fails _ _ _ _ Hd Hm) in Hin.
    cbn in Hin. no_such_event Hin.
Qed.

(** A call that returned a value and wrote the cache file has received a
    response, parsed it, and stored the serialisation of the parsed value. *)
Lemma successful_fetch_inv (feed_type feed_url : string) (e : env) (w : world)
    (data : json F) :
  dict_get feed_type feed_urls = Some feed_url ->
  outcome_of (fetch feed_type e w) = Ret data ->
  In (EvWrite (get_cache_filename feed_url)) (trace_of (fetch feed_type e w)) ->
  exists r,
    http e feed_url = HttpResponds r
    /\ ~ (400 <= status_code r < 600)
    /\ loads (text r) = Some data
    /\ dump_error data = None
    /\ makedirs_ok e w
    /\ open_write_ok e (with_cache_dir e w) (get_cache_filename feed_url)
    /\ world_of (fetch feed_type e w)
       = <[get_cache_filename feed_url := Node (fs_clock e) (Reg (dumps data))]>
           (with_cache_dir e w).
Proof.
  intros Hf Hret Hin.
  destruct (makedirs_ok_or_not e w) as [Hok | (Hd & msg & Hm)].
  - pose proof (fetch_known_cases _ _ e w Hf Hok) as Hcases. cbv zeta in Hcases.
    destruct Hcases
      as [(t & c & s & v & Hc & _ & _ & _ & _ & Heq)
         | [(t & c & x & Hc & _ & _ & _ & Heq) | (tr & Htr & Heq)]];
      rewrite Heq in Hret, Hin |- *.
    + exfalso. cbn [trace_of snd] in Hin.
      rewrite <- app_assoc in Hin. revert Hin. apply prefix_quiet; auto.
    + discriminate Hret.
    + destruct (try_fresh_cases feed_url (get_cache_filename feed_url) e
                  (with_cache_dir e w))
        as [(details & Hfr)
           | [(r & f & msg & _ & _ & _ & _ & Hfr)
             | [(r & data' & x & _ & _ & _ & _ & Hfr)
               | [(r & data' & gave_up & _ & _ & _ & _ & _ & Hfr)
                 | (r & data' & Hh & Hst & Hl & Hw & Hd & Hfr)]]]];
        rewrite Hfr in Hret, Hin |- *; try discriminate Hret.
      * exfalso. cbn [trace_of snd] in Hin. rewrite <- app_assoc in Hin.
        apply prefix_events in Hin; auto. no_such_event Hin.
      * injection Hret as ->. exists r. repeat split; assumption || reflexivity.
  - rewrite (fetch_makedirs_fails _ _ _ _ Hd Hm) in Hret. discriminate Hret.
Qed.

(** C6 (as amended): on a successful network fetch, that is when the call
    sends its request, the response has no error status, its body parses
    and the cache file can be written, the call returns the parsed body
    and serialises it anew into the cache path, replacing whatever was
    there: the cache file holds [json.dumps] of the parsed body, stamped
    with the time of the write, and no other cache file changes.  The
    bytes received are not kept; what is kept parses to the same structure
    as the body whenever the decoder reads back what the serialiser
    wrote. *)
Theorem successful_fetch_caches_dump (feed_type feed_url : string) (e : env)
    (w : world) (r : response) (data : json F) :
  dict_get feed_type feed_urls = Some feed_url ->
  In (EvGet feed_url) (trace_of (fetch feed_type e w)) ->
  http e feed_url = HttpResponds r ->
  ~ (400 <= status_code r < 600) ->
  loads (text r) = Some data ->
  dump_error data = None ->
  open_write_ok e (with_cache_dir e w) (get_cache_filename feed_url) ->
  outcome_of (fetch feed_type e w) = Ret data
  /\ In (EvWrite (get_cache_filename feed_url)) (trace_of (fetch feed_type e w))
  /\ stat (world_of (fetch feed_type e w)) (get_cache_filename feed_url)
     = Some (Node (fs_clock e) (Reg (dumps data)))
  /\ (forall p, p <> get_cache_filename feed_url -> p <> CACHE_DIR ->
        world_of (fetch feed_type e w) !! p = w !! p)
  /\ (loads (dumps data) = Some data -> loads (dumps data) = loads (text r)).
Proof.
  intros Hf Hin Hh Hst Hl Hd Hw.
  destruct (request_sent_inv _ _ _ _ Hf Hin) as (Hok & tr & Htr & Heq).
  split; [|split; [|split; [|split]]].
  - rewrite Heq, try_fresh_run, Hh, (status_ok _ Hst), Hl, Hw, Hd. reflexivity.
  - rewrite Heq, try_fresh_run, Hh, (status_ok _ Hst), Hl, Hw, Hd.
    cbn [trace_of snd]. apply in_or_app. right. apply in_or_app. right.
    right. left. reflexivity.
  - rewrite Heq, try_fresh_run, Hh, (status_ok _ Hst), Hl, Hw, Hd.
    cbn [world_of fst snd]. rewrite stat_cache_file.
    rewrite lookup_insert_ne by apply cache_file_not_cache_dir.
    unfold open_write_ok, open_write_failure in Hw.
    destruct (open_write_error e); [discriminate|].
    rewrite path_error_cache_file in Hw.
    destruct (with_cache_dir e w !! CACHE_DIR) as [[t [|c]]|]; try discriminate.
    apply lookup_insert_eq.
  - intros p Hp1 Hp2. apply (fetch_frame _ _ _ _ _ Hf Hp2 Hp1).
  - intros Hrt. rewrite Hrt, Hl. reflexivity.
Qed.

(** The handled case of a corrupted cache, through to the end: the cached
    text is rejected as not JSON, the request succeeds; the call returns
    the fresh value and the cache file now holds its serialisation. *)
Lemma unparsable_cache_is_replaced (feed_type feed_url : string) (e : env)
    (w : world) (t : Q) (c s diagnostic : string) (r : response) (data : json F) :
  dict_get feed_type feed_urls = Some feed_url ->
  makedirs_ok e w ->
  cache_stat e w (get_cache_filename feed_url) = Some (Node t (Reg c)) ->
  within_ttl e (Node t (Reg c)) ->
  decode_text c = Some s ->
  loads s = None ->
  loads_error s = NotJson diagnostic ->
  http e feed_url = HttpResponds r ->
  ~ (400 <= status_code r < 600) ->
  loads (text r) = Some data ->
  dump_error data = None ->
  open_write_ok e (with_cache_dir e w) (get_cache_filename feed_url) ->
  outcome_of (fetch feed_type e w) = Ret data
  /\ world_of (fetch feed_type e w) !! get_cache_filename feed_url
     = Some (Node (fs_clock e) (Reg (dumps data)))
  /\ In (EvGet feed_url) (trace_of (fetch feed_type e w)).
Proof.
  intros Hf Hok Hc Ht Hd Hl He Hh Hst Hbody Hdump Hw.
  rewrite (unusable_cache_falls_through _ _ _ _ _ Hf Hok Hc Ht)
    by (right; right; exists c, s, diagnostic; repeat split; assumption).
  rewrite try_fresh_run, Hh, Hbody, (status_ok _ Hst), Hw, Hdump.
  unfold outcome_of, world_of, trace_of. cbn [fst snd].
  split; [reflexivity|]. split; [apply lookup_insert_eq|].
  apply in_or_app. right. cbn. intuition auto.
Qed.


(** A call that finds a cached file within its time to live, readable and
    holding a parsable document returns the parsed value at once, leaving
    the filesystem as it is and sending no request. *)
Lemma cache_hit_run (feed_type feed_url : string) (e : env) (w : world)
    (t : Q) (c s : string) (v : json F) :
  dict_get feed_type feed_urls = Some feed_url ->
  is_Some (w !! CACHE_DIR) ->
  stat w (get_cache_filename feed_url) = Some (Node t (Reg c)) ->
  (float_sub (clock e) t < CACHE_DURATION)%Q ->
  open_read_error e = None ->
  decode_text c = Some s ->
  loads s = Some v ->
  fetch feed_type e w =
    (Ret v, w,
     [EvExists CACHE_DIR; EvExists (get_cache_filename feed_url);
      EvGetmtime (get_cache_filename feed_url);
      EvRead (get_cache_filename feed_url)]).
Proof.
  intros Hf Hdir Hc Ht Hr Hd Hl.
  rewrite (fetch_known_run _ _ _ _ Hf (or_introl Hdir)). cbv zeta.
  rewrite validity_trace_eq, cache_stat_eq, (with_cache_dir_id _ _ Hdir).
  rewrite Hc. cbn [mtime]. apply Qltb_lt in Ht. rewrite Ht.
  rewrite try_cached_run, Hr, Hc, Hd, Hl.
  unfold outcome_of, ensure_cache_dir_trace. cbn [fst snd].
  rewrite bool_decide_eq_true_2 by assumption. reflexivity.
Qed.

(** Calls made while the cache file is within its time to live and holds
    a document that parses: each is a cache hit. *)
Lemma cached_calls_run (feed_type feed_url : string) (w : world) (t : Q)
    (c s : string) (data : json F) (later : list env) :
  dict_get feed_type feed_urls = Some feed_url ->
  is_Some (w !! CACHE_DIR) ->
  stat w (get_cache_filename feed_url) = Some (Node t (Reg c)) ->
  decode_text c = Some s ->
  loads s = Some data ->
  Forall (fun e => (float_sub (clock e) t < CACHE_DURATION)%Q
                   /\ open_read_error e = None) later ->
  calls decode_text loads loads_error dumps dump_error feed_type later w
  = (map (fun _ =>
            (Ret data,
             [EvExists CACHE_DIR; EvExists (get_cache_filename feed_url);
              EvGetmtime (get_cache_filename feed_url);
              EvRead (get_cache_filename feed_url)])) later,
     w).
Proof.
  intros Hf Hdir Hfile Hd Hl Hlater.
  induction Hlater as [|e later [Ht Hr] _ IH]; [reflexivity|].
  cbn [calls map].
  rewrite (cache_hit_run _ _ e w _ _ _ data Hf Hdir Hfile Ht Hr Hd Hl).
  rewrite IH. reflexivity.
Qed.


(** C7: [get_available_feeds] is the fixed list of the twenty identifiers
    of the catalog, in the order of the catalog, and each of them resolves
    there.  A call for one of them is the computation of the resolved
    branch, in which the error value for an invalid feed type does not
    occur: the call never answers with that value of its own making, it
    could only hand on a cached or received document that parses to it. *)
Theorem get_available_feeds_catalog :
  get_available_feeds = map fst feed_urls
  /\ length get_available_feeds = 20%nat
  /\ forall feed_type, In feed_type get_available_feeds ->
       exists feed_url,
         dict_get feed_type feed_urls = Some feed_url
         /\ fetch feed_type =
              (ensure_cache_dir;;
               valid ← is_cache_valid (get_cache_filename feed_url);
               hit ← (if (valid : bool) then cached (get_cache_filename feed_url)
                      else mret None);
               match (hit : option (json F)) with
               | Some v => mret v
               | None => fresh_fetch feed_url (get_cache_filename feed_url)
               end)
         /\ forall e w,
              outcome_of (fetch feed_type e w)
              = Ret (JDict [("error", JStr ("Invalid feed type: " +:+ feed_type))]) ->
              (exists t c s,
                  w !! get_cache_filename feed_url = Some (Node t (Reg c))
                  /\ decode_text c = Some s
                  /\ loads s
                     = Some (JDict [("error", JStr ("Invalid feed type: " +:+ feed_type))]))
              \/ (exists r,
                  http e feed_url = HttpResponds r
                  /\ loads (text r)
                     = Some (JDict [("error", JStr ("Invalid feed type: " +:+ feed_type))])).
Proof.
  split; [reflexivity|]. split; [reflexivity|].
  intros feed_type Hin.
  assert (Hres : exists feed_url, dict_get feed_type feed_urls = Some feed_url).
  { cbn in Hin.
    repeat (destruct Hin as [<- | Hin]; [eexists; reflexivity|]). contradiction. }
  destruct Hres as [feed_url Hf]. exists feed_url. split; [exact Hf|].
  split; [rewrite fetch_earthquake_data_blocks, Hf; reflexivity|].
  intros e w Hret.
  destruct (makedirs_ok_or_not e w) as [Hok | (Hd & msg & Hm)].
  - pose proof (fetch_known_cases _ _ e w Hf Hok) as Hcases. cbv zeta in Hcases.
    destruct Hcases
      as [(t & c & s & v & Hc & _ & _ & Hdec & Hl & Heq)
         | [(t & c & x & Hc & _ & _ & _ & Heq) | (tr & Htr & Heq)]];
      rewrite Heq in Hret.
    + left. injection Hret as ->. apply cache_stat_lookup in Hc.
      exists t, c, s. repeat split; assumption.
    + discriminate Hret.
    + destruct (try_fresh_cases feed_url (get_cache_filename feed_url) e
                  (with_cache_dir e w))
        as [(details & Hfr)
           | [(r & f & msg & _ & _ & _ & _ & Hfr)
             | [(r & data & x & _ & _ & _ & _ & Hfr)
               | [(r & data & gave_up & _ & _ & _ & _ & _ & Hfr)
                 | (r & data & Hh & _ & Hl & _ & _ & Hfr)]]]];
        rewrite Hfr in Hret; try discriminate Hret.
      right. injection Hret as ->. exists r. split; assumption.
  - rewrite (fetch_makedirs_fails _ _ _ _ Hd Hm) in Hret. discriminate Hret.
Qed.

(** Every action of a call for a catalogued feed is on the cache
    directory, on the cache file of the feed, or the request itself. *)
Lemma fetch_trace_paths (feed_type feed_url : string) (e : env) (w : world)
    (ev : event) :
  dict_get feed_type feed_urls = Some feed_url ->
  In ev (trace_of (fetch feed_type e w)) ->
  In ev [EvExists CACHE_DIR; EvMakedirs CACHE_DIR;
         EvExists (get_cache_filename feed_url);
         EvGetmtime (get_cache_filename feed_url);
         EvRead (get_cache_filename feed_url);
         EvGet feed_url;
         EvWrite (get_cache_filename feed_url)].
Proof.
  intros Hf.
  assert (Hpre : forall tr,
    tr = [] \/ tr = [EvRead (get_cache_filename feed_url)] ->
    In ev ((ensure_cache_dir_trace w
              ++ validity_trace e w (get_cache_filename feed_url)) ++ tr) ->
    In ev [EvExists CACHE_DIR; EvMakedirs CACHE_DIR;
           EvExists (get_cache_filename feed_url);
           EvGetmtime (get_cache_filename feed_url);
           EvRead (get_cache_filename feed_url);
           EvGet feed_url;
           EvWrite (get_cache_filename feed_url)]).
  { intros tr Htr. rewrite validity_trace_eq. unfold ensure_cache_dir_trace.
    destruct Htr as [-> | ->]; destruct (stat _ _); case_bool_decide; cbn;
      intuition auto. }
  destruct (makedirs_ok_or_not e w) as [Hok | (Hd & msg & Hm)].
  - pose proof (fetch_known_cases _ _ e w Hf Hok) as Hcases. cbv zeta in Hcases.
    destruct Hcases
      as [(t & c & s & v & Hc & _ & _ & _ & _ & Heq)
         | [(t & c & x & Hc & _ & _ & _ & Heq) | (tr & Htr & Heq)]];
      rewrite Heq.
    + cbn [trace_of snd]. apply Hpre. auto.
    + cbn [trace_of snd]. apply Hpre. auto.
    + assert (Hfr : forall ev', In ev' (trace_of
                 (fresh_fetch feed_url (get_cache_filename feed_url) e
                    (with_cache_dir e w))) ->
               ev' = EvGet feed_url \/ ev' = EvWrite (get_cache_filename feed_url)).
      { intros ev'.
        destruct (try_fresh_cases feed_url (get_cache_filename feed_url) e
                    (with_cache_dir e w))
          as [(details & Hfr)
             | [(r & f & msg & _ & _ & _ & _ & Hfr)
               | [(r & data & x & _ & _ & _ & _ & Hfr)
                 | [(r & data & gave_up & _ & _ & _ & _ & _ & Hfr)
                   | (r & data & _ & _ & _ & _ & _ & Hfr)]]]];
          rewrite Hfr; cbn; intuition auto. }
      destruct (fresh_fetch feed_url (get_cache_filename feed_url) e
                  (with_cache_dir e w)) as [[r w2] t'].
      cbn [trace_of snd] in *. rewrite app_assoc. intros Hin.
      apply in_app_or in Hin. destruct Hin as [Hin | Hin].
      * apply (Hpre tr Htr Hin).
      * destruct (Hfr ev Hin) as [-> | ->]; cbn; intuition auto.
  - rewrite (fetch_makedirs_fails _ _ _ _ Hd Hm). cbn. intuition auto.
Qed.

(** C8: the cache path is a function of the URL alone: the cache
    directory, then the fixed prefix, the 32 lowercase hexadecimal digits
    of the MD5 digest of the URL in UTF-8 and the fixed suffix.  Equal URLs
    give equal paths; the path is made of portable filename characters;
    and in whatever filesystem and at whatever time a call for the feed
    runs, this path is the cache file it works on. *)
Theorem get_cache_filename_deterministic (feed_url : string) :
  get_cache_filename feed_url
  = "cache/earthquake_data_" +:+ MD5.hexdigest (str_encode feed_url) +:+ ".json"
  /\ String.length (MD5.hexdigest (str_encode feed_url)) = 32%nat
  /\ forallb is_lower_hex
       (list_ascii_of_string (MD5.hexdigest (str_encode feed_url))) = true
  /\ (forall other_url, other_url = feed_url ->
        get_cache_filename other_url = get_cache_filename feed_url)
  /\ filesystem_safe (get_cache_filename feed_url)
  /\ (forall feed_type e w ev,
        dict_get feed_type feed_urls = Some feed_url ->
        In ev (trace_of (fetch feed_type e w)) ->
        In ev [EvExists CACHE_DIR; EvMakedirs CACHE_DIR;
               EvExists (get_cache_filename feed_url);
               EvGetmtime (get_cache_filename feed_url);
               EvRead (get_cache_filename feed_url);
               EvGet feed_url;
               EvWrite (get_cache_filename feed_url)]).
Proof.
  destruct (hexdigest_lower_hex (str_encode feed_url)) as [Hhex Hlen].
  split; [reflexivity|]. split; [exact Hlen|]. split; [exact Hhex|].
  split; [intros ? ->; reflexivity|]. split.
  - exists ("earthquake_data_" +:+ MD5.hexdigest (str_encode feed_url) +:+ ".json").
    split; [reflexivity|]. split.
    + rewrite !list_ascii_of_string_app, !forallb_app.
      rewrite (forallb_impl _ _ _ lower_hex_portable Hhex). reflexivity.
    + rewrite !string_length_app, Hlen. cbn. lia.
  - intros feed_type e w ev. apply fetch_trace_paths.
Qed.

(** C9: the twenty URLs of the catalog are pairwise distinct and so are
    their cache paths; hence two different feed identifiers never share a
    cache file, and a call for one of them leaves the cache file of the
    other as it is. *)
Theorem feeds_have_distinct_cache_files :
  NoDup (map snd feed_urls)
  /\ NoDup (map (fun kv => get_cache_filename (snd kv)) feed_urls)
  /\ forall f1 f2 u1 u2,
       f1 <> f2 ->
       dict_get f1 feed_urls = Some u1 ->
       dict_get f2 feed_urls = Some u2 ->
       get_cache_filename u1 <> get_cache_filename u2
       /\ forall e w,
            world_of (fetch f1 e w) !! get_cache_filename u2
            = w !! get_cache_filename u2.
Proof.
  assert (Hpaths : NoDup (map (fun kv => get_cache_filename (snd kv)) feed_urls))
    by exact catalog_cache_paths_distinct.
  split; [exact catalog_urls_distinct|]. split; [exact Hpaths|].
  intros f1 f2 u1 u2 Hne H1 H2.
  assert (Hdiff : get_cache_filename u1 <> get_cache_filename u2).
  { intros Heq. apply Hne.
    apply dict_get_In in H1. apply dict_get_In in H2.
    pose proof (NoDup_map_injective_on _ _ Hpaths _ _ H1 H2 Heq) as Hpair.
    congruence. }
  split; [exact Hdiff|].
  intros e w. apply (fetch_frame _ _ _ _ _ H1).
  - apply cache_file_not_cache_dir.
  - congruence.
Qed.

End FetcherFacts.

(** ** The concrete codec reads back what it writes *)

Module PyJsonFacts.
Import PyJson.

Lemma value_ind (P : value -> Prop) :
  P JNull ->
  (forall b, P (JBool b)) ->
  (forall z, P (JInt z)) ->
  (forall s, P (JStr s)) ->
  (forall l, Forall P l -> P (JList l)) ->
  (forall kv, Forall (fun p => P (snd p)) kv -> P (JDict kv)) ->
  forall v, P v.
Proof.
  intros Hnull Hbool Hint Hstr Hlist Hdict.
  fix IH 1. intros [| b | z | [] | s | l | kv].
  - exact Hnull.
  - apply Hbool.
  - apply Hint.
  - apply Hstr.
  - apply Hlist. induction l as [|x l IHl]; constructor; [apply IH | exact IHl].
  - apply Hdict. induction kv as [|[k x] kv IHkv]; constructor; [apply IH | exact IHkv].
Qed.

(** *** Strings *)

Lemma parse_chars_escape (opening : list ascii) (c t : ascii) (tail : list ascii) :
  parse_chars opening (escape_char c ++ t :: tail)
  = pmap (cons c) (parse_chars opening (t :: tail)).
Proof.
  destruct c as [[] [] [] [] [] [] [] []]; reflexivity.
Qed.

Lemma parse_chars_encoded (opening cs rest : list ascii) :
  parse_chars opening (concat (map escape_char cs) ++ dquote :: rest) = POk cs rest.
Proof.
  induction cs as [|c cs IH]; [reflexivity|].
  cbn [map concat]. rewrite <- app_assoc.
  destruct (concat (map escape_char cs) ++ dquote :: rest) as [|t tail] eqn:Ht.
  { destruct (concat (map escape_char cs)); discriminate Ht. }
  rewrite parse_chars_escape, IH. reflexivity.
Qed.

Lemma encode_str_parse (opening : list ascii) (s : string) (rest : list ascii) :
  exists body,
    encode_str s ++ rest = dquote :: body
    /\ parse_chars opening body = POk (list_ascii_of_string s) rest.
Proof.
  unfold encode_str. rewrite <- app_comm_cons, <- app_assoc.
  eexists. split; [reflexivity|]. apply parse_chars_encoded.
Qed.

(** *** Integers *)

Lemma scan_digits_chars (u : Decimal.uint) (rest : list ascii) :
  delimited rest -> scan_digits (uint_chars u ++ rest) = (u, rest).
Proof.
  intros Hd. induction u as [|u IH|u IH|u IH|u IH|u IH|u IH|u IH|u IH|u IH|u IH];
    cbn [uint_chars app scan_digits]; try (cbn; rewrite IH; reflexivity).
  destruct rest as [|c rest]; [reflexivity|].
  destruct Hd as [-> | [-> | ->]]; reflexivity.
Qed.

Lemma delimited_no_float_part (rest : list ascii) :
  delimited rest -> starts_float_part rest = false.
Proof.
  destruct rest as [|c [|d rest]]; [reflexivity..|].
  intros [-> | [-> | ->]]; reflexivity.
Qed.

Lemma to_uint_nonnil (n : N) : N.to_uint n <> Decimal.Nil.
Proof.
  destruct n as [|p]; [discriminate|]. apply DecimalPos.Unsigned.to_uint_nonnil.
Qed.

Lemma length_uint_chars (u : Decimal.uint) :
  length (uint_chars u) = Decimal.nb_digits u.
Proof. induction u; cbn [uint_chars length Decimal.nb_digits]; congruence. Qed.

Lemma parse_nat_chars (start : list ascii) (n : N) (rest : list ascii) :
  delimited rest ->
  (Decimal.nb_digits (N.to_uint n) <= int_max_str_digits)%nat ->
  parse_nat start (uint_chars (N.to_uint n) ++ rest) = POk n rest.
Proof.
  intros Hd Hlen. unfold parse_nat. rewrite (scan_digits_chars _ _ Hd).
  rewrite (delimited_no_float_part _ Hd).
  assert (Hnorm : Decimal.unorm (N.to_uint n) = N.to_uint n).
  { rewrite <- DecimalN.Unsigned.to_of, DecimalN.Unsigned.of_to. reflexivity. }
  rewrite Hnorm, (Decimal.internal_uint_dec_lb _ _ eq_refl).
  rewrite DecimalN.Unsigned.of_to.
  apply Nat.ltb_ge in Hlen. rewrite Hlen.
  pose proof (to_uint_nonnil n) as Hnil.
  destruct (N.to_uint n); [congruence|reflexivity..].
Qed.

(** The characters a value can start with. *)
Lemma uint_chars_head (u : Decimal.uint) :
  u <> Decimal.Nil ->
  exists c r, uint_chars u = c :: r /\ In c (list_ascii_of_string "0123456789").
Proof.
  destruct u; [congruence| ..]; intros _; eexists _, _; (split; [reflexivity|]);
    cbn; intuition auto.
Qed.

Lemma parse_int_encoded (z : Z) (rest : list ascii) :
  delimited rest ->
  well_formed (JInt z) = true ->
  parse_int (encode_int z ++ rest) = POk (JInt z) rest.
Proof.
  intros Hd Hwf. cbn [well_formed] in Hwf. apply Nat.leb_le in Hwf.
  unfold encode_int. destruct (Z.ltb_spec z 0) as [Hneg | Hpos].
  - cbn [app parse_int]. replace (Ascii.eqb "-" "-") with true by reflexivity.
    rewrite (parse_nat_chars _ _ _ Hd).
    + cbn [pmap]. do 2 f_equal. lia.
    + replace (Z.to_N (- z)) with (Z.to_N (Z.abs z)) by (f_equal; lia). exact Hwf.
  - replace (Z.abs z) with z in Hwf by lia.
    destruct (uint_chars_head _ (to_uint_nonnil (Z.to_N z))) as (c & r & Hc & Hin).
    pose proof (fun start => parse_nat_chars start (Z.to_N z) rest Hd Hwf) as Hp.
    rewrite Hc in Hp |- *.
    cbn [app parse_int] in Hp |- *.
    replace (Ascii.eqb c "-") with false.
    + rewrite Hp. cbn [pmap]. do 2 f_equal. lia.
    + cbn in Hin. intuition (subst; reflexivity).
Qed.

Lemma encode_int_head (z : Z) :
  exists c r, encode_int z = c :: r /\ In c (list_ascii_of_string "-0123456789").
Proof.
  unfold encode_int. destruct (z <? 0).
  - eexists _, _. split; [reflexivity|]. left. reflexivity.
  - destruct (uint_chars_head _ (to_uint_nonnil (Z.to_N z))) as (c & r & Hc & Hin).
    exists c, r. split; [exact Hc|]. right. exact Hin.
Qed.

Lemma encode_value_head (v : value) :
  exists c r,
    encode_value v = c :: r
    /\ In c (dquote :: list_ascii_of_string "[{ntf-0123456789").
Proof.
  destruct v as [| [] | z | [] | s | l | kv];
    try (eexists _, _; split; [reflexivity|]; cbn; intuition auto; fail).
  destruct (encode_int_head z) as (c & r & Hc & Hin).
  exists c, r. split; [exact Hc|]. cbn in Hin |- *. intuition auto.
Qed.

(** *** Values *)

Lemma parse_value_space (fuel depth : nat) (s : list ascii) :
  parse_value fuel depth (" "%char :: s) = parse_value fuel depth s.
Proof. destruct fuel; reflexivity. Qed.

Lemma parse_elements_space (fuel depth : nat) (s : list ascii) :
  parse_elements fuel depth (" "%char :: s) = parse_elements fuel depth s.
Proof.
  destruct fuel; [reflexivity|]. cbn [parse_elements].
  rewrite parse_value_space. reflexivity.
Qed.

Lemma parse_members_space (fuel depth : nat) (s : list ascii) :
  parse_members fuel depth (" "%char :: s) = parse_members fuel depth s.
Proof. destruct fuel; reflexivity. Qed.

Lemma dict_set_new (k : string) (v : value) (d : list (string * value)) :
  ~ In k (map fst d) -> dict_set k v d = d ++ [(k, v)].
Proof.
  induction d as [|[k' v'] d IH]; cbn [dict_set map fst app In]; [reflexivity|].
  intros Hnot. destruct (String.eqb_spec k k') as [->|Hne].
  - exfalso. apply Hnot. left. reflexivity.
  - rewrite IH; [reflexivity|]. intros Hin. apply Hnot. right. exact Hin.
Qed.

Lemma dict_of_pairs_distinct (pairs acc : list (string * value)) :
  NoDup (map fst (acc ++ pairs)) ->
  fold_left (fun d '(k, v) => dict_set k v d) pairs acc = acc ++ pairs.
Proof.
  revert acc. induction pairs as [|[k v] pairs IH]; intros acc Hnd.
  - rewrite app_nil_r. reflexivity.
  - cbn [fold_left]. rewrite dict_set_new.
    + rewrite IH; rewrite <- app_assoc; [reflexivity | exact Hnd].
    + rewrite map_app in Hnd. apply NoDup_app in Hnd as (_ & Hdisj & _).
      intros Hin. apply (Hdisj k); [apply list_elem_of_In, Hin|].
      left.
Qed.

Lemma parse_elements_encoded (l : list value) :
  l <> [] ->
  Forall reads_back l ->
  forallb well_formed l = true ->
  forall fuel depth rest,
    delimited rest ->
    (length (join_items (map encode_value l)) + 1 < fuel)%nat ->
    Forall (fun x => (nesting x <= depth)%nat) l ->
    parse_elements fuel depth (join_items (map encode_value l) ++ "]"%char :: rest)
    = POk l rest.
Proof.
  intros Hne Hall. induction Hall as [|x l Hx Hall IH]; [congruence|].
  intros Hwf fuel depth rest Hd Hfuel Hdepth. cbn [forallb] in Hwf.
  apply andb_true_iff in Hwf as [Hwx Hwl].
  apply Forall_cons in Hdepth as [Hdx Hdl].
  destruct fuel as [|fuel]; [lia|]. cbn [parse_elements].
  destruct l as [|y l].
  - cbn [map join_items] in Hfuel |- *.
    rewrite (Hx Hwx fuel depth ("]"%char :: rest)); [reflexivity | | lia | exact Hdx].
    right; left; reflexivity.
  - change (join_items (map encode_value (x :: y :: l)))
      with (encode_value x ++ [","%char; " "%char]
              ++ join_items (map encode_value (y :: l))) in Hfuel |- *.
    rewrite !length_app in Hfuel. cbn [length] in Hfuel.
    rewrite <- !app_assoc. cbn [app].
    rewrite (Hx Hwx fuel depth); [| left; reflexivity | lia | exact Hdx].
    cbn [skip_ws is_ws Ascii.eqb Bool.eqb orb].
    replace (Ascii.eqb "," ",") with true by reflexivity.
    rewrite parse_elements_space,
      (IH ltac:(discriminate) Hwl fuel depth rest Hd); [reflexivity | lia | exact Hdl].
Qed.

Lemma parse_members_step (fuel depth : nat) (k : string) (tail : list ascii) :
  parse_members (S fuel) depth (encode_str k ++ [":"%char; " "%char] ++ tail) =
    match parse_value fuel depth tail with
    | POk v r3 =>
        match skip_ws r3 with
        | [] => PErr "Expecting ',' delimiter" []
        | c :: r4 =>
            if Ascii.eqb c "," then pmap (cons (k, v)) (parse_members fuel depth r4)
            else if Ascii.eqb c "}" then POk [(k, v)] r4
            else PErr "Expecting ',' delimiter" (c :: r4)
        end
    | PErr msg rest => PErr msg rest
    | PFault f msg => PFault f msg
    | POutside => POutside
    end.
Proof.
  destruct (encode_str_parse (encode_str k ++ [":"%char; " "%char] ++ tail)
              k ([":"%char; " "%char] ++ tail)) as (body & Hk & Hbody).
  rewrite Hk in Hbody |- *.
  cbn [parse_members].
  change (skip_ws (dquote :: body)) with (dquote :: body). cbv match.
  change (Ascii.eqb dquote dquote) with true. cbv match.
  rewrite Hbody. cbn [app].
  change (skip_ws (":"%char :: " "%char :: tail)) with (":"%char :: " "%char :: tail).
  cbv match. change (Ascii.eqb ":" ":") with true. cbv match.
  rewrite parse_value_space, string_of_list_ascii_of_string. reflexivity.
Qed.

Lemma parse_members_encoded (kv : list (string * value)) :
  kv <> [] ->
  Forall (fun p => reads_back (snd p)) kv ->
  forallb (fun p => well_formed (snd p)) kv = true ->
  forall fuel depth rest,
    delimited rest ->
    (length (join_items
               (map (fun '(k, x) => encode_str k ++ [":"%char; " "%char] ++ encode_value x) kv))
       + 1 < fuel)%nat ->
    Forall (fun p => (nesting (snd p) <= depth)%nat) kv ->
    parse_members fuel depth
      (join_items
         (map (fun '(k, x) => encode_str k ++ [":"%char; " "%char] ++ encode_value x) kv)
         ++ "}"%char :: rest)
    = POk kv rest.
Proof.
  intros Hne Hall. induction Hall as [|[k x] kv Hx Hall IH]; [congruence|].
  intros Hwf fuel depth rest Hd Hfuel Hdepth. cbn [forallb snd] in Hwf, Hx.
  apply andb_true_iff in Hwf as [Hwx Hwl].
  apply Forall_cons in Hdepth as [Hdx Hdl]. cbn [snd] in Hdx.
  destruct fuel as [|fuel]; [lia|].
  destruct kv as [|[k' y] kv].
  - cbn [map join_items] in Hfuel |- *.
    rewrite !length_app in Hfuel. cbn [length] in Hfuel.
    rewrite <- !app_assoc, parse_members_step.
    rewrite (Hx Hwx fuel depth ("}"%char :: rest)); [reflexivity | | lia | exact Hdx].
    right; right; reflexivity.
  - change (join_items (map _ ((k, x) :: (k', y) :: kv)))
      with ((encode_str k ++ [":"%char; " "%char] ++ encode_value x)
              ++ [","%char; " "%char]
              ++ join_items
                   (map (fun '(k, x) => encode_str k ++ [":"%char; " "%char] ++ encode_value x)
                      ((k', y) :: kv))) in Hfuel |- *.
    rewrite !length_app in Hfuel. cbn [length] in Hfuel.
    rewrite <- !app_assoc, parse_members_step.
    rewrite (Hx Hwx fuel depth); [| left; reflexivity | lia | exact Hdx].
    cbn [app].
    change (skip_ws (","%char :: ?s)) with (","%char :: s). cbv match.
    change (Ascii.eqb "," ",") with true. cbv match.
    pose proof (IH ltac:(discriminate) Hwl fuel depth rest Hd ltac:(lia) Hdl) as Hp.
    cbn [app] in Hp. rewrite parse_members_space, Hp. reflexivity.
Qed.

Lemma nesting_list (l : list value) (depth : nat) :
  (nesting (JList l) <= S depth)%nat ->
  Forall (fun x => (nesting x <= depth)%nat) l.
Proof.
  cbn [nesting]. intros H. apply le_S_n in H.
  apply list_max_le in H. apply Forall_map in H. exact H.
Qed.

Lemma nesting_dict (kv : list (string * value)) (depth : nat) :
  (nesting (JDict kv) <= S depth)%nat ->
  Forall (fun p => (nesting (snd p) <= depth)%nat) kv.
Proof.
  cbn [nesting]. intros H. apply le_S_n in H.
  apply list_max_le in H. apply Forall_map in H. exact H.
Qed.

(** Every well-formed value is read back from its encoding. *)
Lemma parse_value_encoded (v : value) : reads_back v.
Proof.
  induction v as [| b | z | s | l IH | kv IH] using value_ind;
    intros Hwf fuel depth rest Hd Hfuel Hdepth; (destruct fuel as [|fuel]; [lia|]).
  - reflexivity.
  - destruct b; reflexivity.
  - cbn [encode_value] in *.
    destruct (encode_int_head z) as (c & r & Hc & Hin).
    pose proof (parse_int_encoded z rest Hd Hwf) as Hp. rewrite Hc in Hp |- *.
    cbn [app] in Hp |- *. cbn in Hin.
    destruct Hin as [<- | Hin].
    { assert (Hr : exists d r', r = d :: r'
                     /\ In d (list_ascii_of_string "0123456789")).
      { unfold encode_int in Hc. destruct (z <? 0).
        - assert (Hr : r = uint_chars (N.to_uint (Z.to_N (- z)))) by congruence.
          rewrite Hr. apply uint_chars_head, to_uint_nonnil.
        - exfalso.
          destruct (uint_chars_head _ (to_uint_nonnil (Z.to_N z)))
            as (c' & r'' & Hc' & Hin').
          rewrite Hc' in Hc. assert (Hm : c' = "-"%char) by congruence.
          subst c'. cbn in Hin'. intuition discriminate. }
      destruct Hr as (d & r' & -> & Hd'). cbn [app] in Hp |- *.
      cbn [parse_value skip_ws is_ws]. cbn in Hd'.
      repeat (destruct Hd' as [<- | Hd']; [exact Hp|]). contradiction Hd'. }
    repeat (destruct Hin as [<- | Hin]; [exact Hp|]). contradiction Hin.
  - cbn [encode_value].
    destruct (encode_str_parse (encode_str s ++ rest) s rest) as (body & Hs & Hbody).
    rewrite Hs in Hbody |- *.
    cbn [parse_value].
    change (skip_ws (dquote :: body)) with (dquote :: body). cbv match.
    change (Ascii.eqb dquote dquote) with true. cbv match.
    rewrite Hbody. cbn [pmap]. rewrite string_of_list_ascii_of_string. reflexivity.
  - destruct depth as [|depth]; [cbn [nesting] in Hdepth; lia|].
    apply nesting_list in Hdepth.
    cbn [encode_value well_formed] in *. cbn [length] in Hfuel.
    rewrite length_app in Hfuel. cbn [length] in Hfuel.
    destruct l as [|x l]; [reflexivity|].
    pose proof (parse_elements_encoded (x :: l) ltac:(discriminate) IH Hwf
                  fuel depth rest Hd ltac:(lia) Hdepth) as Hp.
    rewrite <- app_comm_cons, <- app_assoc. cbn [app parse_value].
    change (skip_ws ("["%char :: ?s)) with ("["%char :: s). cbv match.
    change (Ascii.eqb "[" dquote) with false. cbv match.
    change (Ascii.eqb "[" "[") with true. cbv match.
    destruct (encode_value_head x) as (c & r & Hc & Hin).
    assert (Hjoin : exists r', join_items (map encode_value (x :: l)) = c :: r').
    { destruct l; cbn [map join_items]; rewrite Hc; eexists; reflexivity. }
    destruct Hjoin as (r' & Hjoin). rewrite Hjoin in Hp |- *. cbn [app] in Hp |- *.
    cbn in Hin.
    repeat (destruct Hin as [<- | Hin];
            [cbn [skip_ws is_ws]; cbn; cbn in Hp; rewrite Hp; reflexivity|]).
    contradiction Hin.
  - destruct depth as [|depth]; [cbn [nesting] in Hdepth; lia|].
    apply nesting_dict in Hdepth.
    cbn [encode_value well_formed] in *. cbn [length] in Hfuel.
    rewrite length_app in Hfuel. cbn [length] in Hfuel.
    apply andb_true_iff in Hwf as [Hnd Hwf]. apply bool_decide_eq_true in Hnd.
    destruct kv as [|[k x] kv]; [reflexivity|].
    pose proof (parse_members_encoded ((k, x) :: kv) ltac:(discriminate) IH Hwf
                  fuel depth rest Hd ltac:(lia) Hdepth) as Hp.
    assert (Hjoin : exists r',
               join_items
                 (map (fun '(k, x) => encode_str k ++ [":"%char; " "%char] ++ encode_value x)
                    ((k, x) :: kv)) = dquote :: r').
    { destruct kv; cbn [map join_items]; unfold encode_str; eexists; reflexivity. }
    destruct Hjoin as (r' & Hjoin). rewrite Hjoin in Hp |- *.
    rewrite <- app_comm_cons, <- app_assoc. cbn [app parse_value] in Hp |- *.
    change (skip_ws ("{"%char :: ?s)) with ("{"%char :: s). cbv match.
    change (Ascii.eqb "{" dquote) with false. cbv match.
    change (Ascii.eqb "{" "[") with false. cbv match.
    change (Ascii.eqb "{" "{") with true. cbv match.
    change (skip_ws (dquote :: ?s)) with (dquote :: s). cbv match.
    change (Ascii.eqb dquote "}") with false. cbv match.
    rewrite Hp. cbn [pmap]. unfold dict_of_pairs.
    rewrite (dict_of_pairs_distinct _ []); [reflexivity | exact Hnd].
Qed.

Lemma loads_dumps_well_formed (v : value) :
  well_formed v = true ->
  (nesting v <= loads_depth)%nat ->
  loads (dumps v) = Some v.
Proof.
  intros Hwf Hdepth. unfold loads, scan, dumps.
  rewrite list_ascii_of_string_of_list_ascii.
  pose proof (parse_value_encoded v Hwf (S (S (2 * length (encode_value v))))
                loads_depth [] I ltac:(lia) Hdepth) as Hp.
  rewrite app_nil_r in Hp. rewrite Hp. reflexivity.
Qed.

(** *** What the decoder builds is well formed *)

Lemma dict_set_keys (k : string) (v : value) (d : list (string * value)) :
  map fst (dict_set k v d)
  = if bool_decide (k ∈ map fst d) then map fst d else map fst d ++ [k].
Proof.
  induction d as [|[k' v'] d IH].
  - cbn. rewrite bool_decide_eq_false_2; [reflexivity|]. apply not_elem_of_nil.
  - cbn [dict_set map fst]. destruct (String.eqb_spec k k') as [->|Hne].
    + rewrite bool_decide_eq_true_2 by (apply elem_of_cons; left; reflexivity).
      reflexivity.
    + cbn [map fst]. rewrite IH. case_bool_decide as Hin.
      * rewrite bool_decide_eq_true_2 by (apply elem_of_cons; right; exact Hin).
        reflexivity.
      * rewrite bool_decide_eq_false_2; [reflexivity|].
        intros [Heq | Hin']%elem_of_cons; [congruence | contradiction].
Qed.

Lemma dict_set_sound (depth : nat) (k : string) (v : value)
    (d : list (string * value)) :
  sound depth v ->
  NoDup (map fst d) ->
  Forall (fun p => sound depth (snd p)) d ->
  NoDup (map fst (dict_set k v d))
  /\ Forall (fun p => sound depth (snd p)) (dict_set k v d).
Proof.
  intros Hv Hnd Hall. split.
  - rewrite dict_set_keys. case_bool_decide as Hin; [exact Hnd|].
    apply NoDup_app. split; [exact Hnd|]. split; [|apply NoDup_singleton].
    intros x Hx Hx'. apply list_elem_of_singleton in Hx'. subst x. contradiction.
  - clear Hnd. induction Hall as [|[k' v'] d Hv' Hall IH]; cbn [dict_set].
    + constructor; [exact Hv | constructor].
    + destruct (String.eqb k k'); constructor; assumption.
Qed.

Lemma dict_of_pairs_sound (depth : nat) (pairs : list (string * value)) :
  Forall (fun p => sound depth (snd p)) pairs ->
  sound (S depth) (JDict (dict_of_pairs pairs)).
Proof.
  intros Hall. unfold dict_of_pairs.
  assert (Hgen : forall acc,
             NoDup (map fst acc) ->
             Forall (fun p => sound depth (snd p)) acc ->
             let d := fold_left (fun d '(k, v) => dict_set k v d) pairs acc in
             NoDup (map fst d) /\ Forall (fun p => sound depth (snd p)) d).
  { induction Hall as [|[k v] pairs Hv Hall IH]; intros acc Hnd Hacc;
      [split; assumption|].
    cbn [fold_left]. cbn [snd] in Hv.
    destruct (dict_set_sound depth k v acc Hv Hnd Hacc) as [Hnd' Hacc'].
    apply (IH _ Hnd' Hacc'). }
  destruct (Hgen [] (NoDup_nil_2) (List.Forall_nil _)) as [Hnd Hs].
  split.
  - cbn [well_formed]. rewrite bool_decide_eq_true_2 by exact Hnd.
    apply forallb_forall. intros p Hp.
    rewrite List.Forall_forall in Hs. apply (Hs p Hp).
  - cbn [nesting]. apply le_n_S, list_max_le, Forall_map.
    eapply Forall_impl; [exact Hs|]. intros p Hp. apply Hp.
Qed.

Lemma list_sound (depth : nat) (l : list value) :
  Forall (sound depth) l -> sound (S depth) (JList l).
Proof.
  intros Hs. split.
  - cbn [well_formed]. apply forallb_forall. intros x Hx.
    rewrite List.Forall_forall in Hs. apply (Hs x Hx).
  - cbn [nesting]. apply le_n_S, list_max_le, Forall_map.
    eapply Forall_impl; [exact Hs|]. intros x Hx. apply Hx.
Qed.

Lemma parse_nat_digits (start s rest : list ascii) (n : N) :
  parse_nat start s = POk n rest ->
  (Decimal.nb_digits (N.to_uint n) <= int_max_str_digits)%nat.
Proof.
  unfold parse_nat. destruct (scan_digits s) as [u r].
  destruct (Decimal.uint_beq (Decimal.unorm u) u) eqn:Hnorm.
  - apply Decimal.internal_uint_dec_bl in Hnorm.
    destruct (starts_float_part r); [destruct u; discriminate|].
    destruct (int_max_str_digits <? Decimal.nb_digits u)%nat eqn:Hlen;
      [destruct u; discriminate|].
    apply Nat.ltb_ge in Hlen.
    intros H. assert (Hn : n = N.of_uint u) by (destruct u; congruence).
    subst n. rewrite DecimalN.Unsigned.to_of, Hnorm. exact Hlen.
  - destruct (starts_float_part (tl s)); [destruct u; discriminate|].
    intros H. assert (Hn : n = 0%N) by (destruct u; congruence).
    subst n. cbn. unfold int_max_str_digits. lia.
Qed.

Lemma parse_int_sound (depth : nat) (s rest : list ascii) (v : value) :
  parse_int s = POk v rest -> sound depth v.
Proof.
  unfold parse_int. destruct s as [|c r]; [discriminate|].
  destruct (Ascii.eqb c "-").
  - destruct (parse_nat (c :: r) r) as [n rest'| | |] eqn:Hp; try discriminate.
    cbn [pmap]. intros [= <- _]. split; [|cbn; lia].
    cbn [well_formed]. apply Nat.leb_le.
    replace (Z.to_N (Z.abs (- Z.of_N n))) with n by lia.
    apply (parse_nat_digits _ _ _ _ Hp).
  - destruct (parse_nat (c :: r) (c :: r)) as [n rest'| | |] eqn:Hp; try discriminate.
    cbn [pmap]. intros [= <- _]. split; [|cbn; lia].
    cbn [well_formed]. apply Nat.leb_le.
    replace (Z.to_N (Z.abs (Z.of_N n))) with n by lia.
    apply (parse_nat_digits _ _ _ _ Hp).
Qed.

Lemma sound_scalar (depth : nat) (v : value) :
  match v with
  | JNull | JBool _ | JStr _ => True
  | _ => False
  end -> sound depth v.
Proof. destruct v; try contradiction; intros _; split; cbn; auto; lia. Qed.

Ltac split_parse H :=
  repeat match type of H with
         | match ?x with _ => _ end = _ => destruct x eqn:?; try discriminate H
         | (if ?x then _ else _) = _ => destruct x eqn:?; try discriminate H
         | pmap _ ?x = _ => destruct x eqn:?; cbn [pmap] in H; try discriminate H
         end.

Lemma parse_sound (fuel : nat) :
  (forall depth s v rest, parse_value fuel depth s = POk v rest -> sound depth v)
  /\ (forall depth s vs rest, parse_elements fuel depth s = POk vs rest ->
        Forall (sound depth) vs)
  /\ (forall depth s kvs rest, parse_members fuel depth s = POk kvs rest ->
        Forall (fun p => sound depth (snd p)) kvs).
Proof.
  induction fuel as [|fuel (IHv & IHe & IHm)];
    [split; [|split]; intros; discriminate|].
  split; [|split].
  - intros depth s v rest H. cbn [parse_value] in H.
    split_parse H; try (injection H as <- _);
      try (apply sound_scalar; exact I).
    + apply list_sound. constructor.
    + apply list_sound. eapply IHe. eassumption.
    + apply (dict_of_pairs_sound _ []). constructor.
    + apply dict_of_pairs_sound. eapply IHm. eassumption.
    + eapply parse_int_sound. eassumption.
  - intros depth s vs rest H. cbn [parse_elements] in H.
    split_parse H; injection H as <- _.
    + constructor; [eapply IHv | eapply IHe]; eassumption.
    + constructor; [eapply IHv; eassumption | constructor].
  - intros depth s kvs rest H. cbn [parse_members] in H.
    split_parse H; injection H as <- _.
    + constructor; [eapply IHv | eapply IHm]; eassumption.
    + constructor; [eapply IHv; eassumption | constructor].
Qed.

Lemma loads_sound (s : string) (v : value) :
  loads s = Some v -> sound loads_depth v.
Proof.
  unfold loads, scan. intros H.
  destruct (parse_value _ _ _) as [v' rest| | |] eqn:Hp; try discriminate H.
  destruct (skip_ws rest); [|discriminate H]. injection H as <-.
  eapply (proj1 (parse_sound _)). exact Hp.
Qed.

(** A document that was parsed and is serialised anew parses to the same
    value. *)
Theorem loads_dumps (s : string) (v : value) :
  loads s = Some v -> loads (dumps v) = Some v.
Proof.
  intros H. destruct (loads_sound _ _ H) as [Hwf Hdepth].
  apply loads_dumps_well_formed; assumption.
Qed.

(** *** The encoder writes plain ASCII *)

Lemma escape_char_plain (c : ascii) : forallb is_plain (escape_char c) = true.
Proof. destruct c as [[] [] [] [] [] [] [] []]; reflexivity. Qed.

Lemma escaped_plain (cs : list ascii) :
  forallb is_plain (concat (map escape_char cs)) = true.
Proof.
  induction cs as [|c cs IH]; [reflexivity|].
  cbn [map concat]. rewrite forallb_app, escape_char_plain, IH. reflexivity.
Qed.

Lemma encode_str_plain (s : string) : forallb is_plain (encode_str s) = true.
Proof.
  unfold encode_str. cbn [forallb]. rewrite forallb_app, escaped_plain. reflexivity.
Qed.

Lemma uint_chars_plain (u : Decimal.uint) : forallb is_plain (uint_chars u) = true.
Proof. induction u; cbn [uint_chars forallb]; rewrite ?IHu; reflexivity. Qed.

Lemma encode_int_plain (z : Z) : forallb is_plain (encode_int z) = true.
Proof.
  unfold encode_int. destruct (z <? 0); cbn [forallb]; rewrite uint_chars_plain;
    reflexivity.
Qed.

Lemma join_items_plain (items : list (list ascii)) :
  Forall (fun x => forallb is_plain x = true) items ->
  forallb is_plain (join_items items) = true.
Proof.
  induction 1 as [|x items Hx Hall IH]; [reflexivity|].
  destruct items as [|y items]; [exact Hx|].
  change (join_items (x :: y :: items))
    with (x ++ [","%char; " "%char] ++ join_items (y :: items)).
  rewrite !forallb_app, Hx, IH. reflexivity.
Qed.

Lemma encode_value_plain (v : value) : forallb is_plain (encode_value v) = true.
Proof.
  induction v as [| b | z | s | l IH | kv IH] using value_ind.
  - reflexivity.
  - destruct b; reflexivity.
  - apply encode_int_plain.
  - apply encode_str_plain.
  - cbn [encode_value forallb]. rewrite forallb_app, join_items_plain; [reflexivity|].
    apply Forall_map. exact IH.
  - cbn [encode_value forallb]. rewrite forallb_app, join_items_plain; [reflexivity|].
    apply Forall_map. eapply Forall_impl; [exact IH|].
    intros [k x] Hx. cbn [snd] in Hx.
    rewrite !forallb_app, encode_str_plain, Hx. reflexivity.
Qed.

Lemma utf8_decode_plain (cs : list ascii) :
  forallb is_plain cs = true -> utf8_decode cs = Some cs.
Proof.
  induction cs as [|c cs IH]; [reflexivity|].
  cbn [forallb utf8_decode]. intros [Hc Hcs]%andb_true_iff.
  unfold is_plain in Hc. apply andb_true_iff in Hc as [Hc _].
  rewrite Hc, (IH Hcs). reflexivity.
Qed.

Lemma universal_newlines_plain (cs : list ascii) :
  forallb is_plain cs = true -> universal_newlines cs = cs.
Proof.
  induction cs as [|c cs IH]; [reflexivity|].
  cbn [forallb universal_newlines]. intros [Hc Hcs]%andb_true_iff.
  unfold is_plain in Hc. apply andb_true_iff in Hc as [_ Hc].
  apply negb_true_iff in Hc. rewrite Hc, (IH Hcs). reflexivity.
Qed.

(** The text [dumps] produces is ASCII without carriage return, so a
    file holding it decodes to the same text. *)
Theorem decode_text_dumps (v : value) : decode_text (dumps v) = Some (dumps v).
Proof.
  unfold decode_text, dumps. rewrite list_ascii_of_string_of_list_ascii.
  rewrite (utf8_decode_plain _ (encode_value_plain v)). cbn.
  rewrite (universal_newlines_plain _ (encode_value_plain v)). reflexivity.
Qed.

(** *** The serialiser copes with what the decoder built *)

Lemma write_scalar_buf (buf : list ascii) (v : value) :
  write_scalar [] v = Written (encode_value v) ->
  write_scalar buf v = Written (buf ++ encode_value v).
Proof.
  destruct v as [| b | z | [] | s | l | kv]; try reflexivity.
  cbn [write_scalar encode_value].
  destruct (int_max_str_digits <? length (encode_int (Z.abs z)))%nat;
    [discriminate | reflexivity].
Qed.

Lemma write_scalar_int (z : Z) :
  well_formed (JInt z) = true ->
  write_scalar [] (JInt z) = Written (encode_int z).
Proof.
  cbn [well_formed write_scalar]. intros H. apply Nat.leb_le in H.
  unfold encode_int at 1. replace (Z.abs z <? 0) with false by (symmetry; lia).
  rewrite length_uint_chars. apply Nat.ltb_ge in H. rewrite H. reflexivity.
Qed.

Lemma write_chunk (budget : nat) (buf : list ascii) (x : value) :
  write_value budget x = Written (encode_value x) ->
  (if is_container x then wseq (Written buf) (write_value budget x)
   else write_scalar buf x) = Written (buf ++ encode_value x).
Proof.
  intros H. destruct (is_container x) eqn:Hc.
  - rewrite H. reflexivity.
  - apply write_scalar_buf. destruct x as [| b | z | [] | s | l | kv];
      try discriminate Hc; exact H.
Qed.

Lemma write_items_encoded (budget : nat) (l : list value) :
  Forall (fun x => write_value budget x = Written (encode_value x)) l ->
  forall buf,
    write_items budget buf l
    = Written (match l with
               | [] => []
               | _ => buf ++ join_items (map encode_value l)
               end ++ ["]"%char]).
Proof.
  induction 1 as [|x l Hx Hall IH]; intros buf; [reflexivity|].
  cbn [write_items]. fold (write_items budget).
  rewrite (write_chunk _ _ _ Hx), IH. cbn [wseq].
  destruct l as [|y l]; cbn [map join_items]; rewrite <- ?app_assoc; reflexivity.
Qed.

Lemma write_members_encoded (budget : nat) (kv : list (string * value)) :
  Forall (fun p => write_value budget (snd p) = Written (encode_value (snd p))) kv ->
  forall first,
    write_members budget first kv
    = Written (match kv with
               | [] => []
               | _ => (if first then [] else separator)
                        ++ join_items
                             (map (fun '(k, x) =>
                                     encode_str k ++ [":"%char; " "%char] ++ encode_value x)
                                  kv)
               end ++ ["}"%char]).
Proof.
  induction 1 as [|[k x] kv Hx Hall IH]; intros first; [reflexivity|].
  cbn [write_members]. fold (write_members budget). cbn [snd] in Hx.
  pose proof (write_chunk budget [] x Hx) as Hchunk. cbn [app] in Hchunk.
  assert (Hval : (if is_container x then write_value budget x
                  else write_scalar [] x) = Written (encode_value x)).
  { destruct (is_container x); [exact Hx | exact Hchunk]. }
  rewrite Hval, IH. cbn [wseq].
  destruct kv as [|[k' y] kv]; cbn [map join_items]; rewrite <- ?app_assoc;
    reflexivity.
Qed.

Lemma write_value_encoded (v : value) :
  forall budget, sound budget v -> write_value budget v = Written (encode_value v).
Proof.
  induction v as [| b | z | s | l IH | kv IH] using value_ind;
    intros budget [Hwf Hdepth].
  - reflexivity.
  - destruct b; reflexivity.
  - cbn [write_value encode_value]. apply write_scalar_int, Hwf.
  - reflexivity.
  - destruct l as [|x l]; [reflexivity|].
    destruct budget as [|budget]; [cbn [nesting] in Hdepth; lia|].
    apply nesting_list in Hdepth. cbn [well_formed] in Hwf.
    change (write_value (S budget) (JList (x :: l)))
      with (write_items budget ["["%char] (x :: l)).
    rewrite write_items_encoded; [reflexivity|].
    rewrite forallb_forall in Hwf.
    rewrite List.Forall_forall in IH, Hdepth |- *.
    intros y Hy. apply (IH y Hy). split; [apply (Hwf y Hy) | apply (Hdepth y Hy)].
  - destruct kv as [|[k x] kv]; [reflexivity|].
    destruct budget as [|budget]; [cbn [nesting] in Hdepth; lia|].
    apply nesting_dict in Hdepth. cbn [well_formed] in Hwf.
    apply andb_true_iff in Hwf as [_ Hwf].
    change (write_value (S budget) (JDict ((k, x) :: kv)))
      with (wseq (Written ["{"%char]) (write_members budget true ((k, x) :: kv))).
    rewrite write_members_encoded; [reflexivity|].
    rewrite forallb_forall in Hwf.
    rewrite List.Forall_forall in IH, Hdepth |- *.
    intros p Hp. apply (IH p Hp). split; [apply (Hwf p Hp) | apply (Hdepth p Hp)].
Qed.

(** A value that [loads] returned is serialised in full. *)
Theorem dump_error_loads (s : string) (v : value) :
  loads s = Some v -> dump_error v = None.
Proof.
  intros H. destruct (loads_sound _ _ H) as [Hwf Hdepth].
  unfold dump_error. rewrite write_value_encoded; [reflexivity|].
  split; [exact Hwf|]. unfold loads_depth, dump_depth in *. lia.
Qed.

End PyJsonFacts.

(** ** Concrete runs *)

Module Runs.
Import Sample.

Lemma all_day_resolves : dict_get "all_day" feed_urls = Some all_day_url.
Proof. reflexivity. Qed.

Lemma all_day_cache_path : get_cache_filename all_day_url = all_day_cache.
Proof. vm_compute. reflexivity. Qed.

Lemma body_parses : PyJson.loads body = Some feature_collection.
Proof. vm_compute. reflexivity. Qed.

Lemma feature_collection_dumps : PyJson.dumps feature_collection = dumped.
Proof. vm_compute. reflexivity. Qed.

Lemma garbage_is_not_text : PyJson.decode_text garbage = None.
Proof. reflexivity. Qed.

(** What the decoder says of a page that is not JSON, and of a document
    nested beyond its recursion limit. *)
Lemma html_is_not_json :
  PyJson.loads "<html>" = None
  /\ PyJson.loads_error "<html>"
     = NotJson "Expecting value: line 1 column 1 (char 0)".
Proof. vm_compute. split; reflexivity. Qed.

Lemma deep_body_is_a_fault :
  PyJson.loads deep_body = None
  /\ PyJson.loads_error deep_body
     = ParseFault RecursionLimit
         "maximum recursion depth exceeded while decoding a JSON array from a unicode string".
Proof. vm_compute. split; reflexivity. Qed.

(** The validity check at work: a file modified 3599 seconds ago is valid, one modified
    3600 seconds ago is not, and a missing file is not. *)
Example cache_valid_below_ttl :
  outcome_of (is_cache_valid all_day_cache (at_time 3599 usgs_up) (disk_with 0 dumped))
  = Ret true.
Proof. vm_compute. reflexivity. Qed.

Example cache_expired_at_ttl :
  outcome_of (is_cache_valid all_day_cache (at_time 3600 usgs_up) (disk_with 0 dumped))
  = Ret false.
Proof. vm_compute. reflexivity. Qed.

Example cache_missing :
  is_cache_valid all_day_cache (at_time 0 usgs_up) ∅
  = (Ret false, ∅, [EvExists all_day_cache]).
Proof. vm_compute. reflexivity. Qed.

(** C1, counterexample: the file exists and the current time minus its
    modification time is strictly less than 3600 seconds, by half a unit
    in the last place; the subtraction of the two doubles gives 3600.0
    and the check answers False. *)
Lemma age_below_ttl_is_rounded_up :
  let e := at_time late usgs_up in
  let w := disk_with early dumped in
  stat w all_day_cache = Some (Node early (Reg dumped))
  /\ (clock e - early < 3600)%Q
  /\ (float_sub (clock e) early == 3600)%Q
  /\ outcome_of (is_cache_valid all_day_cache e w) = Ret false.
Proof.
  cbv zeta. split; [vm_compute; reflexivity|]. split; [vm_compute; reflexivity|].
  split; vm_compute; reflexivity.
Qed.

(** C2, counterexample: a call with an identifier that is not in the
    catalog, on a disk without cache directory, checks for the directory
    and creates it: there is filesystem activity, and the disk changes. *)
Lemma unknown_feed_creates_cache_dir :
  let r := py_fetch "bogus_feed" (at_time 0 usgs_times_out) ∅ in
  outcome_of r = Ret (JDict [("error", JStr "Invalid feed type: bogus_feed")])
  /\ trace_of r = [EvExists "cache"; EvMakedirs "cache"]
  /\ world_of r !! "cache" = Some (Node 0 Dir)
  /\ ~ (trace_of r = [] /\ world_of r = ∅).
Proof.
  cbv zeta. split; [vm_compute; reflexivity|]. split; [vm_compute; reflexivity|].
  split; [vm_compute; reflexivity|].
  intros [H _]. revert H. vm_compute. discriminate.
Qed.

Lemma unknown_feed_result_witness :
  py_fetch "bogus_feed" (at_time 0 usgs_times_out) ∅
  = (Ret (JDict [("error", JStr "Invalid feed type: bogus_feed")]),
     <["cache" := Node 0 Dir]> ∅,
     [EvExists "cache"; EvMakedirs "cache"]).
Proof.
  refine (eq_trans
            (unknown_feed_result PyJson.decode_text PyJson.loads
               PyJson.loads_error PyJson.dumps PyJson.dump_error "bogus_feed"
               (at_time 0 usgs_times_out) ∅ _ _) _);
    [reflexivity | right; reflexivity | vm_compute; reflexivity].
Defined.


(** C3, a second way out: the body is a document of a thousand nested
    arrays; the [RecursionError] of the decoder is not a
    [RequestException] either. *)
Lemma deep_body_is_raised :
  let r := py_fetch "all_day" (at_time 0 usgs_sends_deep) {[CACHE_DIR := Node 0 Dir]} in
  outcome_of r
  = Raise (Exn RecursionError
      "maximum recursion depth exceeded while decoding a JSON array from a unicode string")
  /\ trace_of r = [EvExists "cache"; EvExists all_day_cache; EvGet all_day_url].
Proof. vm_compute. split; reflexivity. Qed.


(** C4, the failing input: the cache file of the all_day feed, ten seconds
    old, holds the single byte 0xFF. *)
Lemma undecodable_cache_raises_witness :
  outcome_of (py_fetch "all_day" (at_time 10 usgs_up) (disk_with 0 garbage))
  = Raise (Exn UnicodeDecodeError "codec can't decode byte")
  /\ ~ In (EvGet all_day_url)
         (trace_of (py_fetch "all_day" (at_time 10 usgs_up) (disk_with 0 garbage))).
Proof.
  apply (undecodable_cache_raises PyJson.decode_text PyJson.loads
           PyJson.loads_error PyJson.dumps PyJson.dump_error "all_day" all_day_url
           (at_time 10 usgs_up) (disk_with 0 garbage) 0 garbage).
  - reflexivity.
  - left. eexists. vm_compute. reflexivity.
  - vm_compute. reflexivity.
  - vm_compute. reflexivity.
  - reflexivity.
  - reflexivity.
Defined.

(** A truncated cache file within its time to live: the call fetches
    anew and replaces the file. *)
Example truncated_cache_is_replaced :
  py_fetch "all_day" (at_time 10 usgs_up) (disk_with 0 "{")
  = (Ret feature_collection, disk_with 10 dumped,
     [EvExists "cache"; EvExists all_day_cache; EvGetmtime all_day_cache;
      EvRead all_day_cache; EvGet all_day_url; EvWrite all_day_cache]).
Proof. vm_compute. reflexivity. Qed.



(** With the concrete codec the round trip needs no assumption: after a
    successful fetch, every later call within the time to live that can
    open the cache file is a cache hit returning the fetched value. *)
Lemma py_repeated_calls_hit_cache (feed_type feed_url : string) (e0 : env)
    (w0 : world) (data : PyJson.value) (later : list env) :
  dict_get feed_type feed_urls = Some feed_url ->
  outcome_of (py_fetch feed_type e0 w0) = Ret data ->
  In (EvWrite (get_cache_filename feed_url)) (trace_of (py_fetch feed_type e0 w0)) ->
  Forall (fun e => (float_sub (clock e) (fs_clock e0) < CACHE_DURATION)%Q
                   /\ open_read_error e = None) later ->
  calls PyJson.decode_text PyJson.loads PyJson.loads_error PyJson.dumps
    PyJson.dump_error feed_type later (world_of (py_fetch feed_type e0 w0))
  = (map (fun _ =>
            (Ret data,
             [EvExists CACHE_DIR; EvExists (get_cache_filename feed_url);
              EvGetmtime (get_cache_filename feed_url);
              EvRead (get_cache_filename feed_url)])) later,
     world_of (py_fetch feed_type e0 w0)).
Proof.
  unfold py_fetch, PyJson.value in *. intros Hf Hret Hin Hlater.
  destruct (successful_fetch_inv _ _ _ _ _ _ _ _ _ _ Hf Hret Hin)
    as (r & _ & _ & Hl & _ & _ & Hopen & Hw).
  apply (cached_calls_run _ _ _ _ _ _ _ _ (fs_clock e0) (PyJson.dumps data)
           (PyJson.dumps data) data later Hf).
  - rewrite Hw, lookup_insert_ne by apply cache_file_not_cache_dir.
    apply with_cache_dir_has_dir.
  - rewrite Hw, stat_cache_file.
    rewrite lookup_insert_ne by apply cache_file_not_cache_dir.
    unfold open_write_ok, open_write_failure in Hopen.
    destruct (open_write_error e0); [discriminate|].
    rewrite path_error_cache_file in Hopen.
    destruct (with_cache_dir e0 w0 !! CACHE_DIR) as [[t [|c]]|]; try discriminate.
    apply lookup_insert_eq.
  - apply PyJsonFacts.decode_text_dumps.
  - exact (PyJsonFacts.loads_dumps _ _ Hl).
  - exact Hlater.
Qed.

(** C6, counterexample: the provider sends the compact document [body];
    the cache file then holds [dumped], the same value with the separators
    of [json.dump], which is another sequence of bytes. *)
Lemma cached_bytes_are_not_the_body :
  let r := py_fetch "all_day" (at_time 0 usgs_up) ∅ in
  http (at_time 0 usgs_up) all_day_url = HttpResponds (Response 200 "OK" all_day_url body)
  /\ outcome_of r = Ret feature_collection
  /\ world_of r !! all_day_cache = Some (Node 0 (Reg dumped))
  /\ dumped <> body.
Proof.
  cbv zeta. split; [reflexivity|]. split; [vm_compute; reflexivity|].
  split; [vm_compute; reflexivity|]. discriminate.
Qed.

(** C6 at work: the cache file of the feed is stale and holds an empty
    object; the provider answers, and the file is replaced. *)
Lemma successful_fetch_caches_dump_witness :
  let e := at_time 5000 usgs_up in
  let w := disk_with 0 "{}" in
  outcome_of (py_fetch "all_day" e w) = Ret feature_collection
  /\ In (EvWrite (get_cache_filename all_day_url)) (trace_of (py_fetch "all_day" e w))
  /\ stat (world_of (py_fetch "all_day" e w)) (get_cache_filename all_day_url)
     = Some (Node (fs_clock e) (Reg (PyJson.dumps feature_collection)))
  /\ (forall p, p <> get_cache_filename all_day_url -> p <> CACHE_DIR ->
        world_of (py_fetch "all_day" e w) !! p = w !! p)
  /\ (PyJson.loads (PyJson.dumps feature_collection) = Some feature_collection ->
      PyJson.loads (PyJson.dumps feature_collection)
      = PyJson.loads (text (Response 200 "OK" all_day_url body))).
Proof.
  apply (successful_fetch_caches_dump PyJson.decode_text PyJson.loads
           PyJson.loads_error PyJson.dumps PyJson.dump_error "all_day" all_day_url
           (at_time 5000 usgs_up) (disk_with 0 "{}")
           (Response 200 "OK" all_day_url body) feature_collection).
  - reflexivity.
  - vm_compute. do 3 right. left. reflexivity.
  - reflexivity.
  - cbn. lia.
  - vm_compute. reflexivity.
  - vm_compute. reflexivity.
  - vm_compute. reflexivity.
Defined.

(** The run behind it. *)
Example stale_cache_is_replaced :
  py_fetch "all_day" (at_time 5000 usgs_up) (disk_with 0 "{}")
  = (Ret feature_collection, disk_with 5000 dumped,
     [EvExists "cache"; EvExists all_day_cache; EvGetmtime all_day_cache;
      EvGet all_day_url; EvWrite all_day_cache]).
Proof. vm_compute. reflexivity. Qed.

(** C10, counterexample: on a disk without cache directory the request
    times out; the call returns the error value, and the disk now has the
    cache directory, which it had not. *)
Lemma failed_fetch_creates_cache_dir :
  let r := py_fetch "all_day" (at_time 0 usgs_times_out) ∅ in
  outcome_of r
  = Ret (JDict [("error", JStr "Failed to fetch earthquake data: Read timed out.")])
  /\ world_of r !! "cache" = Some (Node 0 Dir)
  /\ (∅ : world) !! "cache" = None
  /\ world_of r <> ∅.
Proof.
  cbv zeta. split; [vm_compute; reflexivity|]. split; [vm_compute; reflexivity|].
  split; [reflexivity|]. vm_compute. discriminate.
Qed.

(** C10 at work: a stale cache file and a request that times out. *)
Lemma network_failure_keeps_cache_witness :
  let r := py_fetch "all_day" (at_time 5000 usgs_times_out) (disk_with 0 dumped) in
  (forall p, p <> CACHE_DIR -> world_of r !! p = disk_with 0 dumped !! p)
  /\ (is_Some (disk_with 0 dumped !! CACHE_DIR) -> world_of r = disk_with 0 dumped)
  /\ (forall p, ~ In (EvWrite p) (trace_of r))
  /\ (In (EvGet all_day_url) (trace_of r) ->
      exists details,
        outcome_of r
        = Ret (JDict [("error",
                 JStr ("Failed to fetch earthquake data: " +:+ details))])).
Proof.
  apply (network_failure_keeps_cache PyJson.decode_text PyJson.loads
           PyJson.loads_error PyJson.dumps PyJson.dump_error "all_day" all_day_url
           (at_time 5000 usgs_times_out) (disk_with 0 dumped)).
  - reflexivity.
  - exact I.
Defined.

(** The run behind it: the request is sent, the error value comes back,
    and the disk is the one the call started with. *)
Lemma time_out_with_stale_cache :
  py_fetch "all_day" (at_time 5000 usgs_times_out) (disk_with 0 dumped)
  = (Ret (JDict [("error",
            JStr "Failed to fetch earthquake data: Read timed out.")]),
     disk_with 0 dumped,
     [EvExists "cache"; EvExists all_day_cache; EvGetmtime all_day_cache;
      EvGet all_day_url]).
Proof. vm_compute. reflexivity. Qed.

End Runs.

(** * Further properties of the code *)

(** ** [ensure_cache_dir] and [is_cache_valid] on their own *)

(** X1: [ensure_cache_dir] leaves every other path alone and never replaces
    a node that is already at the cache path, be it a directory or a
    regular file: with a regular file of that name there it returns
    without a directory having been made.  When it returns, there is a
    node at the cache path, a directory unless a regular file held the
    name, and running it again only checks and changes nothing; when it
    raises, it is an [OSError] and nothing changed. *)
Theorem ensure_cache_dir_idempotent (e : env) (w : world) :
  (forall p, p <> CACHE_DIR -> world_of (ensure_cache_dir e w) !! p = w !! p)
  /\ (forall n, w !! CACHE_DIR = Some n ->
        ensure_cache_dir e w = (Ret tt, w, [EvExists CACHE_DIR]))
  /\ (outcome_of (ensure_cache_dir e w) = Ret tt ->
        is_Some (world_of (ensure_cache_dir e w) !! CACHE_DIR)
        /\ (cache_dir_usable w ->
            file_type (world_of (ensure_cache_dir e w)) CACHE_DIR = Some true)
        /\ (file_type (world_of (ensure_cache_dir e w)) CACHE_DIR = Some false <->
            file_type w CACHE_DIR = Some false)
        /\ forall e',
             ensure_cache_dir e' (world_of (ensure_cache_dir e w))
             = (Ret tt, world_of (ensure_cache_dir e w), [EvExists CACHE_DIR]))
  /\ (forall x, outcome_of (ensure_cache_dir e w) = Raise x ->
        world_of (ensure_cache_dir e w) = w /\ exn_cls x = OSError).
Proof.
  rewrite ensure_cache_dir_run. unfold file_type, cache_dir_usable.
  destruct (w !! CACHE_DIR) as [n|] eqn:Hd.
  - rewrite bool_decide_eq_true_2 by eauto.
    unfold world_of, outcome_of. cbn [fst snd].
    split; [reflexivity|]. split; [reflexivity|]. split; [|discriminate].
    intros _. split; [eauto|]. rewrite Hd. split; [|split; [tauto|]].
    + intros Hu. destruct n as [t [|c]]; [reflexivity|].
      exfalso. exact (Hu t c eq_refl).
    + intros e'.
      rewrite ensure_cache_dir_run, bool_decide_eq_true_2 by (rewrite Hd; eauto).
      reflexivity.
  - rewrite bool_decide_eq_false_2 by (intros [? ?]; discriminate).
    destruct (makedirs_error e) as [msg|]; unfold world_of, outcome_of; cbn [fst snd].
    + split; [reflexivity|]. split; [discriminate|]. split; [discriminate|].
      intros x [= <-]. split; reflexivity.
    + split; [intros p Hp; apply lookup_insert_ne; congruence|].
      split; [discriminate|]. split; [|discriminate].
      intros _. rewrite lookup_insert_eq. split; [eauto|].
      split; [reflexivity|]. split; [split; discriminate|]. intros e'.
      rewrite ensure_cache_dir_run, bool_decide_eq_true_2
        by (rewrite lookup_insert_eq; eauto).
      reflexivity.
Qed.

(** X2: validity only decays with time: on the same filesystem, a cache
    path that [is_cache_valid] accepts at some time is accepted at every
    earlier time; put the other way, once expired it stays expired. *)
Theorem is_cache_valid_antitone (cache_file : string) (e1 e2 : env) (w : world) :
  (clock e1 <= clock e2)%Q ->
  outcome_of (is_cache_valid cache_file e2 w) = Ret true ->
  outcome_of (is_cache_valid cache_file e1 w) = Ret true.
Proof.
  intros Hle. rewrite !is_cache_valid_run.
  destruct (stat w cache_file) as [n|]; unfold outcome_of; cbn [fst snd];
    [|discriminate].
  intros [= H2]. f_equal. apply Qltb_within_ttl in H2. apply Qltb_within_ttl.
  apply (within_ttl_earlier _ _ _ Hle H2).
Qed.

(** ** The catalog and the cache path *)

(** X13: the catalog is regular.  An identifier that the fetcher resolves
    is one that [get_available_feeds] advertises, and its URL is the
    summary feed address followed by the identifier and [.geojson]. *)
Theorem resolved_feed_is_advertised (feed_type feed_url : string) :
  dict_get feed_type feed_urls = Some feed_url ->
  In feed_type get_available_feeds
  /\ feed_url = FEED_BASE +:+ feed_type +:+ ".geojson".
Proof.
  intros H. apply dict_get_In in H. unfold feed_urls in H. cbn [In] in H.
  repeat (destruct H as [H | H];
          [injection H as <- <-; split;
           [unfold get_available_feeds; cbn [In];
            repeat (first [left; reflexivity | right])
           | reflexivity]|]).
  destruct H.
Qed.

(** X14: the cache path adds no collision of its own: two URLs are given
    the same cache file exactly when their MD5 digests, as [hexdigest]
    prints them, are the same. *)
Theorem cache_files_collide_iff_digests_do (url1 url2 : string) :
  get_cache_filename url1 = get_cache_filename url2
  <-> MD5.hexdigest (str_encode url1) = MD5.hexdigest (str_encode url2).
Proof.
  rewrite !get_cache_filename_eq. split.
  - intros H. apply (f_equal list_ascii_of_string) in H.
    rewrite !list_ascii_of_string_app in H.
    apply app_inv_head, app_inv_tail in H.
    rewrite <- (string_of_list_ascii_of_string (MD5.hexdigest (str_encode url1))), H.
    apply string_of_list_ascii_of_string.
  - intros ->. reflexivity.
Qed.

(** ** The whole call, beyond the claims *)

Section FetcherExtras.

Context {F : Type}.
Variable decode_text : string -> option string.
Variable loads : string -> option (json F).
Variable loads_error : string -> parse_error.
Variable dumps : json F -> string.
Variable dump_error : json F -> option dump_fault.

Local Abbreviation fetch :=
  (fetch_earthquake_data decode_text loads loads_error dumps dump_error).
Local Abbreviation cached := (try_cached decode_text loads loads_error).
Local Abbreviation fresh_fetch := (try_fresh loads loads_error dumps dump_error).

(** Without a usable copy the call is the fresh fetch, after the two
    checks. *)
Lemma fetch_miss_run (feed_type feed_url : string) (e : env) (w : world) :
  dict_get feed_type feed_urls = Some feed_url ->
  makedirs_ok e w ->
  cache_miss e w (get_cache_filename feed_url) ->
  fetch feed_type e w =
    let '(r, w2, t') :=
      fresh_fetch feed_url (get_cache_filename feed_url) e (with_cache_dir e w) in
    (r, w2,
     ensure_cache_dir_trace w
       ++ validity_trace e w (get_cache_filename feed_url) ++ t').
Proof.
  intros Hf Hok Hmiss.
  rewrite (fetch_known_run _ _ _ _ _ _ _ _ _ Hf Hok). cbv zeta.
  destruct (cache_stat e w (get_cache_filename feed_url)) as [n|] eqn:Hn.
  - destruct (Qltb (float_sub (clock e) (mtime n)) CACHE_DURATION) eqn:Hq.
    + exfalso. apply (Hmiss n Hn), Qltb_within_ttl, Hq.
    + destruct (fresh_fetch _ _ _ _) as [[r w2] t']. rewrite <- app_assoc. reflexivity.
  - destruct (fresh_fetch _ _ _ _) as [[r w2] t']. rewrite <- app_assoc. reflexivity.
Qed.

(** Every run of the call, by what it did: the outcome, the filesystem
    it left and the actions in order. *)
Lemma fetch_shape (feed_type : string) (e : env) (w : world) :
  (w !! CACHE_DIR = None
   /\ exists msg,
        fetch feed_type e w
        = (Raise (Exn OSError msg), w, [EvExists CACHE_DIR; EvMakedirs CACHE_DIR]))
  \/ (dict_get feed_type feed_urls = None
      /\ fetch feed_type e w
         = (Ret (error_result ("Invalid feed type: " +:+ feed_type)),
            with_cache_dir e w, ensure_cache_dir_trace w))
  \/ (exists feed_url tr,
        dict_get feed_type feed_urls = Some feed_url
        /\ (tr = [] \/ tr = [EvRead (get_cache_filename feed_url)])
        /\ let cache_file := get_cache_filename feed_url in
           let pre := ensure_cache_dir_trace w ++ validity_trace e w cache_file in
           (exists v,
               fetch feed_type e w
               = (Ret v, with_cache_dir e w, pre ++ [EvRead cache_file]))
           \/ (exists x,
               escapes x
               /\ fetch feed_type e w
                  = (Raise x, with_cache_dir e w, pre ++ [EvRead cache_file]))
           \/ (exists details,
               fetch feed_type e w
               = (Ret (error_result ("Failed to fetch earthquake data: " +:+ details)),
                  with_cache_dir e w, pre ++ tr ++ [EvGet feed_url]))
           \/ (exists x,
               escapes x
               /\ fetch feed_type e w
                  = (Raise x, with_cache_dir e w, pre ++ tr ++ [EvGet feed_url]))
           \/ (exists x,
               escapes x
               /\ fetch feed_type e w
                  = (Raise x, with_cache_dir e w,
                     pre ++ tr ++ [EvGet feed_url; EvWrite cache_file]))
           \/ (exists x written,
               escapes x
               /\ fetch feed_type e w
                  = (Raise x,
                     <[cache_file := Node (fs_clock e) (Reg written)]>
                       (with_cache_dir e w),
                     pre ++ tr ++ [EvGet feed_url; EvWrite cache_file]))
           \/ (exists data,
               fetch feed_type e w
               = (Ret data,
                  <[cache_file := Node (fs_clock e) (Reg (dumps data))]>
                    (with_cache_dir e w),
                  pre ++ tr ++ [EvGet feed_url; EvWrite cache_file]))).
Proof.
  assert (Hfault : forall f msg, escapes (Exn (fault_class f) msg)).
  { intros [] msg; unfold escapes; cbn; tauto. }
  destruct (makedirs_ok_or_not e w) as [Hok | (Hd & msg & Hm)].
  - destruct (dict_get feed_type feed_urls) as [feed_url|] eqn:Hf.
    + right; right.
      pose proof (fetch_known_cases decode_text loads loads_error dumps dump_error
                    _ _ e w Hf Hok) as Hcases. cbv zeta in Hcases.
      destruct Hcases
        as [(t & c & s & v & _ & _ & _ & _ & _ & Heq)
           | [(t & c & x & _ & _ & _ & Hx & Heq) | (tr & Htr & Heq)]].
      * exists feed_url, []. split; [reflexivity|]. split; [left; reflexivity|].
        cbv zeta. left. exists v. exact Heq.
      * exists feed_url, []. split; [reflexivity|]. split; [left; reflexivity|].
        cbv zeta. right; left. exists x. split; [|exact Heq].
        destruct Hx as [[_ ->] | (s & f & msg & _ & _ & _ & ->)];
          [unfold escapes; cbn; tauto | apply Hfault].
      * exists feed_url, tr. split; [reflexivity|]. split; [exact Htr|].
        cbv zeta. rewrite Heq.
        destruct (try_fresh_cases loads loads_error dumps dump_error feed_url
                    (get_cache_filename feed_url) e (with_cache_dir e w))
          as [(details & Hfr)
             | [(r & f & msg & _ & _ & _ & _ & Hfr)
               | [(r & data & x & _ & _ & _ & Hx & Hfr)
                 | [(r & data & gave_up & _ & _ & _ & _ & _ & Hfr)
                   | (r & data & _ & _ & _ & _ & _ & Hfr)]]]];
          rewrite Hfr.
        -- right; right; left. exists details. reflexivity.
        -- right; right; right; left. eexists. split; [apply Hfault | reflexivity].
        -- right; right; right; right; left. exists x. split; [|reflexivity].
           unfold open_write_failure in Hx.
           destruct (open_write_error e); [injection Hx as <-; unfold escapes; cbn; tauto|].
           destruct (path_error _ _) as [y|] eqn:Hp.
           ++ injection Hx as <-.
              destruct (path_error_class _ _ _ Hp) as [-> | ->];
                unfold escapes; cbn; tauto.
           ++ destruct (_ !! _) as [[t [|c]]|]; try discriminate Hx.
              injection Hx as <-. unfold escapes; cbn; tauto.
        -- do 5 right; left. eexists _, _. split; [apply Hfault | reflexivity].
        -- do 6 right. exists data. reflexivity.
    + right; left. split; [reflexivity|]. apply fetch_unknown_run; assumption.
  - left. split; [exact Hd|]. exists msg. apply fetch_makedirs_fails; assumption.
Qed.

(** Splits a goal along [fetch_shape], with the run rewritten. *)
Ltac by_shape feed_type e w :=
  let Heq := fresh "Heq" in
  destruct (fetch_shape feed_type e w)
    as [(? & ? & Heq)
       | [(? & Heq)
         | (? & ? & ? & ? &
            [(? & Heq)
            | [(? & ? & Heq)
              | [(? & Heq)
                | [(? & ? & Heq)
                  | [(? & ? & Heq)
                    | [(? & ? & ? & Heq)
                      | (? & Heq)]]]]]])]];
  rewrite Heq; unfold outcome_of, world_of, trace_of; cbn [fst snd].

(** X3: the only exceptions that leave the call are those of the
    filesystem ([OSError] and its subclasses, of [os.makedirs] or of
    opening the cache file for writing), the [UnicodeDecodeError] of the
    cached read, and the [RecursionError] or [ValueError] with which the
    JSON codec gives up: never a [RequestException], never a
    [JSONDecodeError] (that of [Response.json()] being, since requests
    2.27, a [RequestException] as well). *)
Theorem fetch_raises_only_os_or_decoding (feed_type : string) (e : env) (w : world) :
  match outcome_of (fetch feed_type e w) with
  | Ret _ => True
  | Raise x =>
      In (exn_cls x)
         [OSError; FileNotFoundError; NotADirectoryError; IsADirectoryError;
          UnicodeDecodeError; RecursionError; ValueError]
      /\ isinstance x RequestException = false
      /\ isinstance x JSONDecodeError = false
  end.
Proof.
  assert (Hesc : forall x, escapes x ->
            escapes x /\ isinstance x RequestException = false
            /\ isinstance x JSONDecodeError = false).
  { intros [c msg] Hx. split; [exact Hx|]. unfold escapes in Hx. cbn in Hx.
    repeat (destruct Hx as [<- | Hx]; [split; reflexivity|]). destruct Hx. }
  by_shape feed_type e w; try exact I; try (apply Hesc; assumption).
  apply Hesc. unfold escapes. cbn. tauto.
Qed.



(** A miss always ends in a request, and reads no cache file. *)
Lemma miss_sends_request (feed_type feed_url : string) (e : env) (w : world) :
  dict_get feed_type feed_urls = Some feed_url ->
  makedirs_ok e w ->
  cache_miss e w (get_cache_filename feed_url) ->
  In (EvGet feed_url) (trace_of (fetch feed_type e w))
  /\ ~ In (EvRead (get_cache_filename feed_url)) (trace_of (fetch feed_type e w)).
Proof.
  intros Hf Hok Hmiss. rewrite (fetch_miss_run _ _ _ _ Hf Hok Hmiss).
  assert (Hfr : exists t', trace_of (fresh_fetch feed_url (get_cache_filename feed_url)
                                       e (with_cache_dir e w))
                           = EvGet feed_url :: t'
                           /\ (t' = [] \/ t' = [EvWrite (get_cache_filename feed_url)])).
  { destruct (try_fresh_cases loads loads_error dumps dump_error feed_url
                (get_cache_filename feed_url) e (with_cache_dir e w))
      as [(details & Hfr)
         | [(r & f & msg & _ & _ & _ & _ & Hfr)
           | [(r & data & x & _ & _ & _ & _ & Hfr)
             | [(r & data & gave_up & _ & _ & _ & _ & _ & Hfr)
               | (r & data & _ & _ & _ & _ & _ & Hfr)]]]];
      rewrite Hfr; eexists; (split; [reflexivity|]); auto. }
  destruct Hfr as (t' & Hfr & Ht').
  destruct (fresh_fetch _ _ _ _) as [[r w2] t'']. cbn [trace_of snd] in *.
  subst t''. split.
  - apply in_or_app; right; apply in_or_app; right; left; reflexivity.
  - rewrite validity_trace_eq. unfold ensure_cache_dir_trace. intros Hin.
    destruct Ht' as [-> | ->]; destruct (bool_decide _), (stat _ _);
      cbn in Hin; no_such_event Hin.
Qed.

(** X6: an expired copy is never served.  When there is no cache file, or
    it is not within its time to live, the call does not read it and sends
    the request; if the request then fails, the answer is the error value
    and the expired file stays as it is, unread. *)
Theorem stale_cache_is_not_served (feed_type feed_url : string) (e : env)
    (w : world) :
  dict_get feed_type feed_urls = Some feed_url ->
  makedirs_ok e w ->
  cache_miss e w (get_cache_filename feed_url) ->
  In (EvGet feed_url) (trace_of (fetch feed_type e w))
  /\ ~ In (EvRead (get_cache_filename feed_url)) (trace_of (fetch feed_type e w))
  /\ (network_fails e feed_url ->
      (exists details,
          outcome_of (fetch feed_type e w)
          = Ret (JDict [("error",
                   JStr ("Failed to fetch earthquake data: " +:+ details))]))
      /\ world_of (fetch feed_type e w) !! get_cache_filename feed_url
         = w !! get_cache_filename feed_url).
Proof.
  intros Hf Hok Hmiss.
  destruct (miss_sends_request _ _ _ _ Hf Hok Hmiss) as [Hget Hread].
  split; [exact Hget|]. split; [exact Hread|].
  rewrite (fetch_miss_run _ _ _ _ Hf Hok Hmiss).
  intros Hn.
  destruct (try_fresh_network_fails loads loads_error dumps dump_error feed_url
              (get_cache_filename feed_url) e (with_cache_dir e w) Hn)
    as [details Hfr].
  rewrite Hfr. unfold outcome_of, world_of. cbn [fst snd].
  split; [exists details; reflexivity|].
  apply with_cache_dir_lookup, cache_file_not_cache_dir.
Qed.

(** X7: the fast path, for any cache file however it came to be there:
    a file within its time to live that opens, decodes and parses is
    returned as the result; the provider is not contacted, nothing is
    written, and the file keeps its modification time. *)
Theorem fresh_cache_is_served (feed_type feed_url : string) (e : env)
    (w : world) (t : Q) (c s : string) (v : json F) :
  dict_get feed_type feed_urls = Some feed_url ->
  makedirs_ok e w ->
  cache_stat e w (get_cache_filename feed_url) = Some (Node t (Reg c)) ->
  (float_sub (clock e) t < CACHE_DURATION)%Q ->
  open_read_error e = None ->
  decode_text c = Some s ->
  loads s = Some v ->
  outcome_of (fetch feed_type e w) = Ret v
  /\ count_requests (trace_of (fetch feed_type e w)) = 0%nat
  /\ count_writes (trace_of (fetch feed_type e w)) = 0%nat
  /\ world_of (fetch feed_type e w) !! get_cache_filename feed_url
     = Some (Node t (Reg c))
  /\ (is_Some (w !! CACHE_DIR) -> world_of (fetch feed_type e w) = w).
Proof.
  intros Hf Hok Hc Ht Hr Hd Hl.
  rewrite (fetch_known_run _ _ _ _ _ _ _ _ _ Hf Hok). cbv zeta.
  rewrite Hc. cbn [mtime]. apply Qltb_lt in Ht. rewrite Ht.
  rewrite try_cached_run, Hr, validity_trace_eq.
  pose proof (cache_stat_lookup _ _ _ _ Hc) as Hraw.
  rewrite cache_stat_eq in Hc. rewrite Hc, Hd, Hl.
  unfold outcome_of, world_of, trace_of, count_requests, count_writes,
    ensure_cache_dir_trace.
  cbn [fst snd].
  split; [reflexivity|].
  split; [destruct (bool_decide _); reflexivity|].
  split; [destruct (bool_decide _); reflexivity|].
  split; [rewrite with_cache_dir_lookup by apply cache_file_not_cache_dir; exact Hraw|].
  apply with_cache_dir_id.
Qed.

(** X8: cache hits do not extend the life of an entry.  After a
    successful fetch, however many calls were served from the cache in
    between, a call made once the time to live has run out since the
    write sends a request again. *)
Theorem hits_do_not_extend_lifetime (feed_type feed_url : string) (e0 : env)
    (w0 : world) (data : json F) (later : list env) (e' : env) :
  dict_get feed_type feed_urls = Some feed_url ->
  outcome_of (fetch feed_type e0 w0) = Ret data ->
  In (EvWrite (get_cache_filename feed_url)) (trace_of (fetch feed_type e0 w0)) ->
  decode_text (dumps data) = Some (dumps data) ->
  loads (dumps data) = Some data ->
  Forall (fun e => (float_sub (clock e) (fs_clock e0) < CACHE_DURATION)%Q
                   /\ open_read_error e = None) later ->
  ~ (float_sub (clock e') (fs_clock e0) < CACHE_DURATION)%Q ->
  In (EvGet feed_url)
     (trace_of
        (fetch feed_type e'
           (snd (calls decode_text loads loads_error dumps dump_error feed_type later
                   (world_of (fetch feed_type e0 w0)))))).
Proof.
  intros Hf Hret Hin Hdec Hloads Hlater Hold.
  destruct (successful_fetch_inv _ _ _ _ _ _ _ _ _ _ Hf Hret Hin)
    as (r & _ & _ & _ & _ & _ & Hopen & Hw).
  set (w1 := world_of (fetch feed_type e0 w0)) in *.
  assert (Hdir : is_Some (w1 !! CACHE_DIR)).
  { rewrite Hw, lookup_insert_ne by apply cache_file_not_cache_dir.
    apply with_cache_dir_has_dir. }
  assert (Hfile : stat w1 (get_cache_filename feed_url)
                  = Some (Node (fs_clock e0) (Reg (dumps data)))).
  { rewrite Hw, stat_cache_file.
    rewrite lookup_insert_ne by apply cache_file_not_cache_dir.
    unfold open_write_ok, open_write_failure in Hopen.
    destruct (open_write_error e0); [discriminate|].
    rewrite path_error_cache_file in Hopen.
    destruct (with_cache_dir e0 w0 !! CACHE_DIR) as [[t [|c]]|]; try discriminate.
    apply lookup_insert_eq. }
  rewrite (cached_calls_run _ _ _ _ _ _ _ w1 _ _ _ data later Hf Hdir Hfile Hdec
             Hloads Hlater).
  cbn [snd].
  assert (Hmiss : cache_miss e' w1 (get_cache_filename feed_url)).
  { intros n Hn. rewrite (cache_stat_stat _ _ _ Hdir), Hfile in Hn.
    injection Hn as <-. exact Hold. }
  apply (miss_sends_request _ _ _ _ Hf (or_introl Hdir) Hmiss).
Qed.

(** X9: when the response is in hand but the cache file cannot be opened
    for writing, the call raises that [OSError]: the value just fetched is
    not returned, and the cache file, if there was one, is as before. *)
Theorem failed_write_discards_the_fetch (feed_type feed_url : string) (e : env)
    (w : world) (r : response) (data : json F) (msg : string) :
  dict_get feed_type feed_urls = Some feed_url ->
  makedirs_ok e w ->
  cache_miss e w (get_cache_filename feed_url) ->
  http e feed_url = HttpResponds r ->
  ~ (400 <= status_code r < 600) ->
  loads (text r) = Some data ->
  open_write_error e = Some msg ->
  outcome_of (fetch feed_type e w) = Raise (Exn OSError msg)
  /\ In (EvGet feed_url) (trace_of (fetch feed_type e w))
  /\ world_of (fetch feed_type e w) = with_cache_dir e w
  /\ world_of (fetch feed_type e w) !! get_cache_filename feed_url
     = w !! get_cache_filename feed_url.
Proof.
  intros Hf Hok Hmiss Hh Hst Hl Hw.
  rewrite (fetch_miss_run _ _ _ _ Hf Hok Hmiss), try_fresh_run, Hh, Hl.
  rewrite (status_ok _ Hst). unfold open_write_failure. rewrite Hw.
  unfold outcome_of, world_of, trace_of. cbn [fst snd].
  split; [reflexivity|]. split; [|split; [reflexivity|]].
  - apply in_or_app; right; apply in_or_app; right; left; reflexivity.
  - apply with_cache_dir_lookup, cache_file_not_cache_dir.
Qed.

(** X10: the cache directory comes first.  On a disk without cache
    directory where it cannot be created, every call raises the [OSError]
    of [os.makedirs], whatever the identifier, known or not: no request is
    sent and no error value is returned. *)
Theorem no_cache_dir_no_answer (feed_type msg : string) (e : env) (w : world) :
  w !! CACHE_DIR = None ->
  makedirs_error e = Some msg ->
  outcome_of (fetch feed_type e w) = Raise (Exn OSError msg)
  /\ world_of (fetch feed_type e w) = w
  /\ count_requests (trace_of (fetch feed_type e w)) = 0%nat.
Proof.
  intros Hd Hm. rewrite (fetch_makedirs_fails _ _ _ _ _ _ _ _ _ Hd Hm).
  repeat split.
Qed.

(** X11: a response whose body yields no value is not cached.  When the
    decoder rejects the body as not JSON, this is reported like a failed
    request: the call returns the error value carrying the diagnostic of
    the decoder ([Response.json()] as in requests 2.27 and later, whose
    error is a [RequestException]).  When the decoder gives up on the
    body (nesting beyond the recursion limit, an integer beyond the digit
    limit), the call raises that error.  Either way nothing is
    written. *)
Theorem non_json_body_is_not_cached (feed_type feed_url : string) (e : env)
    (w : world) (r : response) :
  dict_get feed_type feed_urls = Some feed_url ->
  makedirs_ok e w ->
  cache_miss e w (get_cache_filename feed_url) ->
  http e feed_url = HttpResponds r ->
  ~ (400 <= status_code r < 600) ->
  loads (text r) = None ->
  outcome_of (fetch feed_type e w)
  = match loads_error (text r) with
    | NotJson diagnostic =>
        Ret (JDict [("error",
               JStr ("Failed to fetch earthquake data: " +:+ diagnostic))])
    | ParseFault f msg => Raise (Exn (fault_class f) msg)
    end
  /\ count_writes (trace_of (fetch feed_type e w)) = 0%nat
  /\ world_of (fetch feed_type e w) = with_cache_dir e w.
Proof.
  intros Hf Hok Hmiss Hh Hst Hl.
  rewrite (fetch_miss_run _ _ _ _ Hf Hok Hmiss), try_fresh_run, Hh, Hl.
  rewrite (status_ok _ Hst), validity_trace_eq.
  unfold outcome_of, world_of, trace_of, count_writes, ensure_cache_dir_trace.
  destruct (loads_error (text r)) as [d | f msg]; cbn [fst snd];
    (split; [reflexivity|]); (split; [|reflexivity]);
    destruct (bool_decide _), (stat _ _); reflexivity.
Qed.

(** X12: a call looks at nothing but the cache directory and the cache
    file of its feed.  On two disks that agree on what the name of the
    cache directory leads to (nothing, a directory or a regular file) and
    on the node at that cache file, the same call in the same
    surroundings has the same outcome, performs the same actions and
    leaves the same node at the cache file, whatever else the disks
    hold. *)
Theorem fetch_reads_only_its_cache (feed_type feed_url : string) (e : env)
    (w1 w2 : world) :
  dict_get feed_type feed_urls = Some feed_url ->
  file_type w1 CACHE_DIR = file_type w2 CACHE_DIR ->
  w1 !! get_cache_filename feed_url = w2 !! get_cache_filename feed_url ->
  outcome_of (fetch feed_type e w1) = outcome_of (fetch feed_type e w2)
  /\ trace_of (fetch feed_type e w1) = trace_of (fetch feed_type e w2)
  /\ world_of (fetch feed_type e w1) !! get_cache_filename feed_url
     = world_of (fetch feed_type e w2) !! get_cache_filename feed_url.
Proof.
  intros Hf Hty Heq.
  assert (Hdir : is_Some (w1 !! CACHE_DIR) <-> is_Some (w2 !! CACHE_DIR)).
  { unfold file_type in Hty.
    destruct (w1 !! CACHE_DIR), (w2 !! CACHE_DIR); try discriminate Hty;
      split; intros [? ?]; eauto; discriminate. }
  destruct (makedirs_ok_or_not e w1) as [Hok1 | (Hd1 & msg & Hm)].
  - assert (Hok2 : makedirs_ok e w2).
    { destruct Hok1 as [H | H]; [left; apply Hdir, H | right; exact H]. }
    assert (Hty' : file_type (with_cache_dir e w1) CACHE_DIR
                   = file_type (with_cache_dir e w2) CACHE_DIR).
    { unfold file_type in *. rewrite !with_cache_dir_at_dir.
      destruct (w1 !! CACHE_DIR), (w2 !! CACHE_DIR); try discriminate Hty;
        cbn in *; congruence. }
    assert (Hraw : with_cache_dir e w1 !! get_cache_filename feed_url
                   = with_cache_dir e w2 !! get_cache_filename feed_url).
    { rewrite !with_cache_dir_lookup by apply cache_file_not_cache_dir. exact Heq. }
    assert (Hperr : path_error (with_cache_dir e w1) (get_cache_filename feed_url)
                    = path_error (with_cache_dir e w2) (get_cache_filename feed_url)).
    { rewrite !path_error_cache_file. unfold file_type, is_dir in Hty'.
      destruct (with_cache_dir e w1 !! CACHE_DIR) as [[t1 [|c1]]|],
        (with_cache_dir e w2 !! CACHE_DIR) as [[t2 [|c2]]|];
        try discriminate Hty'; reflexivity. }
    assert (Hstat : stat (with_cache_dir e w1) (get_cache_filename feed_url)
                    = stat (with_cache_dir e w2) (get_cache_filename feed_url)).
    { unfold stat. rewrite Hperr, Hraw. reflexivity. }
    assert (Hopen : open_write_failure e (with_cache_dir e w1)
                      (get_cache_filename feed_url)
                    = open_write_failure e (with_cache_dir e w2)
                        (get_cache_filename feed_url)).
    { unfold open_write_failure. rewrite Hperr, Hraw. reflexivity. }
    rewrite (fetch_known_run _ _ _ _ _ _ _ _ _ Hf Hok1),
      (fetch_known_run _ _ _ _ _ _ _ _ _ Hf Hok2).
    cbv zeta. rewrite !try_cached_run, !try_fresh_run.
    assert (Htr : ensure_cache_dir_trace w1 = ensure_cache_dir_trace w2).
    { unfold ensure_cache_dir_trace. rewrite (bool_decide_ext _ _ Hdir). reflexivity. }
    rewrite !validity_trace_eq, !cache_stat_eq, Htr, Hstat, Hopen.
    unfold outcome_of, world_of, trace_of.
    repeat (cbn [fst snd];
            match goal with
            | |- context [match ?x with _ => _ end] =>
                lazymatch x with
                | context [match _ with _ => _ end] => fail
                | _ => destruct x eqn:?
                end
            end);
      cbn [fst snd];
      rewrite ?lookup_insert_eq; repeat split; congruence.
  - assert (Hd2 : w2 !! CACHE_DIR = None).
    { destruct (w2 !! CACHE_DIR) as [n|] eqn:Hn; [|reflexivity].
      destruct (proj2 Hdir (ex_intro _ n eq_refl)) as [n' Hn'].
      rewrite Hd1 in Hn'. discriminate Hn'. }
    rewrite (fetch_makedirs_fails _ _ _ _ _ _ _ _ _ Hd1 Hm),
      (fetch_makedirs_fails _ _ _ _ _ _ _ _ _ Hd2 Hm).
    unfold outcome_of, world_of, trace_of. cbn [fst snd].
    repeat split. exact Heq.
Qed.

(** X15: the handled corruption of lines 86 to 88.  A cache file within
    its time to live that cannot be opened, is a directory, or holds text
    that the decoder rejects as not JSON is tried and then passed over:
    the request is sent.  If the request fails, the answer is the error
    value and the file stays as it was; if it succeeds, the body parses
    to a value that the serialiser copes with and the file can be
    written, the fresh value is returned and replaces the file. *)
Theorem unusable_cache_is_refetched (feed_type feed_url : string) (e : env)
    (w : world) (n : node) :
  dict_get feed_type feed_urls = Some feed_url ->
  makedirs_ok e w ->
  cache_stat e w (get_cache_filename feed_url) = Some n ->
  within_ttl e n ->
  (is_Some (open_read_error e)
   \/ kind n = Dir
   \/ exists c s diagnostic,
        kind n = Reg c /\ decode_text c = Some s /\ loads s = None
        /\ loads_error s = NotJson diagnostic) ->
  In (EvRead (get_cache_filename feed_url)) (trace_of (fetch feed_type e w))
  /\ In (EvGet feed_url) (trace_of (fetch feed_type e w))
  /\ (network_fails e feed_url ->
      (exists details,
          outcome_of (fetch feed_type e w)
          = Ret (JDict [("error",
                   JStr ("Failed to fetch earthquake data: " +:+ details))]))
      /\ world_of (fetch feed_type e w) !! get_cache_filename feed_url = Some n)
  /\ (forall r data,
        http e feed_url = HttpResponds r ->
        ~ (400 <= status_code r < 600) ->
        loads (text r) = Some data ->
        dump_error data = None ->
        open_write_ok e (with_cache_dir e w) (get_cache_filename feed_url) ->
        outcome_of (fetch feed_type e w) = Ret data
        /\ world_of (fetch feed_type e w) !! get_cache_filename feed_url
           = Some (Node (fs_clock e) (Reg (dumps data)))).
Proof.
  intros Hf Hok Hc Ht Hbad.
  rewrite (unusable_cache_falls_through _ _ _ _ _ _ _ _ _ _ Hf Hok Hc Ht Hbad).
  split; [|split; [|split]].
  - destruct (fresh_fetch _ _ _ _) as [[r w2] t']. unfold trace_of. cbn [snd].
    apply in_or_app; right. do 2 right. left. reflexivity.
  - destruct (try_fresh_cases loads loads_error dumps dump_error feed_url
                (get_cache_filename feed_url) e (with_cache_dir e w))
      as [(details & Hfr)
         | [(r & f & msg & _ & _ & _ & _ & Hfr)
           | [(r & data & x & _ & _ & _ & _ & Hfr)
             | [(r & data & gave_up & _ & _ & _ & _ & _ & Hfr)
               | (r & data & _ & _ & _ & _ & _ & Hfr)]]]];
      rewrite Hfr; unfold trace_of; cbn [snd];
      apply in_or_app; right; do 3 right; left; reflexivity.
  - intros Hn.
    destruct (try_fresh_network_fails loads loads_error dumps dump_error feed_url
                (get_cache_filename feed_url) e (with_cache_dir e w) Hn)
      as [details Hfr].
    rewrite Hfr. unfold outcome_of, world_of. cbn [fst snd].
    split; [exists details; reflexivity|].
    rewrite with_cache_dir_lookup by apply cache_file_not_cache_dir.
    apply (cache_stat_lookup _ _ _ _ Hc).
  - intros r data Hh Hst Hbody Hdump Hw.
    rewrite try_fresh_run, Hh, Hbody, (status_ok _ Hst), Hw, Hdump.
    unfold outcome_of, world_of. cbn [fst snd].
    split; [reflexivity | apply lookup_insert_eq].
Qed.

(** X16: errors are not cached.  After a call that had no usable copy and
    whose request failed, a call for the same feed at any time not
    earlier sends the request again: nothing on disk stands for the
    failure. *)
Theorem errors_are_not_cached (feed_type feed_url : string) (e e' : env)
    (w : world) :
  dict_get feed_type feed_urls = Some feed_url ->
  makedirs_ok e w ->
  cache_miss e w (get_cache_filename feed_url) ->
  network_fails e feed_url ->
  (clock e <= clock e')%Q ->
  In (EvGet feed_url)
     (trace_of (fetch feed_type e' (world_of (fetch feed_type e w)))).
Proof.
  intros Hf Hok Hmiss Hn Hle.
  rewrite (fetch_miss_run _ _ _ _ Hf Hok Hmiss).
  destruct (try_fresh_network_fails loads loads_error dumps dump_error feed_url
              (get_cache_filename feed_url) e (with_cache_dir e w) Hn)
    as [details Hfr].
  rewrite Hfr. unfold world_of at 1. cbn [fst snd].
  apply (miss_sends_request _ _ _ _ Hf).
  - left. apply with_cache_dir_has_dir.
  - intros n Hc Ht.
    rewrite cache_stat_stat in Hc by apply with_cache_dir_has_dir.
    rewrite <- cache_stat_eq in Hc.
    apply (Hmiss n Hc). apply (within_ttl_earlier _ _ _ Hle Ht).
Qed.

End FetcherExtras.

(** ** Runs of the further properties *)

Module ExtraRuns.

Import Sample.

Lemma is_cache_valid_antitone_witness :
  outcome_of (is_cache_valid all_day_cache (at_time 10 usgs_up) (disk_with 0 dumped))
  = Ret true.
Proof.
  apply (is_cache_valid_antitone all_day_cache (at_time 10 usgs_up)
           (at_time 3599 usgs_up) (disk_with 0 dumped)).
  - vm_compute. discriminate.
  - vm_compute. reflexivity.
Defined.

Lemma stale_cache_is_not_served_witness :
  let r := py_fetch "all_day" (at_time 5000 usgs_times_out) (disk_with 0 dumped) in
  In (EvGet all_day_url) (trace_of r)
  /\ ~ In (EvRead (get_cache_filename all_day_url)) (trace_of r)
  /\ (network_fails (at_time 5000 usgs_times_out) all_day_url ->
      (exists details,
          outcome_of r
          = Ret (JDict [("error",
                   JStr ("Failed to fetch earthquake data: " +:+ details))]))
      /\ world_of r !! get_cache_filename all_day_url
         = disk_with 0 dumped !! get_cache_filename all_day_url).
Proof.
  apply (stale_cache_is_not_served PyJson.decode_text PyJson.loads
           PyJson.loads_error PyJson.dumps PyJson.dump_error "all_day" all_day_url
           (at_time 5000 usgs_times_out) (disk_with 0 dumped)).
  - reflexivity.
  - right. reflexivity.
  - intros n Hn. vm_compute in Hn. injection Hn as <-. vm_compute. discriminate.
Defined.

Lemma fresh_cache_is_served_witness :
  let r := py_fetch "all_day" (at_time 10 usgs_times_out) (disk_with 0 dumped) in
  outcome_of r = Ret feature_collection
  /\ count_requests (trace_of r) = 0%nat
  /\ count_writes (trace_of r) = 0%nat
  /\ world_of r !! get_cache_filename all_day_url = Some (Node 0 (Reg dumped))
  /\ (is_Some (disk_with 0 dumped !! CACHE_DIR) -> world_of r = disk_with 0 dumped).
Proof.
  apply (fresh_cache_is_served PyJson.decode_text PyJson.loads
           PyJson.loads_error PyJson.dumps PyJson.dump_error "all_day" all_day_url
           (at_time 10 usgs_times_out) (disk_with 0 dumped) 0 dumped dumped
           feature_collection).
  - reflexivity.
  - right. reflexivity.
  - vm_compute. reflexivity.
  - vm_compute. reflexivity.
  - reflexivity.
  - vm_compute. reflexivity.
  - vm_compute. reflexivity.
Defined.

Lemma hits_do_not_extend_lifetime_witness :
  In (EvGet all_day_url)
     (trace_of
        (py_fetch "all_day" (at_time 3600 usgs_times_out)
           (snd (calls PyJson.decode_text PyJson.loads PyJson.loads_error
                   PyJson.dumps PyJson.dump_error "all_day"
                   [at_time 10 usgs_times_out; at_time 3599 usgs_times_out]
                   (world_of (py_fetch "all_day" (at_time 0 usgs_up) ∅)))))).
Proof.
  apply (hits_do_not_extend_lifetime PyJson.decode_text PyJson.loads
           PyJson.loads_error PyJson.dumps PyJson.dump_error "all_day" all_day_url
           (at_time 0 usgs_up) ∅ feature_collection
           [at_time 10 usgs_times_out; at_time 3599 usgs_times_out]
           (at_time 3600 usgs_times_out)).
  - reflexivity.
  - vm_compute. reflexivity.
  - vm_compute. do 4 right. left. reflexivity.
  - vm_compute. reflexivity.
  - vm_compute. reflexivity.
  - repeat constructor.
  - vm_compute. discriminate.
Defined.

Lemma failed_write_discards_the_fetch_witness :
  let r := py_fetch "all_day" (read_only_disk 5000 usgs_up) (disk_with 0 dumped) in
  outcome_of r = Raise (Exn OSError "Read-only file system")
  /\ In (EvGet all_day_url) (trace_of r)
  /\ world_of r = with_cache_dir (read_only_disk 5000 usgs_up) (disk_with 0 dumped)
  /\ world_of r !! get_cache_filename all_day_url
     = disk_with 0 dumped !! get_cache_filename all_day_url.
Proof.
  apply (failed_write_discards_the_fetch PyJson.decode_text PyJson.loads
           PyJson.loads_error PyJson.dumps PyJson.dump_error "all_day" all_day_url
           (read_only_disk 5000 usgs_up) (disk_with 0 dumped)
           (Response 200 "OK" all_day_url body) feature_collection
           "Read-only file system").
  - reflexivity.
  - left. eexists. vm_compute. reflexivity.
  - intros n Hn. vm_compute in Hn. injection Hn as <-. vm_compute. discriminate.
  - reflexivity.
  - simpl. lia.
  - vm_compute. reflexivity.
  - reflexivity.
Defined.

Lemma no_cache_dir_no_answer_witness :
  let r := py_fetch "no_such_feed" (read_only_disk 0 usgs_up) ∅ in
  outcome_of r = Raise (Exn OSError "Read-only file system")
  /\ world_of r = ∅
  /\ count_requests (trace_of r) = 0%nat.
Proof.
  apply (no_cache_dir_no_answer PyJson.decode_text PyJson.loads
           PyJson.loads_error PyJson.dumps PyJson.dump_error "no_such_feed"
           "Read-only file system" (read_only_disk 0 usgs_up) ∅).
  - reflexivity.
  - reflexivity.
Defined.

Lemma non_json_body_is_not_cached_witness :
  let r := py_fetch "all_day" (at_time 5000 usgs_sends_html) (disk_with 0 dumped) in
  outcome_of r
  = Ret (JDict [("error",
           JStr "Failed to fetch earthquake data: Expecting value: line 1 column 1 (char 0)")])
  /\ count_writes (trace_of r) = 0%nat
  /\ world_of r = with_cache_dir (at_time 5000 usgs_sends_html) (disk_with 0 dumped).
Proof.
  apply (non_json_body_is_not_cached PyJson.decode_text PyJson.loads
           PyJson.loads_error PyJson.dumps PyJson.dump_error "all_day" all_day_url
           (at_time 5000 usgs_sends_html) (disk_with 0 dumped)
           (Response 200 "OK" all_day_url "<html>")).
  - reflexivity.
  - right. reflexivity.
  - intros n Hn. vm_compute in Hn. injection Hn as <-. vm_compute. discriminate.
  - reflexivity.
  - simpl. lia.
  - vm_compute. reflexivity.
Defined.

(** The other branch: a body nested beyond the recursion limit of the
    decoder makes the call raise, and nothing is written. *)
Example deep_body_is_not_cached :
  py_fetch "all_day" (at_time 5000 usgs_sends_deep) (disk_with 0 dumped)
  = (Raise (Exn RecursionError
       "maximum recursion depth exceeded while decoding a JSON array from a unicode string"),
     disk_with 0 dumped,
     [EvExists "cache"; EvExists all_day_cache; EvGetmtime all_day_cache;
      EvGet all_day_url]).
Proof. vm_compute. reflexivity. Qed.

(** A disk on which the name of the cache directory is taken by a regular
    file: [ensure_cache_dir] returns and the file is kept; the cache file
    is not found, the request is sent, and opening the cache file for
    writing raises [NotADirectoryError]. *)
Example cache_name_taken_by_a_file :
  ensure_cache_dir (at_time 0 usgs_up) cache_is_a_file
  = (Ret tt, cache_is_a_file, [EvExists "cache"])
  /\ py_fetch "all_day" (at_time 0 usgs_up) cache_is_a_file
     = (Raise (Exn NotADirectoryError
          "[Errno 20] Not a directory: 'cache/earthquake_data_9e9def737e1c7807fa8f69ca791b153e.json'"),
        cache_is_a_file,
        [EvExists "cache"; EvExists all_day_cache; EvGet all_day_url;
         EvWrite all_day_cache]).
Proof. split; vm_compute; reflexivity. Qed.

Lemma fetch_reads_only_its_cache_witness :
  let r1 := py_fetch "all_day" (at_time 10 usgs_up) (disk_with 0 dumped) in
  let r2 := py_fetch "all_day" (at_time 10 usgs_up) disk_with_notes in
  outcome_of r1 = outcome_of r2
  /\ trace_of r1 = trace_of r2
  /\ world_of r1 !! get_cache_filename all_day_url
     = world_of r2 !! get_cache_filename all_day_url.
Proof.
  apply (fetch_reads_only_its_cache PyJson.decode_text PyJson.loads
           PyJson.loads_error PyJson.dumps PyJson.dump_error "all_day" all_day_url
           (at_time 10 usgs_up) (disk_with 0 dumped) disk_with_notes).
  - reflexivity.
  - vm_compute. reflexivity.
  - vm_compute. reflexivity.
Defined.

Lemma resolved_feed_is_advertised_witness :
  In "all_day" get_available_feeds
  /\ all_day_url = FEED_BASE +:+ "all_day" +:+ ".geojson".
Proof.
  apply (resolved_feed_is_advertised "all_day" all_day_url).
  reflexivity.
Defined.

Lemma unusable_cache_is_refetched_witness :
  let e := at_time 10 usgs_up in
  let w := disk_with 0 "not json" in
  let r := py_fetch "all_day" e w in
  In (EvRead (get_cache_filename all_day_url)) (trace_of r)
  /\ In (EvGet all_day_url) (trace_of r)
  /\ (network_fails e all_day_url ->
      (exists details,
          outcome_of r
          = Ret (JDict [("error",
                   JStr ("Failed to fetch earthquake data: " +:+ details))]))
      /\ world_of r !! get_cache_filename all_day_url
         = Some (Node 0 (Reg "not json")))
  /\ (forall resp data,
        http e all_day_url = HttpResponds resp ->
        ~ (400 <= status_code resp < 600) ->
        PyJson.loads (text resp) = Some data ->
        PyJson.dump_error data = None ->
        open_write_ok e (with_cache_dir e w) (get_cache_filename all_day_url) ->
        outcome_of r = Ret data
        /\ world_of r !! get_cache_filename all_day_url
           = Some (Node (fs_clock e) (Reg (PyJson.dumps data)))).
Proof.
  apply (unusable_cache_is_refetched PyJson.decode_text PyJson.loads
           PyJson.loads_error PyJson.dumps PyJson.dump_error "all_day" all_day_url
           (at_time 10 usgs_up) (disk_with 0 "not json")
           (Node 0 (Reg "not json"))).
  - reflexivity.
  - left. eexists. vm_compute. reflexivity.
  - vm_compute. reflexivity.
  - vm_compute. reflexivity.
  - right; right. exists "not json", "not json". eexists.
    split; [reflexivity|]. split; [vm_compute; reflexivity|].
    split; vm_compute; reflexivity.
Defined.

Lemma errors_are_not_cached_witness :
  In (EvGet all_day_url)
     (trace_of
        (py_fetch "all_day" (at_time 5001 usgs_up)
           (world_of
              (py_fetch "all_day" (at_time 5000 usgs_times_out)
                 (disk_with 0 dumped))))).
Proof.
  apply (errors_are_not_cached PyJson.decode_text PyJson.loads
           PyJson.loads_error PyJson.dumps PyJson.dump_error "all_day" all_day_url
           (at_time 5000 usgs_times_out) (at_time 5001 usgs_up)
           (disk_with 0 dumped)).
  - reflexivity.
  - right. reflexivity.
  - intros n Hn. vm_compute in Hn. injection Hn as <-. vm_compute. discriminate.
  - exact I.
  - vm_compute. discriminate.
Defined.

End ExtraRuns.
